(** * Phishing e-mail analyzer: the triage pipeline of [mubashir7.py]

    A shallow embedding of the decision pipeline ([clean_text],
    [extract_urls], [get_registered_domain], [encode_cached],
    [analyze_email]) and the properties its specification states.

    Conventions.
    - A Python [str] is a sequence of Unicode code points: [list N].
    - A Python [float] is an IEEE 754 binary64 value: [spec_float] with
      [prec = 53] and [emax = 1024].
    - [str.lower()] follows the Unicode character database 14.0, that of
      CPython 3.11.
    - External collaborators ([tldextract.extract], the sentence encoder,
      [util.cos_sim], the pickled whitelist) are parameters. *)

From Stdlib Require Import ZArith NArith List Bool Lia String Ascii.
From Stdlib Require Import DecimalString.
From Stdlib Require Import Floats.SpecFloat.
From stdpp Require Import base countable gmap sets.
Import ListNotations.

#[local] Open Scope N_scope.

(** ** Strings *)

Abbreviation str := (list N).

(** A literal of the source, code point by code point. *)
Definition u (s : string) : str :=
  List.map N_of_ascii (list_ascii_of_string s).

Definition str_eqb (a b : str) : bool := bool_decide (a = b).

(** [sep.join(parts)] *)
Fixpoint join (sep : str) (parts : list str) : str :=
  match parts with
  | [] => []
  | [p] => p
  | p :: ps => p ++ sep ++ join sep ps
  end.

(** [Py_UNICODE_ISSPACE]: the class behind [\s] of a str pattern and behind
    [str.strip()]. *)
Definition is_space (c : N) : bool :=
  ((9 <=? c) && (c <=? 13)) || ((28 <=? c) && (c <=? 32))
  || (c =? 133) || (c =? 160) || (c =? 5760)
  || ((8192 <=? c) && (c <=? 8202))
  || (c =? 8232) || (c =? 8233) || (c =? 8239) || (c =? 8287)
  || (c =? 12288).

Definition is_upper_az (c : N) : bool := (65 <=? c) && (c <=? 90).
Definition is_lower_az (c : N) : bool := (97 <=? c) && (c <=? 122).
Definition is_digit_09 (c : N) : bool := (48 <=? c) && (c <=? 57).

(** [str.lower()], tabulated for the code points that reach it in
    [clean_text]: there it runs after the character filter, so its argument
    holds ASCII letters and digits, the five punctuation marks and white
    space; among those only [A-Z] have a lower-case form.  [str_lower]
    below is the method on any str; the two agree on filtered text (lemma
    [str_lower_filtered]). *)
Definition lower_cp (c : N) : N := if is_upper_az c then c + 32 else c.
Definition lower (s : str) : str := List.map lower_cp s.

Fixpoint lstrip_by (p : N -> bool) (s : str) : str :=
  match s with
  | [] => []
  | c :: r => if p c then lstrip_by p r else s
  end.

Definition rstrip_by (p : N -> bool) (s : str) : str :=
  rev (lstrip_by p (rev s)).

(** [s.strip()] *)
Definition strip (s : str) : str := rstrip_by is_space (lstrip_by is_space s).

(** ** [str.lower()] in full

    [get_registered_domain] lower-cases text that went through no filter,
    so there the whole of [str.lower()] is needed: the lower-case mapping
    of every code point, the one code point whose mapping has two code
    points (U+0130), and the capital sigma (U+03A3), whose lower-case form
    depends on its neighbours. *)

(** The simple lower-case mappings of the Unicode character database
    (version 14.0, that of CPython 3.11), in runs: [(lo, hi, step, lo')]
    maps the code points [lo], [lo + step], ... up to [hi] onto [lo'],
    [lo' + step], ... *)
Definition LOWER_RUNS : list (N * N * N * N) :=
  [(65, 90, 1, 97); (192, 214, 1, 224); (216, 222, 1, 248);
   (256, 302, 2, 257); (306, 310, 2, 307); (313, 327, 2, 314);
   (330, 374, 2, 331); (376, 376, 1, 255); (377, 381, 2, 378);
   (385, 385, 1, 595); (386, 388, 2, 387); (390, 390, 1, 596);
   (391, 391, 1, 392); (393, 394, 1, 598); (395, 395, 1, 396);
   (398, 398, 1, 477); (399, 399, 1, 601); (400, 400, 1, 603);
   (401, 401, 1, 402); (403, 403, 1, 608); (404, 404, 1, 611);
   (406, 406, 1, 617); (407, 407, 1, 616); (408, 408, 1, 409);
   (412, 412, 1, 623); (413, 413, 1, 626); (415, 415, 1, 629);
   (416, 420, 2, 417); (422, 422, 1, 640); (423, 423, 1, 424);
   (425, 425, 1, 643); (428, 428, 1, 429); (430, 430, 1, 648);
   (431, 431, 1, 432); (433, 434, 1, 650); (435, 437, 2, 436);
   (439, 439, 1, 658); (440, 440, 1, 441); (444, 444, 1, 445);
   (452, 452, 1, 454); (453, 453, 1, 454); (455, 455, 1, 457);
   (456, 456, 1, 457); (458, 458, 1, 460); (459, 475, 2, 460);
   (478, 494, 2, 479); (497, 497, 1, 499); (498, 500, 2, 499);
   (502, 502, 1, 405); (503, 503, 1, 447); (504, 542, 2, 505);
   (544, 544, 1, 414); (546, 562, 2, 547); (570, 570, 1, 11365);
   (571, 571, 1, 572); (573, 573, 1, 410); (574, 574, 1, 11366);
   (577, 577, 1, 578); (579, 579, 1, 384); (580, 580, 1, 649);
   (581, 581, 1, 652); (582, 590, 2, 583); (880, 882, 2, 881);
   (886, 886, 1, 887); (895, 895, 1, 1011); (902, 902, 1, 940);
   (904, 906, 1, 941); (908, 908, 1, 972); (910, 911, 1, 973);
   (913, 929, 1, 945); (931, 939, 1, 963); (975, 975, 1, 983);
   (984, 1006, 2, 985); (1012, 1012, 1, 952); (1015, 1015, 1, 1016);
   (1017, 1017, 1, 1010); (1018, 1018, 1, 1019); (1021, 1023, 1, 891);
   (1024, 1039, 1, 1104); (1040, 1071, 1, 1072); (1120, 1152, 2, 1121);
   (1162, 1214, 2, 1163); (1216, 1216, 1, 1231); (1217, 1229, 2, 1218);
   (1232, 1326, 2, 1233); (1329, 1366, 1, 1377); (4256, 4293, 1, 11520);
   (4295, 4295, 1, 11559); (4301, 4301, 1, 11565); (5024, 5103, 1, 43888);
   (5104, 5109, 1, 5112); (7312, 7354, 1, 4304); (7357, 7359, 1, 4349);
   (7680, 7828, 2, 7681); (7838, 7838, 1, 223); (7840, 7934, 2, 7841);
   (7944, 7951, 1, 7936); (7960, 7965, 1, 7952); (7976, 7983, 1, 7968);
   (7992, 7999, 1, 7984); (8008, 8013, 1, 8000); (8025, 8031, 2, 8017);
   (8040, 8047, 1, 8032); (8072, 8079, 1, 8064); (8088, 8095, 1, 8080);
   (8104, 8111, 1, 8096); (8120, 8121, 1, 8112); (8122, 8123, 1, 8048);
   (8124, 8124, 1, 8115); (8136, 8139, 1, 8050); (8140, 8140, 1, 8131);
   (8152, 8153, 1, 8144); (8154, 8155, 1, 8054); (8168, 8169, 1, 8160);
   (8170, 8171, 1, 8058); (8172, 8172, 1, 8165); (8184, 8185, 1, 8056);
   (8186, 8187, 1, 8060); (8188, 8188, 1, 8179); (8486, 8486, 1, 969);
   (8490, 8490, 1, 107); (8491, 8491, 1, 229); (8498, 8498, 1, 8526);
   (8544, 8559, 1, 8560); (8579, 8579, 1, 8580); (9398, 9423, 1, 9424);
   (11264, 11311, 1, 11312); (11360, 11360, 1, 11361);
   (11362, 11362, 1, 619); (11363, 11363, 1, 7549); (11364, 11364, 1, 637);
   (11367, 11371, 2, 11368); (11373, 11373, 1, 593); (11374, 11374, 1, 625);
   (11375, 11375, 1, 592); (11376, 11376, 1, 594); (11378, 11378, 1, 11379);
   (11381, 11381, 1, 11382); (11390, 11391, 1, 575);
   (11392, 11490, 2, 11393); (11499, 11501, 2, 11500);
   (11506, 11506, 1, 11507); (42560, 42604, 2, 42561);
   (42624, 42650, 2, 42625); (42786, 42798, 2, 42787);
   (42802, 42862, 2, 42803); (42873, 42875, 2, 42874);
   (42877, 42877, 1, 7545); (42878, 42886, 2, 42879);
   (42891, 42891, 1, 42892); (42893, 42893, 1, 613);
   (42896, 42898, 2, 42897); (42902, 42920, 2, 42903);
   (42922, 42922, 1, 614); (42923, 42923, 1, 604); (42924, 42924, 1, 609);
   (42925, 42925, 1, 620); (42926, 42926, 1, 618); (42928, 42928, 1, 670);
   (42929, 42929, 1, 647); (42930, 42930, 1, 669); (42931, 42931, 1, 43859);
   (42932, 42946, 2, 42933); (42948, 42948, 1, 42900);
   (42949, 42949, 1, 642); (42950, 42950, 1, 7566); (42951, 42953, 2, 42952);
   (42960, 42960, 1, 42961); (42966, 42968, 2, 42967);
   (42997, 42997, 1, 42998); (65313, 65338, 1, 65345);
   (66560, 66599, 1, 66600); (66736, 66771, 1, 66776);
   (66928, 66938, 1, 66967); (66940, 66954, 1, 66979);
   (66956, 66962, 1, 66995); (66964, 66965, 1, 67003);
   (68736, 68786, 1, 68800); (71840, 71871, 1, 71872);
   (93760, 93791, 1, 93792); (125184, 125217, 1, 125218)].

(** The property Cased, in closed intervals. *)
Definition CASED : list (N * N) :=
  [(65, 90); (97, 122); (170, 170); (181, 181); (186, 186); (192, 214);
   (216, 246); (248, 442); (444, 447); (452, 659); (661, 696); (704, 705);
   (736, 740); (837, 837); (880, 883); (886, 887); (890, 893); (895, 895);
   (902, 902); (904, 906); (908, 908); (910, 929); (931, 1013); (1015, 1153);
   (1162, 1327); (1329, 1366); (1376, 1416); (4256, 4293); (4295, 4295);
   (4301, 4301); (4304, 4346); (4349, 4351); (5024, 5109); (5112, 5117);
   (7296, 7304); (7312, 7354); (7357, 7359); (7424, 7615); (7680, 7957);
   (7960, 7965); (7968, 8005); (8008, 8013); (8016, 8023); (8025, 8025);
   (8027, 8027); (8029, 8029); (8031, 8061); (8064, 8116); (8118, 8124);
   (8126, 8126); (8130, 8132); (8134, 8140); (8144, 8147); (8150, 8155);
   (8160, 8172); (8178, 8180); (8182, 8188); (8305, 8305); (8319, 8319);
   (8336, 8348); (8450, 8450); (8455, 8455); (8458, 8467); (8469, 8469);
   (8473, 8477); (8484, 8484); (8486, 8486); (8488, 8488); (8490, 8493);
   (8495, 8500); (8505, 8505); (8508, 8511); (8517, 8521); (8526, 8526);
   (8544, 8575); (8579, 8580); (9398, 9449); (11264, 11492); (11499, 11502);
   (11506, 11507); (11520, 11557); (11559, 11559); (11565, 11565);
   (42560, 42605); (42624, 42653); (42786, 42887); (42891, 42894);
   (42896, 42954); (42960, 42961); (42963, 42963); (42965, 42969);
   (42997, 42998); (43000, 43002); (43824, 43866); (43868, 43880);
   (43888, 43967); (64256, 64262); (64275, 64279); (65313, 65338);
   (65345, 65370); (66560, 66639); (66736, 66771); (66776, 66811);
   (66928, 66938); (66940, 66954); (66956, 66962); (66964, 66965);
   (66967, 66977); (66979, 66993); (66995, 67001); (67003, 67004);
   (67456, 67456); (67459, 67461); (67463, 67504); (67506, 67514);
   (68736, 68786); (68800, 68850); (71840, 71903); (93760, 93823);
   (119808, 119892); (119894, 119964); (119966, 119967); (119970, 119970);
   (119973, 119974); (119977, 119980); (119982, 119993); (119995, 119995);
   (119997, 120003); (120005, 120069); (120071, 120074); (120077, 120084);
   (120086, 120092); (120094, 120121); (120123, 120126); (120128, 120132);
   (120134, 120134); (120138, 120144); (120146, 120485); (120488, 120512);
   (120514, 120538); (120540, 120570); (120572, 120596); (120598, 120628);
   (120630, 120654); (120656, 120686); (120688, 120712); (120714, 120744);
   (120746, 120770); (120772, 120779); (122624, 122633); (122635, 122654);
   (125184, 125251); (127280, 127305); (127312, 127337); (127344, 127369)].

(** The property Case_Ignorable, in closed intervals. *)
Definition CASE_IGNORABLE : list (N * N) :=
  [(39, 39); (46, 46); (58, 58); (94, 94); (96, 96); (168, 168); (173, 173);
   (175, 175); (180, 180); (183, 184); (688, 879); (884, 885); (890, 890);
   (900, 901); (903, 903); (1155, 1161); (1369, 1369); (1375, 1375);
   (1425, 1469); (1471, 1471); (1473, 1474); (1476, 1477); (1479, 1479);
   (1524, 1524); (1536, 1541); (1552, 1562); (1564, 1564); (1600, 1600);
   (1611, 1631); (1648, 1648); (1750, 1757); (1759, 1768); (1770, 1773);
   (1807, 1807); (1809, 1809); (1840, 1866); (1958, 1968); (2027, 2037);
   (2042, 2042); (2045, 2045); (2070, 2093); (2137, 2139); (2184, 2184);
   (2192, 2193); (2200, 2207); (2249, 2306); (2362, 2362); (2364, 2364);
   (2369, 2376); (2381, 2381); (2385, 2391); (2402, 2403); (2417, 2417);
   (2433, 2433); (2492, 2492); (2497, 2500); (2509, 2509); (2530, 2531);
   (2558, 2558); (2561, 2562); (2620, 2620); (2625, 2626); (2631, 2632);
   (2635, 2637); (2641, 2641); (2672, 2673); (2677, 2677); (2689, 2690);
   (2748, 2748); (2753, 2757); (2759, 2760); (2765, 2765); (2786, 2787);
   (2810, 2815); (2817, 2817); (2876, 2876); (2879, 2879); (2881, 2884);
   (2893, 2893); (2901, 2902); (2914, 2915); (2946, 2946); (3008, 3008);
   (3021, 3021); (3072, 3072); (3076, 3076); (3132, 3132); (3134, 3136);
   (3142, 3144); (3146, 3149); (3157, 3158); (3170, 3171); (3201, 3201);
   (3260, 3260); (3263, 3263); (3270, 3270); (3276, 3277); (3298, 3299);
   (3328, 3329); (3387, 3388); (3393, 3396); (3405, 3405); (3426, 3427);
   (3457, 3457); (3530, 3530); (3538, 3540); (3542, 3542); (3633, 3633);
   (3636, 3642); (3654, 3662); (3761, 3761); (3764, 3772); (3782, 3782);
   (3784, 3789); (3864, 3865); (3893, 3893); (3895, 3895); (3897, 3897);
   (3953, 3966); (3968, 3972); (3974, 3975); (3981, 3991); (3993, 4028);
   (4038, 4038); (4141, 4144); (4146, 4151); (4153, 4154); (4157, 4158);
   (4184, 4185); (4190, 4192); (4209, 4212); (4226, 4226); (4229, 4230);
   (4237, 4237); (4253, 4253); (4348, 4348); (4957, 4959); (5906, 5908);
   (5938, 5939); (5970, 5971); (6002, 6003); (6068, 6069); (6071, 6077);
   (6086, 6086); (6089, 6099); (6103, 6103); (6109, 6109); (6155, 6159);
   (6211, 6211); (6277, 6278); (6313, 6313); (6432, 6434); (6439, 6440);
   (6450, 6450); (6457, 6459); (6679, 6680); (6683, 6683); (6742, 6742);
   (6744, 6750); (6752, 6752); (6754, 6754); (6757, 6764); (6771, 6780);
   (6783, 6783); (6823, 6823); (6832, 6862); (6912, 6915); (6964, 6964);
   (6966, 6970); (6972, 6972); (6978, 6978); (7019, 7027); (7040, 7041);
   (7074, 7077); (7080, 7081); (7083, 7085); (7142, 7142); (7144, 7145);
   (7149, 7149); (7151, 7153); (7212, 7219); (7222, 7223); (7288, 7293);
   (7376, 7378); (7380, 7392); (7394, 7400); (7405, 7405); (7412, 7412);
   (7416, 7417); (7468, 7530); (7544, 7544); (7579, 7679); (8125, 8125);
   (8127, 8129); (8141, 8143); (8157, 8159); (8173, 8175); (8189, 8190);
   (8203, 8207); (8216, 8217); (8228, 8228); (8231, 8231); (8234, 8238);
   (8288, 8292); (8294, 8303); (8305, 8305); (8319, 8319); (8336, 8348);
   (8400, 8432); (11388, 11389); (11503, 11505); (11631, 11631);
   (11647, 11647); (11744, 11775); (11823, 11823); (12293, 12293);
   (12330, 12333); (12337, 12341); (12347, 12347); (12441, 12446);
   (12540, 12542); (40981, 40981); (42232, 42237); (42508, 42508);
   (42607, 42610); (42612, 42621); (42623, 42623); (42652, 42655);
   (42736, 42737); (42752, 42785); (42864, 42864); (42888, 42890);
   (42994, 42996); (43000, 43001); (43010, 43010); (43014, 43014);
   (43019, 43019); (43045, 43046); (43052, 43052); (43204, 43205);
   (43232, 43249); (43263, 43263); (43302, 43309); (43335, 43345);
   (43392, 43394); (43443, 43443); (43446, 43449); (43452, 43453);
   (43471, 43471); (43493, 43494); (43561, 43566); (43569, 43570);
   (43573, 43574); (43587, 43587); (43596, 43596); (43632, 43632);
   (43644, 43644); (43696, 43696); (43698, 43700); (43703, 43704);
   (43710, 43711); (43713, 43713); (43741, 43741); (43756, 43757);
   (43763, 43764); (43766, 43766); (43867, 43871); (43881, 43883);
   (44005, 44005); (44008, 44008); (44013, 44013); (64286, 64286);
   (64434, 64450); (65024, 65039); (65043, 65043); (65056, 65071);
   (65106, 65106); (65109, 65109); (65279, 65279); (65287, 65287);
   (65294, 65294); (65306, 65306); (65342, 65342); (65344, 65344);
   (65392, 65392); (65438, 65439); (65507, 65507); (65529, 65531);
   (66045, 66045); (66272, 66272); (66422, 66426); (67456, 67461);
   (67463, 67504); (67506, 67514); (68097, 68099); (68101, 68102);
   (68108, 68111); (68152, 68154); (68159, 68159); (68325, 68326);
   (68900, 68903); (69291, 69292); (69446, 69456); (69506, 69509);
   (69633, 69633); (69688, 69702); (69744, 69744); (69747, 69748);
   (69759, 69761); (69811, 69814); (69817, 69818); (69821, 69821);
   (69826, 69826); (69837, 69837); (69888, 69890); (69927, 69931);
   (69933, 69940); (70003, 70003); (70016, 70017); (70070, 70078);
   (70089, 70092); (70095, 70095); (70191, 70193); (70196, 70196);
   (70198, 70199); (70206, 70206); (70367, 70367); (70371, 70378);
   (70400, 70401); (70459, 70460); (70464, 70464); (70502, 70508);
   (70512, 70516); (70712, 70719); (70722, 70724); (70726, 70726);
   (70750, 70750); (70835, 70840); (70842, 70842); (70847, 70848);
   (70850, 70851); (71090, 71093); (71100, 71101); (71103, 71104);
   (71132, 71133); (71219, 71226); (71229, 71229); (71231, 71232);
   (71339, 71339); (71341, 71341); (71344, 71349); (71351, 71351);
   (71453, 71455); (71458, 71461); (71463, 71467); (71727, 71735);
   (71737, 71738); (71995, 71996); (71998, 71998); (72003, 72003);
   (72148, 72151); (72154, 72155); (72160, 72160); (72193, 72202);
   (72243, 72248); (72251, 72254); (72263, 72263); (72273, 72278);
   (72281, 72283); (72330, 72342); (72344, 72345); (72752, 72758);
   (72760, 72765); (72767, 72767); (72850, 72871); (72874, 72880);
   (72882, 72883); (72885, 72886); (73009, 73014); (73018, 73018);
   (73020, 73021); (73023, 73029); (73031, 73031); (73104, 73105);
   (73109, 73109); (73111, 73111); (73459, 73460); (78896, 78904);
   (92912, 92916); (92976, 92982); (92992, 92995); (94031, 94031);
   (94095, 94111); (94176, 94177); (94179, 94180); (110576, 110579);
   (110581, 110587); (110589, 110590); (113821, 113822); (113824, 113827);
   (118528, 118573); (118576, 118598); (119143, 119145); (119155, 119170);
   (119173, 119179); (119210, 119213); (119362, 119364); (121344, 121398);
   (121403, 121452); (121461, 121461); (121476, 121476); (121499, 121503);
   (121505, 121519); (122880, 122886); (122888, 122904); (122907, 122913);
   (122915, 122916); (122918, 122922); (123184, 123197); (123566, 123566);
   (123628, 123631); (125136, 125142); (125252, 125259); (127995, 127999);
   (917505, 917505); (917536, 917631); (917760, 917999)].

Definition in_run (c : N) (r : N * N * N * N) : bool :=
  let '(lo, hi, step, _) := r in
  (lo <=? c) && (c <=? hi) && ((c - lo) mod step =? 0).

Fixpoint simple_lower (runs : list (N * N * N * N)) (c : N) : option N :=
  match runs with
  | [] => None
  | (lo, hi, step, lo') :: rest =>
      if in_run c (lo, hi, step, lo') then Some (lo' + (c - lo))
      else simple_lower rest c
  end.

Definition in_intervals (t : list (N * N)) (c : N) : bool :=
  existsb (fun r => (fst r <=? c) && (c <=? snd r)) t.

(** [_PyUnicode_IsCased] and [_PyUnicode_IsCaseIgnorable] *)
Definition is_cased (c : N) : bool := in_intervals CASED c.
Definition is_case_ignorable (c : N) : bool := in_intervals CASE_IGNORABLE c.

(** [_PyUnicode_ToLowerFull] *)
Definition to_lower_full (c : N) : str :=
  if c =? 304 then [105; 775]
  else
    match simple_lower LOWER_RUNS c with
    | Some c' => [c']
    | None => [c]
    end.

(** A capital sigma is final when a cased code point comes before it, and
    none after it, code points that are case-ignorable being skipped on
    both sides.  [before] holds the code points to its left, the nearest
    first. *)
Definition final_sigma (before after : str) : bool :=
  match lstrip_by is_case_ignorable before with
  | [] => false
  | c :: _ =>
      is_cased c
      && match lstrip_by is_case_ignorable after with
         | [] => true
         | d :: _ => negb (is_cased d)
         end
  end.

(** [handle_capital_sigma] *)
Definition handle_capital_sigma (before after : str) : N :=
  if final_sigma before after then 962 else 963.

(** [lower_ucs4] *)
Definition lower_ucs4 (before : str) (c : N) (after : str) : str :=
  if c =? 931 then [handle_capital_sigma before after]
  else to_lower_full c.

(** [do_lower] *)
Fixpoint do_lower (before s : str) : str :=
  match s with
  | [] => []
  | c :: after => lower_ucs4 before c after ++ do_lower (c :: before) after
  end.

(** [s.lower()] of any str. *)
Definition str_lower (s : str) : str := do_lower [] s.

(** [needle in hay] for two strings. *)
Fixpoint starts_with (p s : str) : bool :=
  match p, s with
  | [], _ => true
  | _ :: _, [] => false
  | a :: p', b :: s' => (a =? b) && starts_with p' s'
  end.

Fixpoint str_in (needle hay : str) : bool :=
  starts_with needle hay ||
  match hay with
  | [] => false
  | _ :: r => str_in needle r
  end.

(** ** 3. Text cleaning *)

Inductive pyobj :=
| PyNone
| PyInt (z : Z)
| PyBytes (b : list N)
| PyStr (s : str).

(** [re.sub(r'<.*?>', '', text)].  With the text after a '<' in hand,
    [tag_len] is the number of code points up to and including the first
    '>' (62), provided no line feed (10) comes before it: [.] does not match
    a line feed, and [*?] stops at the first '>'. *)
Fixpoint tag_len (s : str) : option nat :=
  match s with
  | [] => None
  | c :: r =>
      if c =? 62 then Some 1%nat
      else if c =? 10 then None
      else option_map S (tag_len r)
  end.

(** The left-to-right scan of [re.sub]: [skip] counts the code points of the
    current match still to be dropped. *)
Fixpoint sub_tags (skip : nat) (s : str) : str :=
  match s with
  | [] => []
  | c :: r =>
      match skip with
      | S k => sub_tags k r
      | O =>
          if c =? 60 then
            match tag_len r with
            | Some n => sub_tags n r
            | None => c :: sub_tags 0 r
            end
          else c :: sub_tags 0 r
      end
  end.

(** The class [[a-zA-Z0-9\s:/._-]]; [re.sub(r'[^...]', '', text)] keeps
    exactly its members. *)
Definition allowed_char (c : N) : bool :=
  is_lower_az c || is_upper_az c || is_digit_09 c || is_space c
  || (c =? 58) || (c =? 47) || (c =? 46) || (c =? 95) || (c =? 45).

Definition clean_text (text : pyobj) : str :=
  match text with
  | PyStr s =>
      let text1 := sub_tags 0 s in
      let text2 := List.filter allowed_char text1 in
      strip (lower text2)
  | _ => []
  end.

(** ** 4. URL extraction *)

(** The class of [URL_REGEX]: anything but white space, angle brackets and
    the two quote marks (34, 39). *)
Definition url_char (c : N) : bool :=
  negb (is_space c || (c =? 60) || (c =? 62) || (c =? 34) || (c =? 39)).

(** Literal letters under [re.IGNORECASE] on a str pattern: both cases, and
    for [s] also U+017F, which the engine folds to it. *)
Definition ci (lo c : N) : bool :=
  (c =? lo) || (c =? lo - 32) || ((lo =? 115) && (c =? 383)).

Fixpoint run_len (p : N -> bool) (s : str) : nat :=
  match s with
  | [] => O
  | c :: r => if p c then S (run_len p r) else O
  end.

(** Length of the literal head of a match of [URL_REGEX] at the start of
    [s]: [https?://] or [www\.]. *)
Definition url_head (s : str) : option nat :=
  match s with
  | h :: t1 :: t2 :: p :: r =>
      if ci 104 h && ci 116 t1 && ci 116 t2 && ci 112 p then
        match r with
        | s' :: 58 :: 47 :: 47 :: _ =>
            if ci 115 s' then Some 8%nat else None
        | 58 :: 47 :: 47 :: _ => Some 7%nat
        | _ => None
        end
      else if ci 119 h && ci 119 t1 && ci 119 t2 && (p =? 46) then Some 4%nat
      else None
  | _ => None
  end.

(** Length of the match of [URL_REGEX] at the start of [s], if any: the head
    followed by a longest non-empty run of [url_char]. *)
Definition url_match (s : str) : option nat :=
  match url_head s with
  | Some h =>
      match run_len url_char (skipn h s) with
      | O => None
      | n => Some (h + n)%nat
      end
  | None => None
  end.

(** [URL_REGEX.findall(text)]: leftmost matches, none overlapping. *)
Fixpoint findall_url (skip : nat) (s : str) : list str :=
  match s with
  | [] => []
  | _ :: r =>
      match skip with
      | S k => findall_url k r
      | O =>
          match url_match s with
          | Some n => firstn n s :: findall_url (n - 1) r
          | None => findall_url 0 r
          end
      end
  end.

(** The characters [u.rstrip(...)] removes: full stop, comma, semicolon,
    exclamation and question mark, closing parenthesis, both quote marks. *)
Definition trailing_punct (c : N) : bool :=
  (c =? 46) || (c =? 44) || (c =? 59) || (c =? 33) || (c =? 63)
  || (c =? 41) || (c =? 34) || (c =? 39).

Definition extract_urls (text : str) : list str :=
  List.map (rstrip_by trailing_punct) (findall_url 0 text).


(** ** Floating point: binary64 *)

Abbreviation float := spec_float.

Definition prec : Z := 53.
Definition emax : Z := 1024.

Definition fmul : float -> float -> float := SFmul prec emax.
Definition fsub : float -> float -> float := SFsub prec emax.
Definition fltb : float -> float -> bool := SFltb.

(** The double nearest to the fraction [n/d] of two small integers: how a
    decimal literal such as [0.4] is read. *)
Definition float_of_Z (n : Z) : float := binary_normalize prec emax n 0 false.
Definition float_lit (n d : Z) : float :=
  SFdiv prec emax (float_of_Z n) (float_of_Z d).

Definition f0 : float := S754_zero false.
Definition f1 : float := S754_finite false 4503599627370496 (-52).
Definition f100 : float := S754_finite false 7036874417766400 (-46).
Definition f0_4 : float := S754_finite false 7205759403792794 (-54).
Definition f0_6 : float := S754_finite false 5404319552844595 (-53).
Definition f0_8 : float := S754_finite false 7205759403792794 (-53).

(** ** Exceptions and results *)

Inductive exn := ValueError | OverflowError.

Inductive result (A : Type) :=
| Ok (a : A)
| Raise (e : exn).
Arguments Ok {A} a.
Arguments Raise {A} e.

(** [int(x)] of a float: truncation toward zero; [ValueError] on a NaN and
    [OverflowError] on an infinity. *)
Definition py_int (x : float) : result Z :=
  match x with
  | S754_zero _ => Ok 0%Z
  | S754_nan => Raise ValueError
  | S754_infinity _ => Raise OverflowError
  | S754_finite s m e => Ok (cond_Zopp s (Z.shiftl (Zpos m) e))
  end.

(** The two-argument [max(a, b)] of Python: [b] when [b > a], else [a]. *)
Definition py_max (a b : float) : float := if fltb a b then b else a.

(** [str(n)] of an integer. *)
Definition str_of_Z (n : Z) : str := u (NilZero.string_of_int (Z.to_int n)).

(** [f"{x:.2f}"]: the exact value rounded to two decimals, ties to even. *)
Definition round_half_even (num den : Z) : Z :=
  let q := (num / den)%Z in
  let r := (num mod den)%Z in
  match (2 * r ?= den)%Z with
  | Lt => q
  | Gt => (q + 1)%Z
  | Eq => if Z.even q then q else (q + 1)%Z
  end.

Definition two_digits (n : Z) : str :=
  if (n <? 10)%Z then u "0" ++ str_of_Z n else str_of_Z n.

Definition format_2f (x : float) : str :=
  let body (n : Z) := str_of_Z (n / 100) ++ u "." ++ two_digits (n mod 100) in
  let sign (s : bool) := if s then u "-" else [] in
  match x with
  | S754_nan => u "nan"
  | S754_infinity s => sign s ++ u "inf"
  | S754_zero s => sign s ++ body 0%Z
  | S754_finite s m e =>
      sign s ++
      body (match e with
            | Zneg p => round_half_even (Zpos m * 100) (2 ^ Zpos p)
            | _ => (Zpos m * 2 ^ e * 100)%Z
            end)
  end.

(** ** 2. Configuration *)

Definition SUSPICIOUS_KEYWORDS : list str :=
  [ u "urgent"; u "verify"; u "password"; u "click"; u "confirm";
    u "account"; u "login"; u "security"; u "reset"; u "bank"; u "otp";
    u "update"; u "alert"; u "access"; u "limited time"; u "immediately";
    u "payment"; u "refund"; u "locked"; u "blocked" ].

(** The fields of [tldextract]'s [ExtractResult] the code reads. *)
Record ExtractResult := { subdomain : str; domain : str; suffix : str }.

(** Truth value of a str or of a list: non-empty. *)
Definition truthy {A : Type} (l : list A) : bool :=
  match l with [] => false | _ => true end.

Definition verdict : Type := str * str * str.

Section Analyzer.

(** [tldextract.extract]; [None] stands for a raised [Exception]. *)
Variable tld_extract : str -> option ExtractResult.
(** The whitelist, a Python [set] of str. *)
Variable SAFE_DOMAINS : gset str.
(** Embeddings, [semantic_model.encode] and [util.cos_sim(..).item()];
    [None] stands for a raised exception. *)
Variable tensor : Type.
Variable encode : str -> option tensor.
Variable cos_sim : tensor -> tensor -> option float.

Definition get_registered_domain (url : str) : str :=
  match tld_extract url with
  | Some ext =>
      if truthy (domain ext) && truthy (suffix ext)
      then str_lower (domain ext ++ u "." ++ suffix ext)
      else str_lower url
  | None => []
  end.

(** *** 5. The cached encoder

    [functools.lru_cache(maxsize=200)]: entries from most to least
    recently used.  A hit moves its entry to the front; a miss calls the
    function, stores the result at the front and drops the entry beyond
    the 200th; a call that raises stores nothing. *)
Definition cache : Type := list (str * tensor).

Fixpoint cache_get (k : str) (c : cache) : option tensor :=
  match c with
  | [] => None
  | (k', v) :: r => if str_eqb k k' then Some v else cache_get k r
  end.

Definition cache_del (k : str) (c : cache) : cache :=
  List.filter (fun kv => negb (str_eqb k (fst kv))) c.

Definition encode_cached (c : cache) (text : str) : cache * option tensor :=
  match cache_get text c with
  | Some v => ((text, v) :: cache_del text c, Some v)
  | None =>
      match encode text with
      | Some v => (firstn 200 ((text, v) :: c), Some v)
      | None => (c, None)
      end
  end.

(** *** 6. Main analyzer *)

(** Lines 95-99: the [try] block.  Any exception leaves [cosine_score = 0];
    that integer behaves as the float zero in all that follows
    (comparisons, [max], [1 - x], [:.2f]). *)
Definition cosine_score_of (c : cache) (email_text : str) (urls : list str)
  : cache * float :=
  match encode_cached c email_text with
  | (c1, Some email_emb) =>
      let other := if truthy urls then join (u " ") urls else email_text in
      match encode_cached c1 other with
      | (c2, Some other_emb) =>
          match cos_sim email_emb other_emb with
          | Some x => (c2, x)
          | None => (c2, f0)
          end
      | (c2, None) => (c2, f0)
      end
  | (c1, None) => (c1, f0)
  end.

Definition keyword_hits (email_text : str) : list str :=
  List.filter (fun k => str_in k email_text) SUSPICIOUS_KEYWORDS.

Definition label_phishing : str := [128680] ++ u " Phishing Email".
Definition label_suspicious : str := [9888; 65039] ++ u " Suspicious Email".
Definition label_legitimate : str := [9989] ++ u " Legitimate Email".
Definition label_safe : str := [9989] ++ u " Safe Email".
Definition label_empty : str := [9888; 65039] ++ u " No text provided.".

Definition percent (n : Z) : str := str_of_Z n ++ u "%".

(** Line 78. *)
Definition verdict_empty : str * str * str :=
  (label_empty, u "0%", u "Please paste the email content.").

(** Lines 105-113: label and confidence. *)
Definition fuse (hits : list str) (cosine_score : float)
  : result (str * str) :=
  if truthy hits && fltb f0_4 cosine_score then
    match py_int (fmul (py_max cosine_score f0_8) f100) with
    | Ok n => Ok (label_phishing, percent n)
    | Raise e => Raise e
    end
  else if truthy hits || fltb f0_6 cosine_score then
    match py_int (fmul (py_max cosine_score f0_6) f100) with
    | Ok n => Ok (label_suspicious, percent n)
    | Raise e => Raise e
    end
  else
    match py_int (fmul (fsub f1 cosine_score) f100) with
    | Ok n => Ok (label_legitimate, percent n)
    | Raise e => Raise e
    end.

(** Lines 83-84: the two comprehensions over [domains]. *)
Definition safe_hits_of (domains : list str) : list str :=
  List.filter (fun d => bool_decide (d ∈ SAFE_DOMAINS)) domains.

Definition non_safe_hits_of (domains : list str) : list str :=
  List.filter (fun d => negb (bool_decide (d ∈ SAFE_DOMAINS))) domains.

Definition analyze_email (c : cache) (email : pyobj)
  : cache * result verdict :=
  let email_text := clean_text email in
  if negb (truthy email_text) then
    (c, Ok verdict_empty)
  else
    let urls := extract_urls email_text in
    let domains := List.map get_registered_domain urls in
    let safe_hits := safe_hits_of domains in
    let non_safe_hits := non_safe_hits_of domains in
    let lines1 :=
      if truthy urls then
        [[128279] ++ u " URLs found: " ++ join (u ", ") urls]
      else [[128196] ++ u " No URLs detected."] in
    if truthy urls && (truthy safe_hits && negb (truthy non_safe_hits)) then
      (c, Ok (label_safe, u "99%",
              u "All domains are whitelisted: " ++ join (u ", ") safe_hits))
    else
      let lines2 :=
        if truthy urls && truthy non_safe_hits then
          lines1 ++ [[9888; 65039] ++ u " Non-whitelisted domains: "
                       ++ join (u ", ") non_safe_hits]
        else lines1 in
      let '(c', cosine_score) := cosine_score_of c email_text urls in
      let hits := keyword_hits email_text in
      let lines3 :=
        if truthy hits then
          lines2 ++ [[9888; 65039] ++ u " Suspicious keywords: "
                       ++ join (u ", ") hits]
        else lines2 in
      match fuse hits cosine_score with
      | Ok (label, confidence) =>
          let lines4 :=
            lines3 ++ [u "Semantic similarity score: "
                         ++ format_2f cosine_score] in
          (c', Ok (label, confidence, join [10] lines4))
      | Raise e => (c', Raise e)
      end.

(** The condition of line 88 under that of line 86: the early return. *)
Definition short_circuits (email_text : str) : bool :=
  let urls := extract_urls email_text in
  let domains := List.map get_registered_domain urls in
  truthy urls
  && (truthy (safe_hits_of domains) && negb (truthy (non_safe_hits_of domains))).

(** The explanation of a verdict that went through lines 95-116. *)
Definition explanation_of (email_text : str) (cosine_score : float) : str :=
  let urls := extract_urls email_text in
  let domains := List.map get_registered_domain urls in
  let non_safe_hits := non_safe_hits_of domains in
  let hits := keyword_hits email_text in
  join [10]
    ((if truthy urls then
        [[128279] ++ u " URLs found: " ++ join (u ", ") urls]
        ++ (if truthy non_safe_hits then
              [[9888; 65039] ++ u " Non-whitelisted domains: "
                 ++ join (u ", ") non_safe_hits]
            else [])
      else [[128196] ++ u " No URLs detected."])
     ++ (if truthy hits then
           [[9888; 65039] ++ u " Suspicious keywords: "
              ++ join (u ", ") hits]
         else [])
     ++ [u "Semantic similarity score: " ++ format_2f cosine_score]).

(** The [try] block of lines 95-99 ends in its handler: one of the two
    [encode_cached] calls or [util.cos_sim] raised. *)
Definition scoring_raises (c : cache) (email_text : str) (urls : list str)
  : Prop :=
  match encode_cached c email_text with
  | (c1, Some email_emb) =>
      let other := if truthy urls then join (u " ") urls else email_text in
      match encode_cached c1 other with
      | (_, Some other_emb) => cos_sim email_emb other_emb = None
      | (_, None) => True
      end
  | (_, None) => True
  end.

End Analyzer.

Arguments analyze_email tld_extract SAFE_DOMAINS {tensor} encode cos_sim c email.
Arguments cosine_score_of {tensor} encode cos_sim c email_text urls.
Arguments encode_cached {tensor} encode c text.
Arguments cache_get {tensor} k c.
Arguments cache_del {tensor} k c.
Arguments scoring_raises {tensor} encode cos_sim c email_text urls.


(** ** Definitions that follow the specification's words *)

(** "Removes HTML-like tags (<...>) entirely": from a '<' through the next
    '>', whatever stands between them. *)
Fixpoint spec_tag_len (s : str) : option nat :=
  match s with
  | [] => None
  | c :: r => if c =? 62 then Some 1%nat else option_map S (spec_tag_len r)
  end.

Fixpoint spec_remove_tags (skip : nat) (s : str) : str :=
  match s with
  | [] => []
  | c :: r =>
      match skip with
      | S k => spec_remove_tags k r
      | O =>
          if c =? 60 then
            match spec_tag_len r with
            | Some n => spec_remove_tags n r
            | None => c :: spec_remove_tags 0 r
            end
          else c :: spec_remove_tags 0 r
      end
  end.

(** [normalize] of section 4.1, step by step. *)
Definition normalize_spec (text : pyobj) : str :=
  match text with
  | PyStr s => strip (lower (List.filter allowed_char (spec_remove_tags 0 s)))
  | _ => []
  end.

(** What the code removes, stated on the text: a tag is a '<', a body free
    of '>' and of line feeds, and a '>'; a '<' that opens no such tag
    stays, as every other code point does. *)
Definition tag_body (body : str) : Prop :=
  Forall (fun c => c <> 62 /\ c <> 10) body.

Inductive tags_removed : str -> str -> Prop :=
| tr_nil : tags_removed [] []
| tr_tag body rest out :
    tag_body body ->
    tags_removed rest out ->
    tags_removed (60 :: body ++ 62 :: rest) out
| tr_keep c rest out :
    (c = 60 -> forall body rest', tag_body body -> rest <> body ++ 62 :: rest') ->
    tags_removed rest out ->
    tags_removed (c :: rest) (c :: out).

(** [needle] occurs in [hay]. *)
Definition substring (needle hay : str) : Prop :=
  exists pre post, hay = pre ++ needle ++ post.

(** The floor of a float, where it has one. *)
Definition float_floor (x : float) : result Z :=
  match x with
  | S754_zero _ => Ok 0%Z
  | S754_nan => Raise ValueError
  | S754_infinity _ => Raise OverflowError
  | S754_finite s m e => Ok (Z.shiftl (cond_Zopp s (Zpos m)) e)
  end.

(** Section 4.7, step 3: label and integer percentage, the products taken
    in binary64 as the score is. *)
Definition fuse_spec (hits : list str) (similarityScore : float)
  : result (str * Z) :=
  let pct (l : str) (x : float) :=
    match float_floor (fmul x f100) with
    | Ok n => Ok (l, n)
    | Raise e => Raise e
    end in
  if truthy hits && fltb f0_4 similarityScore then
    pct label_phishing (py_max similarityScore f0_8)
  else if truthy hits || fltb f0_6 similarityScore then
    pct label_suspicious (py_max similarityScore f0_6)
  else
    pct label_legitimate (fsub f1 similarityScore).

(** A float of the closed interval from 0 to 1. *)
Definition in_unit (x : float) : bool :=
  valid_binary prec emax x && SFleb f0 x && SFleb x f1.

(** A float that is a number and at most 1: the negative numbers and minus
    infinity are among them, a NaN is not. *)
Definition at_most_1 (x : float) : bool :=
  valid_binary prec emax x && SFleb x f1.

(** The score -1, the double 2, and the lowest score at which a text
    without keywords still shows 100%: -5764607523034176 * 2^-59, about
    -0.009999999999999898, a little above -0.01. *)
Definition fm1 : float := S754_finite true 4503599627370496 (-52).
Definition f2 : float := S754_finite false 4503599627370496 (-51).
Definition score_threshold : float :=
  S754_finite true 5764607523034176 (-59).

(** A float of the closed interval from -1 to 1, where a cosine lies. *)
Definition in_cosine_range (x : float) : bool :=
  valid_binary prec emax x && SFleb fm1 x && SFleb x f1.

(** The mantissa, at exponent -52, of the greatest double whose
    hundredfold rounds below 101. *)
Definition MY : Z := 4548635623644200%Z.

(** The integer nearest to [M / 2^k], ties to even. *)
Definition rne (M k : Z) : Z :=
  let q := (M / 2 ^ k)%Z in
  match (2 * (M mod 2 ^ k) ?= 2 ^ k)%Z with
  | Lt => q
  | Eq => if Z.even q then q else (q + 1)%Z
  | Gt => (q + 1)%Z
  end.

(** Where a remainder [r] of a division by [2^n] lies. *)
Definition locr (r n : Z) : location :=
  if (r =? 0)%Z then loc_Exact else loc_Inexact (2 * r ?= 2 ^ n)%Z.

(** What [n] steps of [shr_1] keep: the quotient, and the place of the
    remainder. *)
Definition shr_inv (M n : Z) (rec : shr_record) : Prop :=
  exists r,
    (M = shr_m rec * 2 ^ n + r /\ 0 <= r < 2 ^ n /\ 0 <= shr_m rec)%Z
    /\ loc_of_shr_record rec = locr r n.

(** ** A concrete environment, for examples *)

Definition tld_demo (url : str) : option ExtractResult :=
  if str_eqb url (u "https://mail.gmail.com/inbox") then
    Some {| subdomain := u "mail"; domain := u "gmail"; suffix := u "com" |}
  else if starts_with (u "http://evil-bank-login.xyz") url then
    Some {| subdomain := []; domain := u "evil-bank-login"; suffix := u "xyz" |}
  else if str_eqb url (u "http://localhost/x") then
    Some {| subdomain := []; domain := u "localhost"; suffix := [] |}
  else None.

Definition tld_fail (url : str) : option ExtractResult := None.

Definition safe_demo : gset str :=
  {[ u "gmail.com"; u "yahoo.com"; u "outlook.com" ]}.

(** A stand-in for the encoder and for [util.cos_sim]: the embedding of a
    text is the text, a text that holds "crash" cannot be encoded, a vector
    is at similarity 1 from itself, and the other scores are tabulated on
    the length of the second text. *)
Definition encode_demo (text : str) : option str :=
  if str_in (u "crash") text then None else Some text.

Definition cos_demo (a b : str) : option float :=
  if str_eqb a b then Some f1
  else
    match (length b mod 4)%nat with
    | 0%nat => Some f0_4
    | 1%nat => Some f0_6
    | 2%nat => Some (float_lit (-1) 2)
    | _ => None
    end.

(** The same with every score in the unit interval. *)
Definition cos_unit (a b : str) : option float :=
  if str_eqb a b then Some f1
  else
    match (length b mod 4)%nat with
    | 0%nat => Some f0_4
    | 1%nat => Some f0_6
    | 2%nat => Some (float_lit 1 2)
    | _ => None
    end.

(** ** Further vocabulary for the properties *)

(** The code points a run of [LOWER_RUNS] maps onto. *)
Definition run_images (r : N * N * N * N) : list N :=
  let '(lo, hi, step, lo') := r in
  List.map (fun k => lo' + N.of_nat k * step)
    (seq 0 (S (N.to_nat ((hi - lo) / step)))).

(** The code points of the class of [allowed_char]: those up to 160 that
    belong to it, and the white space beyond. *)
Definition filtered_points : list N :=
  List.map N.of_nat (seq 0 161) ++ [5760]
  ++ List.map (fun k => 8192 + N.of_nat k) (seq 0 96) ++ [12288].

(** A code point that [str.lower()] leaves as it is, whatever stands
    around it. *)
Definition fixed_by_lower (c : N) : bool :=
  negb (c =? 931) && negb (c =? 304)
  && negb (existsb (in_run c) LOWER_RUNS).

(** The code points a cleaned text can hold: what the character filter
    keeps, lower-cased. *)
Definition clean_char (c : N) : bool :=
  is_lower_az c || is_digit_09 c || is_space c
  || (c =? 58) || (c =? 47) || (c =? 46) || (c =? 95) || (c =? 45).

(** The same without white space: what a URL of a cleaned text can hold. *)
Definition clean_url_char (c : N) : bool :=
  is_lower_az c || is_digit_09 c
  || (c =? 58) || (c =? 47) || (c =? 46) || (c =? 95) || (c =? 45).

Section CacheVocabulary.

Variable tensor : Type.
Variable encode : str -> option tensor.

Definition cache_keys (c : cache tensor) : list str := List.map fst c.

(** What [lru_cache(maxsize=200)] maintains: one entry per key, at most 200
    entries. *)
Definition cache_ok (c : cache tensor) : Prop :=
  NoDup (cache_keys c) /\ (length c <= 200)%nat.

(** Every entry is what the encoder gives for its key. *)
Definition cache_coherent (c : cache tensor) : Prop :=
  forall k v, cache_get k c = Some v -> encode k = Some v.

End CacheVocabulary.

Arguments cache_keys {tensor} c.
Arguments cache_ok {tensor} c.
Arguments cache_coherent {tensor} encode c.

(** A cosine that returns a NaN, and one that returns an infinity. *)
Definition cos_nan (a b : str) : option float := Some S754_nan.
Definition cos_inf (a b : str) : option float := Some (S754_infinity false).

(** An encoder that only raises. *)
Definition encode_fail (text : str) : option str := None.

(** A full cache: 200 one-letter keys, code points 1000 to 1199, the most
    recent first. *)
Definition full_cache : cache str :=
  List.map (fun i => ([1000 + N.of_nat i], [N.of_nat i])) (seq 0 200).

(** * Properties *)

(** ** Strings *)

Lemma starts_with_spec (p s : str) :
  starts_with p s = true <-> exists post, s = p ++ post.
Proof.
  revert s; induction p as [|a p IH]; intros s; simpl.
  - split; [intros _; now exists s | reflexivity].
  - destruct s as [|b s].
    + split; [discriminate | intros [post H]; discriminate].
    + rewrite andb_true_iff, N.eqb_eq, IH. split.
      * intros [-> [post ->]]. now exists post.
      * intros [post H]. injection H as -> ->. split; [reflexivity | now exists post].
Qed.

Lemma str_in_spec (k t : str) : str_in k t = true <-> substring k t.
Proof.
  unfold substring. induction t as [|c t IH].
  - simpl. rewrite orb_false_r, starts_with_spec. split.
    + intros [post H]. exists [], post. exact H.
    + intros [pre [post H]]. destruct pre; simpl in H.
      * now exists post.
      * discriminate.
  - cbn [str_in]. rewrite orb_true_iff, starts_with_spec, IH. split.
    + intros [[post H] | [pre [post H]]].
      * exists [], post. exact H.
      * exists (c :: pre), post. simpl. now rewrite H.
    + intros [pre [post H]]. destruct pre as [|c' pre]; simpl in H.
      * left. now exists post.
      * right. injection H as _ H. now exists pre, post.
Qed.

(** ** Text cleaning *)

Lemma tag_len_closed (body rest : str) :
  tag_body body -> tag_len (body ++ 62 :: rest) = Some (S (length body)).
Proof.
  induction 1 as [|c body [H62 H10] _ IH]; simpl; [reflexivity |].
  destruct (N.eqb_spec c 62); [contradiction |].
  destruct (N.eqb_spec c 10); [contradiction |].
  now rewrite IH.
Qed.

Lemma tag_len_open (r : str) (n : nat) :
  tag_len r = Some n ->
  exists body rest, r = body ++ 62 :: rest /\ tag_body body /\ n = S (length body).
Proof.
  revert n; induction r as [|c r IH]; intros n; simpl; [discriminate |].
  destruct (N.eqb_spec c 62) as [->|Hc].
  - intros [= <-]. exists [], r. repeat split. constructor.
  - destruct (N.eqb_spec c 10) as [->|Hc']; [discriminate |].
    destruct (tag_len r) as [k|]; [| discriminate].
    intros [= <-]. destruct (IH k eq_refl) as [body [rest [-> [Hb ->]]]].
    exists (c :: body), rest. repeat split. now constructor.
Qed.

Lemma tag_len_spec (r : str) (n : nat) :
  tag_len r = Some n <->
  exists body rest, r = body ++ 62 :: rest /\ tag_body body /\ n = S (length body).
Proof.
  split; [apply tag_len_open |].
  intros [body [rest [-> [Hb ->]]]]. now apply tag_len_closed.
Qed.

Lemma sub_tags_skip (body rest : str) :
  sub_tags (S (length body)) (body ++ 62 :: rest) = sub_tags 0 rest.
Proof.
  induction body as [|b body IH]; simpl; [reflexivity | exact IH].
Qed.

Lemma tags_removed_sub_tags (s : str) : tags_removed s (sub_tags 0 s).
Proof.
  remember (length s) as n eqn:Hn.
  revert s Hn. induction n as [n IH] using lt_wf_ind. intros s Hn.
  destruct s as [|c r]; [constructor |].
  cbn [sub_tags].
  destruct (N.eqb_spec c 60) as [->|Hc].
  - destruct (tag_len r) as [k|] eqn:Hk.
    + destruct (proj1 (tag_len_spec r k) Hk) as [body [rest [-> [Hb ->]]]].
      rewrite sub_tags_skip.
      apply tr_tag; [exact Hb |].
      apply (IH (length rest)); [| reflexivity].
      subst n. simpl. rewrite length_app. simpl. lia.
    + apply tr_keep.
      * intros _ body rest' Hb ->.
        assert (E : tag_len (body ++ 62 :: rest') = Some (S (length body)))
          by (apply tag_len_spec; eauto).
        congruence.
      * apply (IH (length r)); [subst n; simpl; lia | reflexivity].
  - apply tr_keep; [congruence |].
    apply (IH (length r)); [subst n; simpl; lia | reflexivity].
Qed.

Lemma tag_body_split (b1 b2 r1 r2 : str) :
  tag_body b1 -> tag_body b2 -> b1 ++ 62 :: r1 = b2 ++ 62 :: r2 ->
  b1 = b2 /\ r1 = r2.
Proof.
  revert b2; induction b1 as [|a b1 IH]; intros b2 H1 H2 E.
  - destruct b2 as [|b b2]; simpl in E.
    + injection E as E. auto.
    + injection E as <- _. inversion H2 as [|? ? [Hne _]]. congruence.
  - destruct b2 as [|b b2]; simpl in E.
    + injection E as -> _. inversion H1 as [|? ? [Hne _]]. congruence.
    + injection E as <- E. inversion H1; inversion H2; subst.
      destruct (IH b2) as [-> ->]; auto.
Qed.

Lemma tags_removed_unique (s a b : str) :
  tags_removed s a -> tags_removed s b -> a = b.
Proof.
  intros Ha. revert b. induction Ha as [|body rest out Hb Ha IH|c rest out Hn Ha IH];
    intros b Hb'.
  - inversion Hb'. reflexivity.
  - inversion Hb' as [|body' rest' out' Hb2 Hr E|c' rest' out' Hn' Hr]; subst.
    + destruct (tag_body_split body' body rest' rest) as [-> ->]; auto.
    + exfalso. eapply Hn'; eauto.
  - inversion Hb' as [|body' rest' out' Hb2 Hr E|c' rest' out' Hn' Hr]; subst.
    + exfalso. eapply Hn; eauto.
    + f_equal. auto.
Qed.

(** C10, as stated: [clean_text] is the specification's [normalize].  It is
    not: a tag that runs over a line break is kept by the code (only its
    angle brackets go, with the character filter), and removed whole by the
    specification.  Input: '<', 'a', line feed, 'b', '>'. *)
Lemma clean_text_multiline_tag :
  clean_text (PyStr [60; 97; 10; 98; 62])
  <> normalize_spec (PyStr [60; 97; 10; 98; 62]).
Proof. vm_compute. discriminate. Qed.

(** C10, amended: on a non-string [clean_text] returns the empty string; on
    a string it removes every tag that lies within one line (there is
    exactly one text [t] with those tags removed), then every code point
    outside the allowed class, then lower-cases and strips white space. *)
Theorem clean_text_spec :
  clean_text PyNone = []
  /\ (forall z, clean_text (PyInt z) = [])
  /\ (forall b, clean_text (PyBytes b) = [])
  /\ (forall s, exists t,
         tags_removed s t
         /\ (forall t', tags_removed s t' -> t' = t)
         /\ clean_text (PyStr s)
            = strip (lower (List.filter allowed_char t))).
Proof.
  repeat split; try reflexivity.
  intros s. exists (sub_tags 0 s). repeat split.
  - apply tags_removed_sub_tags.
  - intros t' H. eapply tags_removed_unique; [exact H | apply tags_removed_sub_tags].
Qed.

(** ** Keywords *)

Lemma filter_sublist {A : Type} (f : A -> bool) (l : list A) :
  sublist (List.filter f l) l.
Proof.
  induction l as [|a l IH]; simpl; [constructor |].
  destruct (f a); now constructor.
Qed.

Lemma keyword_hits_In (text k : str) :
  In k (keyword_hits text) <-> In k SUSPICIOUS_KEYWORDS /\ substring k text.
Proof.
  unfold keyword_hits. rewrite filter_In, str_in_spec. reflexivity.
Qed.

(** C9: the matcher returns exactly the vocabulary entries (20, all
    different) that occur in the text as substrings, in the order of the
    vocabulary: "password" before "urgent" in the text still lists "urgent"
    first. *)
Theorem keyword_hits_spec :
  length SUSPICIOUS_KEYWORDS = 20%nat
  /\ NoDup SUSPICIOUS_KEYWORDS
  /\ (forall text k,
         In k (keyword_hits text)
         <-> In k SUSPICIOUS_KEYWORDS /\ substring k text)
  /\ (forall text, sublist (keyword_hits text) SUSPICIOUS_KEYWORDS)
  /\ keyword_hits (u "your password expires, this is urgent")
     = [u "urgent"; u "password"].
Proof.
  split; [reflexivity |].
  split; [apply (bool_decide_eq_true_1 _); vm_compute; reflexivity |].
  split; [apply keyword_hits_In |].
  split; [intros text; apply filter_sublist |].
  vm_compute. reflexivity.
Qed.

(** ** Lower-casing *)

Lemma do_lower_cons (before : str) (c : N) (after : str) :
  do_lower before (c :: after)
  = lower_ucs4 before c after ++ do_lower (c :: before) after.
Proof. reflexivity. Qed.

Lemma lower_ucs4_not_nil (before : str) (c : N) (after : str) :
  lower_ucs4 before c after <> [].
Proof.
  unfold lower_ucs4, to_lower_full.
  destruct (c =? 931); [discriminate |].
  destruct (c =? 304); [discriminate |].
  destruct (simple_lower LOWER_RUNS c); discriminate.
Qed.

Lemma str_lower_nil_iff (s : str) : str_lower s = [] <-> s = [].
Proof.
  unfold str_lower. destruct s as [|c r]; [split; reflexivity |].
  rewrite do_lower_cons. split; [| discriminate].
  intros H. apply app_eq_nil in H as [H _].
  now apply lower_ucs4_not_nil in H.
Qed.

Lemma in_run_image (c lo hi step lo' : N) :
  in_run c (lo, hi, step, lo') = true ->
  In (lo' + (c - lo)) (run_images (lo, hi, step, lo')).
Proof.
  unfold in_run, run_images. intros H.
  apply andb_true_iff in H as [H Hm]. apply andb_true_iff in H as [Hlo Hhi].
  apply N.leb_le in Hlo, Hhi. apply N.eqb_eq in Hm.
  pose proof (N.Div0.div_mod (c - lo) step) as Hd.
  rewrite Hm, N.add_0_r, N.mul_comm in Hd.
  assert (Hq : (c - lo) / step <= (hi - lo) / step)
    by (apply N.Div0.div_le_mono; lia).
  revert Hd Hq. generalize ((c - lo) / step) ((hi - lo) / step).
  intros q q' Hd Hq.
  apply in_map_iff. exists (N.to_nat q). split.
  - rewrite N2Nat.id, <- Hd. reflexivity.
  - apply in_seq. lia.
Qed.

Lemma simple_lower_In (runs : list (N * N * N * N)) (c c' : N) :
  simple_lower runs c = Some c' -> In c' (flat_map run_images runs).
Proof.
  induction runs as [|[[[lo hi] step] lo'] rest IH]; [discriminate |].
  cbn [simple_lower flat_map]. intros H. apply in_or_app.
  destruct (in_run c (lo, hi, step, lo')) eqn:E.
  - left. injection H as <-. now apply in_run_image.
  - right. now apply IH.
Qed.

Lemma simple_lower_None (runs : list (N * N * N * N)) (c : N) :
  existsb (in_run c) runs = false <-> simple_lower runs c = None.
Proof.
  induction runs as [|[[[lo hi] step] lo'] rest IH]; [split; reflexivity |].
  cbn [simple_lower existsb].
  destruct (in_run c (lo, hi, step, lo')); [split; discriminate |].
  exact IH.
Qed.

Lemma fixed_by_lower_spec (c : N) :
  fixed_by_lower c = true ->
  forall before after, lower_ucs4 before c after = [c].
Proof.
  unfold fixed_by_lower. intros H before after.
  apply andb_true_iff in H as [H Hr]. apply andb_true_iff in H as [Hs Hi].
  apply negb_true_iff in Hs, Hi, Hr.
  unfold lower_ucs4, to_lower_full. rewrite Hs, Hi.
  now rewrite (proj1 (simple_lower_None LOWER_RUNS c) Hr).
Qed.

Lemma lower_images_fixed :
  forallb fixed_by_lower (flat_map run_images LOWER_RUNS) = true.
Proof. vm_compute. reflexivity. Qed.

Lemma lower_ucs4_fixed (before : str) (c : N) (after : str) :
  forallb fixed_by_lower (lower_ucs4 before c after) = true.
Proof.
  unfold lower_ucs4, handle_capital_sigma, to_lower_full.
  destruct (c =? 931) eqn:Hs.
  { destruct (final_sigma before after); vm_compute; reflexivity. }
  destruct (c =? 304) eqn:Hi; [vm_compute; reflexivity |].
  destruct (simple_lower LOWER_RUNS c) as [c'|] eqn:Hl.
  - pose proof lower_images_fixed as Hall. rewrite forallb_forall in Hall.
    cbn [forallb]. rewrite (Hall c' (simple_lower_In _ _ _ Hl)). reflexivity.
  - cbn [forallb]. unfold fixed_by_lower. rewrite Hs, Hi.
    now rewrite (proj2 (simple_lower_None LOWER_RUNS c) Hl).
Qed.

Lemma do_lower_all_fixed (before s : str) :
  forallb fixed_by_lower (do_lower before s) = true.
Proof.
  revert before. induction s as [|c r IH]; intros before; [reflexivity |].
  rewrite do_lower_cons, forallb_app, lower_ucs4_fixed. apply IH.
Qed.

Lemma do_lower_fixed (s : str) :
  forallb fixed_by_lower s = true -> forall before, do_lower before s = s.
Proof.
  induction s as [|c r IH]; intros H before; [reflexivity |].
  cbn [forallb] in H. apply andb_true_iff in H as [Hc Hr].
  rewrite do_lower_cons, (fixed_by_lower_spec c Hc), (IH Hr). reflexivity.
Qed.

(** Lower-casing twice is lower-casing once, the final sigma included. *)
Lemma str_lower_idempotent (s : str) : str_lower (str_lower s) = str_lower s.
Proof. apply do_lower_fixed, do_lower_all_fixed. Qed.

Lemma do_lower_In (c : N) (s : str) :
  fixed_by_lower c = true -> In c s -> forall before, In c (do_lower before s).
Proof.
  intros Hc. induction s as [|d r IH]; intros Hin before; [contradiction |].
  rewrite do_lower_cons. apply in_or_app. destruct Hin as [->|Hin].
  - left. rewrite (fixed_by_lower_spec c Hc). now left.
  - right. now apply IH.
Qed.

(** No output of the method is a capital from A to Z. *)
Lemma fixed_by_lower_not_upper (c : N) :
  fixed_by_lower c = true -> is_upper_az c = false.
Proof.
  intros H. destruct (is_upper_az c) eqn:E; [exfalso | reflexivity].
  unfold is_upper_az in E. apply andb_true_iff in E as [Hlo Hhi].
  apply N.leb_le in Hlo, Hhi.
  assert (Hall : forallb (fun n => negb (fixed_by_lower (N.of_nat n)))
                   (seq 65 26) = true) by (vm_compute; reflexivity).
  rewrite forallb_forall in Hall.
  specialize (Hall (N.to_nat c)). rewrite N2Nat.id, H in Hall.
  assert (Hin : In (N.to_nat c) (seq 65 26)) by (apply in_seq; lia).
  apply Hall in Hin. discriminate Hin.
Qed.

Lemma str_lower_no_upper (s : str) :
  Forall (fun c => is_upper_az c = false) (str_lower s).
Proof.
  apply List.Forall_forall. intros c Hc.
  apply fixed_by_lower_not_upper.
  pose proof (do_lower_all_fixed [] s) as H. rewrite forallb_forall in H.
  now apply H.
Qed.

(** On text that passed the character filter of [clean_text], the method
    is the table of [lower]. *)
Lemma allowed_char_points (c : N) :
  allowed_char c = true -> In c filtered_points.
Proof.
  unfold allowed_char, is_lower_az, is_upper_az, is_digit_09, is_space.
  intros H.
  assert (Hc : c <= 160 \/ c = 5760 \/ (8192 <= c <= 8287) \/ c = 12288).
  { repeat match type of H with
           | (_ || _) = true => apply orb_true_iff in H as [H|H]
           | (_ && _) = true =>
               let H1 := fresh in apply andb_true_iff in H as [H1 H];
               apply N.leb_le in H1
           | (_ <=? _) = true => apply N.leb_le in H
           | (_ =? _) = true => apply N.eqb_eq in H
           end; lia. }
  unfold filtered_points. rewrite !in_app_iff, !in_map_iff.
  destruct Hc as [Hc|[->|[Hc| ->]]].
  - left. exists (N.to_nat c).
    split; [apply N2Nat.id | apply in_seq; lia].
  - right. left. now left.
  - right. right. left. exists (N.to_nat (c - 8192)).
    split; [rewrite N2Nat.id; lia | apply in_seq; lia].
  - right. right. right. now left.
Qed.

Lemma filtered_points_lower :
  forallb (fun c => implb (allowed_char c)
                      (negb (c =? 931)
                       && str_eqb (to_lower_full c) [lower_cp c]))
    filtered_points = true.
Proof. vm_compute. reflexivity. Qed.

Lemma lower_ucs4_allowed (before : str) (c : N) (after : str) :
  allowed_char c = true -> lower_ucs4 before c after = [lower_cp c].
Proof.
  intros H. pose proof (allowed_char_points c H) as Hin.
  pose proof filtered_points_lower as Hall. rewrite forallb_forall in Hall.
  apply Hall in Hin. rewrite H in Hin. cbn [implb] in Hin.
  apply andb_true_iff in Hin as [Hs He].
  apply negb_true_iff in Hs. unfold lower_ucs4. rewrite Hs.
  unfold str_eqb in He. now apply bool_decide_eq_true_1 in He.
Qed.

Lemma str_lower_filtered (s : str) :
  forallb allowed_char s = true -> str_lower s = lower s.
Proof.
  unfold str_lower. generalize (@nil N) as before.
  induction s as [|c r IH]; intros before H; [reflexivity |].
  cbn [forallb] in H. apply andb_true_iff in H as [Hc Hr].
  rewrite do_lower_cons, (lower_ucs4_allowed _ _ _ Hc), (IH _ Hr).
  reflexivity.
Qed.

(** So [clean_text] is lines 46-48 with [str.lower()] in full. *)
Lemma clean_text_str_lower (s : str) :
  clean_text (PyStr s)
  = strip (str_lower (List.filter allowed_char (sub_tags 0 s))).
Proof.
  unfold clean_text. rewrite str_lower_filtered; [reflexivity |].
  apply forallb_forall. intros c Hc. now apply List.filter_In in Hc as [_ Hc].
Qed.

(** ** Domain resolution *)

(** C3, as stated: a parsing exception falls back to the lower-cased URL.
    It does not: the handler of line 62 returns the empty string. *)
Lemma get_registered_domain_on_exception :
  get_registered_domain tld_fail (u "http://x") <> str_lower (u "http://x").
Proof. vm_compute. discriminate. Qed.

(** Outside ASCII the lower-casing is the full one: with an unusable pair
    the URL [HTTP://] followed by U+00C9 comes back as [http://] followed
    by U+00E9, and a capital sigma at the end of a word comes back
    final. *)
Lemma get_registered_domain_unicode :
  let unusable (_ : str) :=
    Some {| subdomain := []; domain := []; suffix := [] |} in
  get_registered_domain unusable (u "HTTP://" ++ [201])
  = u "http://" ++ [233]
  /\ get_registered_domain unusable [927; 931; 32; 927; 931; 913]
     = [959; 962; 32; 959; 963; 945].
Proof. split; vm_compute; reflexivity. Qed.

(** C3, amended: [get_registered_domain] is total; with a non-empty domain
    and suffix it returns their lower-cased dot-joined concatenation (never
    empty, and with its dot); with an unusable pair it returns the
    lower-cased URL; when the parser raises it returns the empty string.
    So the result is empty only if the parser raised or the URL was empty,
    and it is always in lower case: lower-casing it again changes nothing,
    and it holds no capital from A to Z. *)
Theorem get_registered_domain_spec (tld_extract : str -> option ExtractResult)
    (url : str) :
  let r := get_registered_domain tld_extract url in
  (forall ext, tld_extract url = Some ext ->
               domain ext <> [] -> suffix ext <> [] ->
               r = str_lower (domain ext ++ u "." ++ suffix ext)
               /\ r <> [] /\ In 46 r)
  /\ (forall ext, tld_extract url = Some ext ->
                  domain ext = [] \/ suffix ext = [] ->
                  r = str_lower url)
  /\ (tld_extract url = None -> r = [])
  /\ (r = [] -> tld_extract url = None \/ url = [])
  /\ str_lower r = r
  /\ Forall (fun c => is_upper_az c = false) r.
Proof.
  assert (Ht : forall A (l : list A), truthy l = true <-> l <> []).
  { intros A [|a l]; cbn; split; congruence. }
  assert (Hdot : forall d sfx, In 46 (str_lower (d ++ u "." ++ sfx))).
  { intros d sfx. apply do_lower_In; [vm_compute; reflexivity |].
    apply in_or_app. right. now left. }
  cbv zeta. unfold get_registered_domain.
  destruct (tld_extract url) as [ext|].
  - destruct (truthy (domain ext) && truthy (suffix ext)) eqn:E.
    + apply andb_true_iff in E as [Ed Es]. apply Ht in Ed, Es.
      assert (Hn : str_lower (domain ext ++ u "." ++ suffix ext) <> []).
      { intros H. apply str_lower_nil_iff, app_eq_nil in H as [_ H].
        discriminate. }
      split; [intros ext' [= <-] _ _; auto |].
      split; [intros ext' [= <-] [H|H]; contradiction |].
      split; [discriminate |].
      split; [intros H; contradiction |].
      split; [apply str_lower_idempotent | apply str_lower_no_upper].
    + split.
      { intros ext' [= <-] Hd Hs. apply Ht in Hd, Hs.
        rewrite Hd, Hs in E. discriminate. }
      split; [reflexivity |].
      split; [discriminate |].
      split; [intros H; right; now apply str_lower_nil_iff |].
      split; [apply str_lower_idempotent | apply str_lower_no_upper].
  - split; [discriminate |]. split; [discriminate |].
    split; [reflexivity |]. split; [auto |].
    split; [reflexivity | constructor].
Qed.

(** ** The analyzer *)

Section AnalyzerProperties.

Variable tld_extract : str -> option ExtractResult.
Variable SAFE_DOMAINS : gset str.
Variable tensor : Type.
Variable encode : str -> option tensor.
Variable cos_sim : tensor -> tensor -> option float.

#[local] Abbreviation analyze :=
  (analyze_email tld_extract SAFE_DOMAINS encode cos_sim).
#[local] Abbreviation score_of := (cosine_score_of encode cos_sim).
#[local] Abbreviation resolve := (get_registered_domain tld_extract).
#[local] Abbreviation short := (short_circuits tld_extract SAFE_DOMAINS).
#[local] Abbreviation explain := (explanation_of tld_extract SAFE_DOMAINS).

Lemma truthy_false {A : Type} (l : list A) : truthy l = false <-> l = [].
Proof. destruct l; simpl; split; congruence. Qed.

Lemma truthy_true {A : Type} (l : list A) : truthy l = true <-> l <> [].
Proof. destruct l; simpl; split; congruence. Qed.

Lemma analyze_empty (c : cache tensor) (email : pyobj) :
  truthy (clean_text email) = false ->
  analyze c email = (c, Ok verdict_empty).
Proof. intros H. unfold analyze_email. rewrite H. reflexivity. Qed.

Lemma analyze_short (c : cache tensor) (email : pyobj) :
  truthy (clean_text email) = true ->
  short (clean_text email) = true ->
  analyze c email
  = (c, Ok (label_safe, u "99%",
            u "All domains are whitelisted: "
            ++ join (u ", ")
                 (safe_hits_of SAFE_DOMAINS
                    (List.map resolve (extract_urls (clean_text email)))))).
Proof.
  intros Ht Hs. unfold analyze_email, short_circuits in *.
  rewrite Ht. cbn [negb]. cbv zeta. rewrite Hs. reflexivity.
Qed.

Lemma analyze_fusion (c : cache tensor) (email : pyobj) :
  truthy (clean_text email) = true ->
  short (clean_text email) = false ->
  analyze c email
  = (fst (score_of c (clean_text email) (extract_urls (clean_text email))),
     let s := snd (score_of c (clean_text email)
                     (extract_urls (clean_text email))) in
     match fuse (keyword_hits (clean_text email)) s with
     | Ok (label, confidence) =>
         Ok (label, confidence, explain (clean_text email) s)
     | Raise e => Raise e
     end).
Proof.
  intros Ht Hs. unfold analyze_email, short_circuits, explanation_of in *.
  rewrite Ht. cbn [negb]. cbv zeta. rewrite Hs.
  destruct (score_of _ _) as [c' s]. cbn [fst snd].
  destruct (fuse _ s) as [[label confidence]|e]; [| reflexivity].
  do 3 f_equal.
  destruct (truthy (extract_urls (clean_text email)));
    destruct (truthy (non_safe_hits_of _ _));
    destruct (truthy (keyword_hits _)); reflexivity.
Qed.

Lemma str_eqb_refl (a : str) : str_eqb a a = true.
Proof. unfold str_eqb. now apply bool_decide_eq_true_2. Qed.

Lemma encode_cached_again (c c1 : cache tensor) (t : str) (e : tensor) :
  encode_cached encode c t = (c1, Some e) ->
  encode_cached encode c1 t = ((t, e) :: cache_del t c1, Some e).
Proof.
  unfold encode_cached. destruct (cache_get t c) as [v|].
  - intros [= <- <-]. cbn [cache_get]. now rewrite str_eqb_refl.
  - destruct (encode t) as [v|]; [| discriminate].
    intros [= <- <-]. cbn [firstn cache_get]. now rewrite str_eqb_refl.
Qed.

Lemma filter_all {A : Type} (f : A -> bool) (l : list A) :
  (forall x, In x l -> f x = true) -> List.filter f l = l.
Proof.
  induction l as [|a l IH]; simpl; intros H; [reflexivity |].
  rewrite (H a) by auto. f_equal. apply IH. auto.
Qed.

Lemma filter_none {A : Type} (f : A -> bool) (l : list A) :
  (forall x, In x l -> f x = false) -> List.filter f l = [].
Proof.
  induction l as [|a l IH]; simpl; intros H; [reflexivity |].
  rewrite (H a) by auto. apply IH. auto.
Qed.

Lemma fuse_one (k : str) (hits : list str) :
  fuse (k :: hits) f1 = Ok (label_phishing, u "100%")
  /\ fuse [] f1 = Ok (label_suspicious, u "100%").
Proof. split; vm_compute; reflexivity. Qed.

Lemma fuse_zero (k : str) (hits : list str) :
  fuse (k :: hits) f0 = Ok (label_suspicious, u "60%")
  /\ fuse [] f0 = Ok (label_legitimate, u "100%").
Proof. split; vm_compute; reflexivity. Qed.

Lemma fuse_boundary (k : str) (hits : list str) :
  fuse (k :: hits) f0_4 = Ok (label_suspicious, u "60%")
  /\ fuse [] f0_6 = Ok (label_legitimate, u "40%").
Proof. split; vm_compute; reflexivity. Qed.

Lemma score_of_raises (c : cache tensor) (t : str) (urls : list str) :
  scoring_raises encode cos_sim c t urls -> snd (score_of c t urls) = f0.
Proof.
  unfold scoring_raises, cosine_score_of.
  destruct (encode_cached encode c t) as [c1 [e|]]; [| reflexivity].
  destruct (encode_cached encode c1 _) as [c2 [o|]]; [| reflexivity].
  intros ->. reflexivity.
Qed.

(** C6, as stated: on the empty string the explanation reads "No text
    provided. Please paste the email content.".  It does not: line 78 puts
    the first sentence in the label and only the second in the
    explanation. *)
Lemma analyze_empty_explanation :
  ~ exists label,
      snd (analyze_email tld_demo safe_demo encode_demo cos_demo [] (PyStr []))
      = Ok (label, u "0%",
            u "No text provided. Please paste the email content.").
Proof. intros [label H]. vm_compute in H. discriminate. Qed.

(** C6, amended: on the empty string and on a value that is not a string
    (None among them) [analyze_email] returns the label "No text provided."
    (after its warning sign), the confidence "0%" and the explanation
    "Please paste the email content.", whatever the collaborators are, and
    leaves the encoder's cache as it was; it raises nothing. *)
Theorem analyze_email_empty (c : cache tensor) :
  let empty :=
    ([9888; 65039] ++ u " No text provided.", u "0%",
     u "Please paste the email content.") in
  analyze c (PyStr []) = (c, Ok empty)
  /\ analyze c PyNone = (c, Ok empty)
  /\ (forall z, analyze c (PyInt z) = (c, Ok empty))
  /\ (forall b, analyze c (PyBytes b) = (c, Ok empty)).
Proof. repeat split. Qed.

(** C1: when the cleaned text holds at least one URL and every resolved
    domain is in the whitelist, the verdict is "Safe Email" at "99%" with
    the whitelisted domains listed; the encoder, the similarity and the
    keywords have no part in it and the cache is untouched. *)
Theorem analyze_email_whitelisted (c : cache tensor) (email : pyobj) :
  let urls := extract_urls (clean_text email) in
  urls <> [] ->
  (forall url, In url urls -> resolve url ∈ SAFE_DOMAINS) ->
  analyze c email
  = (c, Ok ([9989] ++ u " Safe Email", u "99%",
            u "All domains are whitelisted: "
            ++ join (u ", ") (List.map resolve urls))).
Proof.
  intros urls Hne Hall.
  assert (Hsafe : safe_hits_of SAFE_DOMAINS (List.map resolve urls)
                  = List.map resolve urls).
  { apply filter_all. intros d Hd. apply in_map_iff in Hd as [w [<- Hw]].
    apply bool_decide_eq_true_2. auto. }
  assert (Hnon : non_safe_hits_of SAFE_DOMAINS (List.map resolve urls) = []).
  { apply filter_none. intros d Hd. apply in_map_iff in Hd as [w [<- Hw]].
    rewrite (bool_decide_eq_true_2 _ (Hall w Hw)). reflexivity. }
  assert (Ht : truthy (clean_text email) = true).
  { apply truthy_true. intros E. apply Hne. subst urls. now rewrite E. }
  rewrite analyze_short; [| exact Ht |].
  - fold urls. rewrite Hsafe. reflexivity.
  - unfold short_circuits. fold urls. rewrite Hsafe, Hnon.
    destruct urls; [contradiction | reflexivity].
Qed.

(** C7: when an encoder call or the cosine computation raises, the score
    the decision uses is zero and [analyze_email] still returns a verdict:
    nothing propagates.  Where the decision reaches the fusion step the
    verdict is Suspicious at "60%" with a keyword hit and Legitimate at
    "100%" without. *)
Theorem analyze_email_scoring_raises (c : cache tensor) (email : pyobj) :
  let t := clean_text email in
  scoring_raises encode cos_sim c t (extract_urls t) ->
  snd (score_of c t (extract_urls t)) = f0
  /\ exists v,
       snd (analyze c email) = Ok v
       /\ (truthy t = true -> short t = false ->
           v = (if truthy (keyword_hits t) then label_suspicious
                else label_legitimate,
                if truthy (keyword_hits t) then u "60%" else u "100%",
                explain t f0)).
Proof.
  intros t H. pose proof (score_of_raises _ _ _ H) as Hs.
  split; [exact Hs |].
  destruct (truthy t) eqn:Ht.
  - destruct (short t) eqn:Hsh.
    + rewrite analyze_short by assumption. eexists. split; [reflexivity |].
      discriminate.
    + rewrite analyze_fusion by assumption. cbn [snd]. fold t. rewrite Hs.
      destruct (keyword_hits t) as [|k hits].
      * rewrite (proj2 (fuse_zero [] [])). eexists. split; [reflexivity |].
        reflexivity.
      * rewrite (proj1 (fuse_zero k hits)). eexists. split; [reflexivity |].
        reflexivity.
  - rewrite analyze_empty by assumption. eexists. split; [reflexivity |].
    discriminate.
Qed.

(** C2: a non-empty cleaned text without URLs, an encoder call that
    succeeds and a cosine that gives 1.0 on a vector and itself: the verdict
    is never Legitimate; it is Phishing at "100%" when a vocabulary entry
    occurs in the text and Suspicious at "100%" otherwise. *)
Theorem analyze_email_no_urls (c : cache tensor) (email : pyobj) :
  let t := clean_text email in
  t <> [] ->
  extract_urls t = [] ->
  snd (encode_cached encode c t) <> None ->
  (forall v, cos_sim v v = Some f1) ->
  exists label,
    snd (analyze c email) = Ok (label, u "100%", explain t f1)
    /\ label <> label_legitimate
    /\ ((exists k, In k SUSPICIOUS_KEYWORDS /\ substring k t) ->
        label = label_phishing)
    /\ (~ (exists k, In k SUSPICIOUS_KEYWORDS /\ substring k t) ->
        label = label_suspicious).
Proof.
  intros t Hne Hurls Henc Hcos.
  assert (Ht : truthy t = true) by now apply truthy_true.
  assert (Hsh : short t = false) by (unfold short_circuits; now rewrite Hurls).
  assert (Hs : snd (score_of c t []) = f1).
  { unfold cosine_score_of.
    destruct (encode_cached encode c t) as [c1 [e|]] eqn:E1;
      [| now contradiction Henc].
    cbn [truthy]. rewrite (encode_cached_again _ _ _ _ E1), Hcos. reflexivity. }
  rewrite analyze_fusion by assumption. cbn [snd]. fold t.
  rewrite Hurls, Hs.
  destruct (keyword_hits t) as [|k hits] eqn:Hk.
  - rewrite (proj2 (fuse_one [] [])). exists label_suspicious.
    split; [reflexivity |]. split; [discriminate |].
    split; [| reflexivity].
    intros [k [Hin Hsub]].
    pose proof (proj2 (keyword_hits_In t k) (conj Hin Hsub)) as Hmem.
    rewrite Hk in Hmem. destruct Hmem.
  - rewrite (proj1 (fuse_one k hits)). exists label_phishing.
    split; [reflexivity |]. split; [discriminate |].
    split; [reflexivity |].
    intros Hno. exfalso. apply Hno. exists k.
    apply (proj1 (keyword_hits_In t k)). rewrite Hk. left. reflexivity.
Qed.

(** C5: the thresholds are strict.  At a score of exactly 0.4 with a
    keyword hit the verdict is Suspicious (at "60%"), not Phishing; at
    exactly 0.6 without a hit it is Legitimate (at "40%"), not
    Suspicious. *)
Theorem analyze_email_thresholds :
  (forall (c : cache tensor) (email : pyobj),
      let t := clean_text email in
      truthy t = true -> short t = false ->
      keyword_hits t <> [] ->
      snd (score_of c t (extract_urls t)) = f0_4 ->
      snd (analyze c email) = Ok (label_suspicious, u "60%", explain t f0_4))
  /\ (forall (c : cache tensor) (email : pyobj),
        let t := clean_text email in
        truthy t = true -> short t = false ->
        keyword_hits t = [] ->
        snd (score_of c t (extract_urls t)) = f0_6 ->
        snd (analyze c email)
        = Ok (label_legitimate, u "40%", explain t f0_6)).
Proof.
  split; intros c email t Ht Hsh Hk Hs;
    rewrite analyze_fusion by assumption; cbn [snd]; fold t; rewrite Hs.
  - destruct (keyword_hits t) as [|k hits]; [contradiction |].
    now rewrite (proj1 (fuse_boundary k hits)).
  - rewrite Hk. now rewrite (proj2 (fuse_boundary [] [])).
Qed.

End AnalyzerProperties.

(** ** Binary64 arithmetic *)

#[local] Open Scope Z_scope.

(** The constants are the literals of the source, correctly rounded, and
    well-formed doubles. *)
Lemma float_constants :
  f0_4 = float_lit 2 5 /\ f0_6 = float_lit 3 5 /\ f0_8 = float_lit 4 5
  /\ f1 = float_of_Z 1 /\ f100 = float_of_Z 100
  /\ forallb (valid_binary prec emax) [f0; f0_4; f0_6; f0_8; f1; f100] = true.
Proof. repeat split; vm_compute; reflexivity. Qed.

Lemma digits2_pos_bounds (m : positive) :
  2 ^ (Zpos (digits2_pos m) - 1) <= Zpos m < 2 ^ Zpos (digits2_pos m).
Proof.
  induction m as [m IH|m IH|]; cbn [digits2_pos].
  - rewrite Pos2Z.inj_succ.
    replace (Z.succ (Zpos (digits2_pos m)) - 1)
      with (Z.succ (Zpos (digits2_pos m) - 1)) by lia.
    rewrite !Z.pow_succ_r by lia. lia.
  - rewrite Pos2Z.inj_succ.
    replace (Z.succ (Zpos (digits2_pos m)) - 1)
      with (Z.succ (Zpos (digits2_pos m) - 1)) by lia.
    rewrite !Z.pow_succ_r by lia. lia.
  - simpl. lia.
Qed.

Lemma Zdigits2_le (m d : Z) : 0 <= m < 2 ^ d -> 0 <= d -> Zdigits2 m <= d.
Proof.
  intros [H0 H] Hd. destruct m as [|p|p]; simpl; [lia | | lia].
  destruct (digits2_pos_bounds p) as [Hlo _].
  destruct (Z_le_gt_dec (Zpos (digits2_pos p)) d) as [|Hgt]; [assumption |].
  exfalso.
  assert (2 ^ d <= 2 ^ (Zpos (digits2_pos p) - 1))
    by (apply Z.pow_le_mono_r; lia).
  lia.
Qed.

Lemma shr_1_m (r : shr_record) :
  0 <= shr_m r -> shr_m (shr_1 r) = shr_m r / 2.
Proof.
  destruct r as [m rb sb]. cbn [shr_m]. intros H.
  destruct m as [|p|p]; [reflexivity | | lia].
  destruct p as [p|p|]; cbn [shr_1 shr_m].
  - apply Z.div_unique with 1; lia.
  - apply Z.div_unique with 0; lia.
  - reflexivity.
Qed.

Lemma iter_shr_1_m (p : positive) (r : shr_record) :
  0 <= shr_m r -> shr_m (SpecFloat.iter_pos shr_1 p r) = shr_m r / 2 ^ Zpos p.
Proof.
  revert r. induction p as [p IH|p IH|]; intros r H; cbn [SpecFloat.iter_pos].
  - assert (H1 : 0 <= shr_m (shr_1 r))
      by (rewrite shr_1_m by assumption; apply Z.div_pos; lia).
    assert (H2 : 0 <= shr_m (SpecFloat.iter_pos shr_1 p (shr_1 r)))
      by (rewrite IH by assumption; apply Z.div_pos; lia).
    rewrite IH, IH, shr_1_m by assumption.
    rewrite !Z.div_div by lia. f_equal.
    replace (Zpos p~1) with (Zpos p + Zpos p + 1) by lia.
    rewrite !Z.pow_add_r by lia. change (2 ^ 1) with 2. ring.
  - assert (H2 : 0 <= shr_m (SpecFloat.iter_pos shr_1 p r))
      by (rewrite IH by assumption; apply Z.div_pos; lia).
    rewrite IH, IH by assumption.
    rewrite Z.div_div by lia. f_equal.
    replace (Zpos p~0) with (Zpos p + Zpos p) by lia.
    rewrite Z.pow_add_r by lia. reflexivity.
  - rewrite shr_1_m by assumption. reflexivity.
Qed.

Lemma shr_record_of_loc_m (m : Z) (l : location) :
  shr_m (shr_record_of_loc m l) = m.
Proof. destruct l as [|[| |]]; reflexivity. Qed.

(** The first component of [shr_fexp] divides the mantissa by a power of
    two, the second raises the exponent by as much. *)
Lemma shr_fexp_m (m e : Z) (l : location) :
  0 <= m ->
  let k := Z.max 0 (fexp prec emax (Zdigits2 m + e) - e) in
  shr_m (fst (shr_fexp prec emax m e l)) = m / 2 ^ k
  /\ snd (shr_fexp prec emax m e l) = e + k.
Proof.
  intros Hm k. unfold shr_fexp, shr. subst k.
  destruct (fexp prec emax (Zdigits2 m + e) - e) as [|p|p]; cbn [fst snd].
  - rewrite shr_record_of_loc_m, Z.div_1_r. split; [reflexivity | lia].
  - rewrite iter_shr_1_m by (rewrite shr_record_of_loc_m; exact Hm).
    rewrite shr_record_of_loc_m. split; [f_equal; f_equal; lia | lia].
  - rewrite shr_record_of_loc_m, Z.div_1_r. split; [reflexivity | lia].
Qed.

Lemma round_nearest_even_bounds (m : Z) (l : location) :
  m <= round_nearest_even m l <= m + 1.
Proof.
  destruct l as [|[| |]]; cbn [round_nearest_even]; try lia.
  destruct (Z.even m); lia.
Qed.

(** The outcome of rounding a positive mantissa: the sign is kept, the
    mantissa is divided twice by a power of two, with at most one unit
    added in between. *)
Lemma binary_round_aux_shape (sx : bool) (m : positive) (e : Z) (l : location) :
  exists m2 k k2,
    k = Z.max 0 (fexp prec emax (Zdigits2 (Zpos m) + e) - e)
    /\ Zpos m / 2 ^ k <= m2 <= Zpos m / 2 ^ k + 1
    /\ k2 = Z.max 0 (fexp prec emax (Zdigits2 m2 + (e + k)) - (e + k))
    /\ binary_round_aux prec emax sx (Zpos m) e l
       = match m2 / 2 ^ k2 with
         | Z0 => S754_zero sx
         | Zpos m3 =>
             if e + k + k2 <=? emax - prec
             then S754_finite sx m3 (e + k + k2)
             else S754_infinity sx
         | Zneg _ => S754_nan
         end.
Proof.
  unfold binary_round_aux.
  destruct (shr_fexp_m (Zpos m) e l) as [Hm He]; [lia |].
  destruct (shr_fexp prec emax (Zpos m) e l) as [mrs' e'].
  cbn [fst snd] in Hm, He.
  set (m2 := round_nearest_even (shr_m mrs') (loc_of_shr_record mrs')).
  assert (Hm2 : shr_m mrs' <= m2 <= shr_m mrs' + 1)
    by apply round_nearest_even_bounds.
  assert (H0 : 0 <= shr_m mrs') by (rewrite Hm; apply Z.div_pos; lia).
  destruct (shr_fexp_m m2 e' loc_Exact) as [Hm' He']; [lia |].
  destruct (shr_fexp prec emax m2 e' loc_Exact) as [mrs'' e''].
  cbn [fst snd] in Hm', He'.
  exists m2, (Z.max 0 (fexp prec emax (Zdigits2 (Zpos m) + e) - e)),
    (Z.max 0 (fexp prec emax (Zdigits2 m2 + e') - e')).
  rewrite <- He, <- Hm. repeat split; try lia.
  rewrite Hm', He'. reflexivity.
Qed.

Lemma fexp_le (d b : Z) :
  d <= b + 53 -> -1074 <= b -> fexp prec emax d <= b.
Proof. unfold fexp, emin, prec, emax. lia. Qed.

Lemma pow2_pos (a : Z) : 0 <= a -> 0 < 2 ^ a.
Proof. intros. apply Z.pow_pos_nonneg; lia. Qed.

Lemma pow2_split (a b : Z) : 0 <= a -> 0 <= b -> 2 ^ (a + b) = 2 ^ a * 2 ^ b.
Proof. intros. apply Z.pow_add_r; assumption. Qed.

(** A float no greater than one: a zero, or a positive mantissa below the
    matching power of two. *)
Definition le_one (x : float) : Prop :=
  match x with
  | S754_zero _ => True
  | S754_finite false m e => Zpos m <= 2 ^ (- e) /\ e <= 0
  | _ => False
  end.

(** Rounding a value below one gives a value no greater than one. *)
Lemma binary_round_aux_le_one (m : positive) (e : Z) (l : location) :
  e <= 0 -> Zpos m < 2 ^ (- e) ->
  le_one (binary_round_aux prec emax false (Zpos m) e l).
Proof.
  intros He Hm.
  destruct (binary_round_aux_shape false m e l)
    as [m2 [k [k2 [Hk [Hm2 [Hk2 ->]]]]]].
  assert (Hd : Zdigits2 (Zpos m) <= - e) by (apply Zdigits2_le; lia).
  assert (Hf : fexp prec emax (Zdigits2 (Zpos m) + e) <= -53)
    by (apply fexp_le; lia).
  assert (Hk0 : 0 <= k) by lia.
  set (a := - (e + k)).
  assert (Ha : 0 <= a) by (unfold a; lia).
  assert (Hpk : 0 < 2 ^ k) by now apply pow2_pos.
  assert (Hpa : 0 < 2 ^ a) by now apply pow2_pos.
  assert (Hsplit : 2 ^ (- e) = 2 ^ k * 2 ^ a).
  { rewrite <- pow2_split by assumption. f_equal. unfold a. lia. }
  assert (H1 : Zpos m / 2 ^ k < 2 ^ a).
  { apply Z.div_lt_upper_bound; [assumption | lia]. }
  assert (H0 : 0 <= Zpos m / 2 ^ k) by (apply Z.div_pos; lia).
  assert (Hd2 : Zdigits2 m2 <= a + 1).
  { apply Zdigits2_le; [| lia]. rewrite pow2_split by lia.
    change (2 ^ 1) with 2. lia. }
  assert (Hf2 : fexp prec emax (Zdigits2 m2 + (e + k)) <= -52)
    by (apply fexp_le; unfold a in Hd2; lia).
  assert (Hk20 : 0 <= k2) by lia.
  assert (He3 : e + k + k2 <= 0) by lia.
  assert (Hpk2 : 0 < 2 ^ k2) by now apply pow2_pos.
  assert (Hsplit2 : 2 ^ a = 2 ^ k2 * 2 ^ (- (e + k + k2))).
  { rewrite <- pow2_split by lia. f_equal. unfold a. lia. }
  assert (H3 : m2 / 2 ^ k2 <= 2 ^ (- (e + k + k2))).
  { apply Z.div_le_upper_bound; [assumption | lia]. }
  destruct (m2 / 2 ^ k2) as [|m3|m3] eqn:E3.
  - exact I.
  - replace (e + k + k2 <=? emax - prec) with true
      by (symmetry; apply Z.leb_le; unfold emax, prec; lia).
    split; assumption.
  - assert (0 <= m2 / 2 ^ k2) by (apply Z.div_pos; lia). lia.
Qed.

(** A float no greater than one, times 100, truncates to an integer of
    the range 0..100. *)
Lemma fmul_100_le_one (x : float) :
  le_one x -> exists n, py_int (fmul x f100) = Ok n /\ 0 <= n <= 100.
Proof.
  destruct x as [s|s| |[|] m e]; cbn [le_one]; try contradiction.
  - intros _. exists 0. split; [reflexivity | lia].
  - intros [Hm He].
    unfold fmul, f100. cbn [SFmul xorb].
    destruct (binary_round_aux_shape false (m * 7036874417766400) (e + -46)
                loc_Exact) as [m2 [k [k2 [Hk [Hm2 [Hk2 ->]]]]]].
    set (w := 46 - e).
    assert (Hw : 46 <= w) by (unfold w; lia).
    assert (Hpe : 0 < 2 ^ (- e)) by (apply pow2_pos; lia).
    assert (Hc : 7036874417766400 = 100 * 2 ^ 46) by reflexivity.
    assert (Hpw : 2 ^ w = 2 ^ 46 * 2 ^ (- e)).
    { rewrite <- pow2_split by lia. f_equal. }
    assert (HM : Zpos (m * 7036874417766400) <= 100 * 2 ^ w).
    { rewrite Pos2Z.inj_mul, Hc, Hpw.
      assert (0 < 2 ^ 46) by (apply pow2_pos; lia). nia. }
    assert (Hd : Zdigits2 (Zpos (m * 7036874417766400)) <= 7 + w).
    { apply Zdigits2_le; [| lia]. rewrite pow2_split by lia.
      change (2 ^ 7) with 128.
      assert (0 < 2 ^ w) by (apply pow2_pos; lia). lia. }
    assert (Hf : fexp prec emax
                   (Zdigits2 (Zpos (m * 7036874417766400)) + (e + -46))
                 <= -46)
      by (apply fexp_le; unfold w in Hd; lia).
    assert (Hk0 : 0 <= k) by lia.
    set (a := - (e + -46 + k)).
    assert (Ha : 46 <= a) by (unfold a; lia).
    assert (Hpk : 0 < 2 ^ k) by now apply pow2_pos.
    assert (Hpa : 0 < 2 ^ a) by (apply pow2_pos; lia).
    assert (Hsplit : 2 ^ w = 2 ^ k * 2 ^ a).
    { rewrite <- pow2_split by lia. f_equal. unfold a, w. lia. }
    assert (H1 : Zpos (m * 7036874417766400) / 2 ^ k <= 100 * 2 ^ a).
    { apply Z.div_le_upper_bound; [assumption | nia]. }
    assert (H0 : 0 <= Zpos (m * 7036874417766400) / 2 ^ k)
      by (apply Z.div_pos; lia).
    assert (Hp1 : 2 <= 2 ^ a).
    { change 2 with (2 ^ 1) at 1. apply Z.pow_le_mono_r; lia. }
    assert (Hd2 : Zdigits2 m2 <= 7 + a).
    { apply Zdigits2_le; [| lia]. rewrite pow2_split by lia.
      change (2 ^ 7) with 128. lia. }
    assert (Hf2 : fexp prec emax (Zdigits2 m2 + (e + -46 + k)) <= -46)
      by (apply fexp_le; unfold a in Hd2; lia).
    assert (Hk20 : 0 <= k2) by lia.
    assert (He3 : e + -46 + k + k2 <= -46) by lia.
    assert (Hpk2 : 0 < 2 ^ k2) by now apply pow2_pos.
    assert (Hsplit2 : 2 ^ a = 2 ^ k2 * 2 ^ (- (e + -46 + k + k2))).
    { rewrite <- pow2_split by lia. f_equal. unfold a. lia. }
    assert (Hq : 0 <= m2 / 2 ^ k2) by (apply Z.div_pos; lia).
    destruct (m2 / 2 ^ k2) as [|m3|m3] eqn:E3.
    + exists 0. split; [reflexivity | lia].
    + replace (e + -46 + k + k2 <=? emax - prec) with true
        by (symmetry; apply Z.leb_le; unfold emax, prec; lia).
      cbn [py_int cond_Zopp].
      rewrite Z.shiftl_div_pow2 by lia.
      rewrite <- E3, Z.div_div, <- Hsplit2 by (try apply pow2_pos; lia).
      eexists. split; [reflexivity |].
      split; [apply Z.div_pos; lia |].
      assert (m2 / 2 ^ a < 101)
        by (apply Z.div_lt_upper_bound; [assumption | nia]).
      lia.
    + lia.
Qed.

(** Every float but a negative finite one: on these [int] and the floor
    agree (or raise alike). *)
Definition not_negative (x : float) : Prop :=
  match x with
  | S754_finite true _ _ => False
  | _ => True
  end.

Lemma le_one_not_negative (x : float) : le_one x -> not_negative x.
Proof. destruct x as [s|s| |[|] m e]; cbn; auto. Qed.

Lemma py_int_floor (x : float) : not_negative x -> py_int x = float_floor x.
Proof. destruct x as [s|s| |[|] m e]; cbn; intros H; [| | | destruct H |]; reflexivity. Qed.

Lemma binary_round_aux_not_negative (m : positive) (e : Z) (l : location) :
  not_negative (binary_round_aux prec emax false (Zpos m) e l).
Proof.
  destruct (binary_round_aux_shape false m e l)
    as [m2 [k [k2 [_ [_ [_ ->]]]]]].
  destruct (m2 / 2 ^ k2); [exact I | | exact I].
  destruct (_ <=? _); exact I.
Qed.

Lemma fmul_not_negative (x : float) :
  not_negative x -> not_negative (fmul x f100).
Proof.
  destruct x as [s|s| |[|] m e]; cbn [not_negative]; intros H;
    try exact I; [destruct H |].
  unfold fmul, f100. cbn [SFmul xorb]. apply binary_round_aux_not_negative.
Qed.

Lemma py_max_not_negative (s : float) (m : positive) (e : Z) :
  not_negative (py_max s (S754_finite false m e)).
Proof.
  unfold py_max, fltb, SFltb.
  destruct s as [sg|sg| |[|] ms es]; cbn [SFcompare]; try exact I.
  all: repeat match goal with
         | |- context [if ?b then _ else _] => destruct b
         | |- context [match ?x with Eq => _ | Lt => _ | Gt => _ end] =>
             destruct x
         end; exact I.
Qed.

Lemma valid_mantissa (s : bool) (m : positive) (e : Z) :
  valid_binary prec emax (S754_finite s m e) = true -> Zpos m < 2 ^ 53.
Proof.
  cbn [valid_binary]. unfold bounded, canonical_mantissa.
  intros H. apply andb_true_iff in H as [H _]. apply Z.eqb_eq in H.
  destruct (digits2_pos_bounds m) as [_ Hm].
  assert (Hd : Zpos (digits2_pos m) <= 53)
    by (unfold fexp, emin, prec, emax in H; lia).
  assert (2 ^ Zpos (digits2_pos m) <= 2 ^ 53)
    by (apply Z.pow_le_mono_r; lia).
  lia.
Qed.

Lemma iter_xO (m d : positive) :
  Zpos (Pos.iter xO m d) = Zpos m * 2 ^ Zpos d.
Proof.
  induction d as [|d IH] using Pos.peano_ind.
  - cbn [Pos.iter]. lia.
  - rewrite Pos.iter_succ, Pos2Z.inj_succ, Z.pow_succ_r by lia.
    replace (Zpos (Pos.iter xO m d)~0) with (2 * Zpos (Pos.iter xO m d)) by lia.
    rewrite IH. ring.
Qed.

Lemma shl_align_spec (mx : positive) (ex ex' : Z) :
  snd (shl_align mx ex ex') = Z.min ex ex'
  /\ Zpos (fst (shl_align mx ex ex')) = Zpos mx * 2 ^ (ex - Z.min ex ex').
Proof.
  unfold shl_align. destruct (ex' - ex) as [|d|d] eqn:E; cbn [fst snd].
  - replace (Z.min ex ex') with ex by lia. rewrite Z.sub_diag. split; lia.
  - replace (Z.min ex ex') with ex by lia. rewrite Z.sub_diag. split; lia.
  - replace (Z.min ex ex') with ex' by lia. split; [reflexivity |].
    rewrite iter_xO. f_equal. f_equal. lia.
Qed.

(** [1 - s] for a positive [s] of exponent at most -53 (so [s < 1]). *)
Lemma fsub_one_small (m : positive) (e : Z) :
  Zpos m < 2 ^ 53 -> e <= -53 -> le_one (fsub f1 (S754_finite false m e)).
Proof.
  intros Hm He. unfold fsub, f1. cbn [SFsub cond_Zopp].
  replace (Z.min (-52) e) with e by lia.
  destruct (shl_align_spec 4503599627370496 (-52) e) as [_ H1].
  destruct (shl_align_spec m e e) as [_ H2].
  rewrite H1, H2.
  replace (Z.min (-52) e) with e by lia.
  replace (Z.min e e) with e by lia.
  rewrite Z.sub_diag, Z.mul_1_r.
  assert (Hp : Zpos 4503599627370496 * 2 ^ (-52 - e) = 2 ^ (- e)).
  { change (Zpos 4503599627370496) with (2 ^ 52).
    rewrite <- pow2_split by lia. f_equal. lia. }
  rewrite Hp.
  assert (Hbig : 2 ^ 53 <= 2 ^ (- e)) by (apply Z.pow_le_mono_r; lia).
  destruct (2 ^ (- e) - Zpos m) as [|d|d] eqn:Ed; [lia | | lia].
  cbn [binary_normalize]. unfold binary_round.
  destruct (shl_align_spec d e (fexp prec emax (Zpos (digits2_pos d) + e)))
    as [H3 H4].
  destruct (shl_align d e _) as [mz ez]. cbn [fst snd] in H3, H4.
  apply binary_round_aux_le_one; [lia |].
  rewrite H4.
  assert (Hez : ez <= e) by lia.
  assert (Hsplit : 2 ^ (- ez) = 2 ^ (- e) * 2 ^ (e - ez)).
  { rewrite <- pow2_split by lia. f_equal. lia. }
  rewrite Hsplit, <- H3.
  assert (0 < 2 ^ (e - ez)) by (apply pow2_pos; lia).
  nia.
Qed.

Lemma fsub_one_negative (m : positive) (e : Z) :
  not_negative (fsub f1 (S754_finite true m e)).
Proof.
  unfold fsub, f1. cbn [SFsub cond_Zopp].
  set (a := fst (shl_align 4503599627370496 (-52) (Z.min (-52) e))).
  set (b := fst (shl_align m e (Z.min (-52) e))).
  replace (Zpos a - - Zpos b) with (Zpos (a + b)) by lia.
  cbn [binary_normalize]. unfold binary_round.
  destruct (shl_align (a + b) _ _) as [mz ez].
  apply binary_round_aux_not_negative.
Qed.

Lemma not_above_0_6 (m : positive) (e : Z) :
  fltb f0_6 (S754_finite false m e) = false -> e <= -53.
Proof.
  unfold fltb, SFltb, f0_6. cbn [SFcompare].
  destruct (Z.compare_spec (-53) e); [lia | discriminate | lia].
Qed.

Lemma fsub_one_not_negative (s : float) :
  valid_binary prec emax s = true -> fltb f0_6 s = false ->
  not_negative (fsub f1 s).
Proof.
  intros Hv Hc. destruct s as [sg|sg| |[|] m e]; try exact I.
  - apply fsub_one_negative.
  - exact (le_one_not_negative _
             (fsub_one_small m e (valid_mantissa _ _ _ Hv)
                (not_above_0_6 _ _ Hc))).
Qed.

(** The code's confidence is the specification's: truncation and floor
    meet on every product the three branches can form. *)
Lemma fuse_fuse_spec (hits : list str) (s : float) :
  valid_binary prec emax s = true ->
  fuse hits s
  = match fuse_spec hits s with
    | Ok (label, n) => Ok (label, percent n)
    | Raise e => Raise e
    end.
Proof.
  intros Hv. unfold fuse, fuse_spec.
  destruct (truthy hits && fltb f0_4 s).
  - rewrite py_int_floor
      by (apply fmul_not_negative, py_max_not_negative).
    destruct (float_floor _); reflexivity.
  - destruct (truthy hits || fltb f0_6 s) eqn:E.
    + rewrite py_int_floor
        by (apply fmul_not_negative, py_max_not_negative).
      destruct (float_floor _); reflexivity.
    + apply orb_false_iff in E as [_ E].
      rewrite py_int_floor
        by (apply fmul_not_negative, fsub_one_not_negative; assumption).
      destruct (float_floor _); reflexivity.
Qed.

Lemma in_unit_le_one (s : float) : in_unit s = true -> le_one s.
Proof.
  unfold in_unit. intros H.
  apply andb_true_iff in H as [H H1]. apply andb_true_iff in H as [Hv H0].
  destruct s as [sg|sg| |[|] m e]; cbn [le_one]; try exact I;
    try discriminate.
  - destruct sg; discriminate.
  - pose proof (valid_mantissa _ _ _ Hv) as Hm.
    unfold SFleb, f1 in H1.
    remember 4503599627370496%positive as one eqn:Hone.
    cbn [SFcompare] in H1.
    destruct (Z.compare_spec e (-52)) as [->|Hlt|Hgt].
    + split; [| lia]. change (2 ^ (- -52)) with 4503599627370496.
      destruct (Pos.compare_spec m one) as [->|Hc|Hc].
      * lia.
      * lia.
      * change (Pos.compare_cont Eq m one) with (Pos.compare m one) in H1.
        rewrite (proj2 (Pos.compare_gt_iff m one) Hc) in H1. discriminate.
    + split; [| lia].
      assert (2 ^ 53 <= 2 ^ (- e)) by (apply Z.pow_le_mono_r; lia). lia.
    + discriminate.
Qed.

Lemma fuse_bounds (hits : list str) (s : float) :
  in_unit s = true ->
  exists label n, fuse hits s = Ok (label, percent n) /\ 0 <= n <= 100.
Proof.
  intros Hu. pose proof (in_unit_le_one s Hu) as Hl.
  assert (Hv : valid_binary prec emax s = true).
  { unfold in_unit in Hu. apply andb_true_iff in Hu as [Hu _].
    now apply andb_true_iff in Hu as [Hu _]. }
  assert (Hmax : forall c, le_one c -> le_one (py_max s c)).
  { intros c Hc. unfold py_max. destruct (fltb s c); assumption. }
  assert (H8 : le_one f0_8) by (cbn; split; [vm_compute; discriminate | lia]).
  assert (H6 : le_one f0_6) by (cbn; split; [vm_compute; discriminate | lia]).
  unfold fuse.
  destruct (truthy hits && fltb f0_4 s).
  - destruct (fmul_100_le_one _ (Hmax _ H8)) as [n [-> Hn]]. eauto.
  - destruct (truthy hits || fltb f0_6 s) eqn:E.
    + destruct (fmul_100_le_one _ (Hmax _ H6)) as [n [-> Hn]]. eauto.
    + apply orb_false_iff in E as [_ E].
      assert (Hy : le_one (fsub f1 s)).
      { destruct s as [sg|sg| |[|] m e]; cbn [le_one] in Hl;
          try contradiction.
        - cbn. split; [vm_compute; discriminate | lia].
        - exact (fsub_one_small m e (valid_mantissa _ _ _ Hv)
                   (not_above_0_6 _ _ E)). }
      destruct (fmul_100_le_one _ Hy) as [n [-> Hn]]. eauto.
Qed.

Lemma py_max_at_most_1 (s c : float) :
  at_most_1 s = true -> le_one c -> le_one (py_max s c).
Proof.
  intros Hs Hc. unfold py_max. destruct (fltb s c) eqn:E; [exact Hc |].
  unfold at_most_1 in Hs. apply andb_true_iff in Hs as [Hv H1].
  destruct s as [sg|sg| |[|] m e].
  - exact I.
  - destruct sg; [| discriminate H1].
    destruct c as [cs|cs| |[|] cm ce]; cbn [le_one] in Hc;
      try contradiction; discriminate E.
  - discriminate H1.
  - destruct c as [cs|cs| |[|] cm ce]; cbn [le_one] in Hc;
      try contradiction; discriminate E.
  - apply in_unit_le_one. unfold in_unit. rewrite Hv, H1. reflexivity.
Qed.

Lemma fuse_bounds_hits (hits : list str) (s : float) :
  truthy hits = true -> at_most_1 s = true ->
  exists label n, fuse hits s = Ok (label, percent n) /\ 0 <= n <= 100.
Proof.
  intros Hh Hs.
  assert (H8 : le_one f0_8) by (cbn; split; [vm_compute; discriminate | lia]).
  assert (H6 : le_one f0_6) by (cbn; split; [vm_compute; discriminate | lia]).
  unfold fuse. rewrite Hh. cbn [andb orb].
  destruct (fltb f0_4 s).
  - destruct (fmul_100_le_one _ (py_max_at_most_1 s _ Hs H8)) as [n [-> Hn]].
    eauto.
  - destruct (fmul_100_le_one _ (py_max_at_most_1 s _ Hs H6)) as [n [-> Hn]].
    eauto.
Qed.

(** ** Rounding to nearest, exactly *)

Lemma locr_half (r n : Z) (b : bool) :
  0 <= n -> 0 <= r < 2 ^ n ->
  locr ((if b then 2 ^ n else 0) + r) (n + 1)
  = match b, r =? 0 with
    | false, true => loc_Exact
    | false, false => loc_Inexact Lt
    | true, true => loc_Inexact Eq
    | true, false => loc_Inexact Gt
    end.
Proof.
  intros Hn Hr. unfold locr.
  rewrite Z.pow_add_r by lia. change (2 ^ 1) with 2.
  assert (Hp : 0 < 2 ^ n) by (apply pow2_pos; lia).
  destruct b; destruct (Z.eqb_spec r 0) as [->|Hne].
  - rewrite Z.add_0_r.
    destruct (Z.eqb_spec (2 ^ n) 0); [lia |].
    f_equal. apply Z.compare_eq_iff. lia.
  - destruct (Z.eqb_spec (2 ^ n + r) 0); [lia |].
    f_equal. apply Z.compare_gt_iff. lia.
  - reflexivity.
  - destruct (Z.eqb_spec (0 + r) 0); [lia |].
    f_equal. apply Z.compare_lt_iff. lia.
Qed.

Lemma loc_sticky (rb sb : bool) (r n : Z) :
  loc_of_shr_record {| shr_m := 0; shr_r := rb; shr_s := sb |} = locr r n ->
  (rb || sb)%bool = negb (r =? 0).
Proof.
  unfold locr. destruct rb, sb, (r =? 0); cbn; intros H;
    first [reflexivity | discriminate H].
Qed.

Lemma shr_1_inv (M n : Z) (rec : shr_record) :
  0 <= n -> shr_inv M n rec -> shr_inv M (n + 1) (shr_1 rec).
Proof.
  intros Hn [r [[HM [Hr Hq]] Hl]].
  destruct rec as [q rb sb]. cbn [shr_m] in HM, Hq.
  assert (Hs : (rb || sb)%bool = negb (r =? 0)).
  { apply (loc_sticky rb sb r n).
    destruct rb, sb; exact Hl. }
  assert (Hp : 0 < 2 ^ n) by (apply pow2_pos; lia).
  assert (Hp1 : 2 ^ (n + 1) = 2 * 2 ^ n)
    by (rewrite Z.pow_add_r by lia; change (2 ^ 1) with 2; ring).
  assert (Hcase : exists (q' : Z) (b : bool),
             shr_1 {| shr_m := q; shr_r := rb; shr_s := sb |}
             = {| shr_m := q'; shr_r := b; shr_s := (rb || sb)%bool |}
             /\ q = 2 * q' + (if b then 1 else 0) /\ 0 <= q').
  { destruct q as [|[p|p|]|p]; cbn [shr_1]; [| | | | lia].
    - exists 0, false. repeat split; lia.
    - exists (Zpos p), true. repeat split; lia.
    - exists (Zpos p), false. repeat split; lia.
    - exists 0, true. repeat split; lia. }
  destruct Hcase as [q' [b [-> [Hqb Hq']]]].
  exists ((if b then 2 ^ n else 0) + r). cbn [shr_m].
  split; [split; [destruct b; nia | split; [destruct b; lia | exact Hq']] |].
  rewrite locr_half by lia. rewrite Hs.
  destruct b, (r =? 0); reflexivity.
Qed.

Lemma iter_shr_1_inv (M : Z) (p : positive) :
  forall n rec, 0 <= n -> shr_inv M n rec ->
                shr_inv M (n + Zpos p) (SpecFloat.iter_pos shr_1 p rec).
Proof.
  induction p as [p IH|p IH|]; intros n rec Hn H; cbn [SpecFloat.iter_pos].
  - replace (n + Zpos p~1) with (n + 1 + Zpos p + Zpos p) by lia.
    apply IH; [lia |]. apply IH; [lia |]. now apply shr_1_inv.
  - replace (n + Zpos p~0) with (n + Zpos p + Zpos p) by lia.
    apply IH; [lia |]. now apply IH.
  - now apply shr_1_inv.
Qed.

Lemma shr_inv_rne (M n : Z) (rec : shr_record) :
  0 <= n -> shr_inv M n rec ->
  shr_m rec = M / 2 ^ n
  /\ round_nearest_even (shr_m rec) (loc_of_shr_record rec) = rne M n.
Proof.
  intros Hn [r [[HM [Hr Hq]] Hl]].
  assert (Hp : 0 < 2 ^ n) by (apply pow2_pos; lia).
  assert (Hd : M / 2 ^ n = shr_m rec)
    by (symmetry; apply Z.div_unique with r; lia).
  assert (Hmod : M mod 2 ^ n = r)
    by (symmetry; apply Z.mod_unique with (shr_m rec); lia).
  split; [now symmetry |].
  rewrite Hl. unfold rne, locr. cbv zeta. rewrite Hmod, Hd.
  destruct (Z.eqb_spec r 0) as [->|Hne].
  - cbn [round_nearest_even].
    destruct (Z.compare_spec (2 * 0) (2 ^ n)); [lia | reflexivity | lia].
  - destruct (2 * r ?= 2 ^ n); reflexivity.
Qed.

(** The first shift of [binary_round_aux] rounds to nearest, ties to
    even. *)
Lemma shr_fexp_nearest (M e : Z) :
  0 <= M ->
  let k := Z.max 0 (fexp prec emax (Zdigits2 M + e) - e) in
  let mrs := fst (shr_fexp prec emax M e loc_Exact) in
  round_nearest_even (shr_m mrs) (loc_of_shr_record mrs) = rne M k
  /\ snd (shr_fexp prec emax M e loc_Exact) = e + k.
Proof.
  intros HM k mrs. subst k mrs. unfold shr_fexp, shr.
  assert (H0 : shr_inv M 0 {| shr_m := M; shr_r := false; shr_s := false |}).
  { exists 0. cbn. repeat split; lia. }
  destruct (fexp prec emax (Zdigits2 M + e) - e) as [|p|p]; cbn [fst snd].
  - split; [| lia]. exact (proj2 (shr_inv_rne M 0 _ ltac:(lia) H0)).
  - split; [| lia].
    pose proof (iter_shr_1_inv M p 0 _ ltac:(lia) H0) as H.
    replace (Z.max 0 (Zpos p)) with (0 + Zpos p) by lia.
    exact (proj2 (shr_inv_rne M (0 + Zpos p) _ ltac:(lia) H)).
  - split; [| lia]. exact (proj2 (shr_inv_rne M 0 _ ltac:(lia) H0)).
Qed.

Lemma binary_round_aux_nearest (sx : bool) (m : positive) (e : Z) :
  let k := Z.max 0 (fexp prec emax (Zdigits2 (Zpos m) + e) - e) in
  let m2 := rne (Zpos m) k in
  let k2 := Z.max 0 (fexp prec emax (Zdigits2 m2 + (e + k)) - (e + k)) in
  binary_round_aux prec emax sx (Zpos m) e loc_Exact
  = match m2 / 2 ^ k2 with
    | Z0 => S754_zero sx
    | Zpos m3 =>
        if e + k + k2 <=? emax - prec
        then S754_finite sx m3 (e + k + k2)
        else S754_infinity sx
    | Zneg _ => S754_nan
    end.
Proof.
  intros k m2 k2. unfold binary_round_aux.
  destruct (shr_fexp_nearest (Zpos m) e ltac:(lia)) as [Hr He].
  destruct (shr_fexp prec emax (Zpos m) e loc_Exact) as [mrs' e'].
  cbn [fst snd] in Hr, He. fold k in Hr, He. rewrite Hr. fold m2.
  assert (Hm2 : 0 <= m2).
  { subst m2. unfold rne. cbv zeta.
    assert (0 <= Zpos m / 2 ^ k) by (apply Z.div_pos; [lia | apply pow2_pos; lia]).
    destruct (_ ?= _); [destruct (Z.even _) | |]; lia. }
  destruct (shr_fexp_m m2 e' loc_Exact Hm2) as [Hm' He'].
  destruct (shr_fexp prec emax m2 e' loc_Exact) as [mrs'' e''].
  cbn [fst snd] in Hm', He'. subst e'. fold k2 in Hm', He'.
  rewrite Hm', He'. reflexivity.
Qed.

(** ** The Legitimate branch at a negative score *)

Lemma Zdigits2_eq (x d : Z) : 0 < d -> 2 ^ (d - 1) <= x < 2 ^ d -> Zdigits2 x = d.
Proof.
  intros Hd [Hlo Hhi].
  assert (0 < 2 ^ (d - 1)) by (apply pow2_pos; lia).
  destruct x as [|p|p]; [lia | | lia]. cbn [Zdigits2].
  destruct (digits2_pos_bounds p) as [Hl Hh].
  set (D := Zpos (digits2_pos p)) in *.
  destruct (Z.lt_trichotomy D d) as [H1|[H1|H1]]; [exfalso | exact H1 | exfalso].
  - assert (2 ^ D <= 2 ^ (d - 1)) by (apply Z.pow_le_mono_r; lia). lia.
  - assert (2 ^ d <= 2 ^ (D - 1)) by (apply Z.pow_le_mono_r; lia). lia.
Qed.

Lemma valid_finite (sg : bool) (m : positive) (e : Z) :
  valid_binary prec emax (S754_finite sg m e) = true ->
  Zpos m < 2 ^ 53 /\ -1074 <= e /\ (-1074 < e -> 2 ^ 52 <= Zpos m).
Proof.
  intros Hv. split; [exact (valid_mantissa _ _ _ Hv) |].
  cbn [valid_binary] in Hv. unfold bounded, canonical_mantissa in Hv.
  apply andb_true_iff in Hv as [Hv _]. apply Z.eqb_eq in Hv.
  unfold fexp, emin, prec, emax in Hv.
  split; [lia |]. intros He.
  assert (Hd : Zpos (digits2_pos m) = 53) by lia.
  destruct (digits2_pos_bounds m) as [Hlo _]. rewrite Hd in Hlo.
  exact Hlo.
Qed.

Lemma neg_leb (mc : positive) (ec : Z) (m : positive) (e : Z) :
  SFleb (S754_finite true mc ec) (S754_finite true m e) = true
  <-> e < ec \/ (e = ec /\ Zpos m <= Zpos mc).
Proof.
  unfold SFleb. cbn [SFcompare].
  destruct (Z.compare_spec ec e) as [->|H|H].
  - change (Pos.compare_cont Eq mc m) with (Pos.compare mc m).
    destruct (Pos.compare_spec mc m) as [->|Hc|Hc]; cbn [CompOpp];
      split; intros H; first [reflexivity | discriminate H | lia].
  - split; [discriminate | lia].
  - split; [lia | reflexivity].
Qed.

Lemma rne_bounds (M k : Z) : M / 2 ^ k <= rne M k <= M / 2 ^ k + 1.
Proof.
  unfold rne. cbv zeta.
  destruct (_ ?= _); [destruct (Z.even _) | |]; lia.
Qed.

(** [1 - s] for a negative [s] above -1: one plus its magnitude, rounded
    to nearest at exponent -52, or the double 2. *)
Lemma fsub_one_neg (m : positive) (e : Z) :
  Zpos m < 2 ^ 53 -> e < -52 ->
  let R := rne (2 ^ (- e) + Zpos m) (-52 - e) in
  2 ^ 52 <= R <= 2 ^ 53
  /\ fsub f1 (S754_finite true m e)
     = if R <? 2 ^ 53 then S754_finite false (Z.to_pos R) (-52) else f2.
Proof.
  intros Hm He R.
  set (k := -52 - e) in *. assert (Hk : 1 <= k) by lia.
  assert (Hpk : 2 <= 2 ^ k).
  { change 2 with (2 ^ 1) at 1. apply Z.pow_le_mono_r; lia. }
  assert (HT : 2 ^ (- e) = 2 ^ 52 * 2 ^ k).
  { rewrite <- pow2_split by lia. f_equal. lia. }
  set (T := 2 ^ (- e) + Zpos m) in *.
  assert (H52 : 0 < 2 ^ 52) by (apply pow2_pos; lia).
  assert (H53 : 2 ^ 53 = 2 * 2 ^ 52) by reflexivity.
  assert (Hq : 2 ^ 52 <= T / 2 ^ k <= 2 ^ 53 - 1).
  { split.
    - apply Z.div_le_lower_bound; [lia | unfold T; nia].
    - assert (T / 2 ^ k < 2 ^ 53); [| lia].
      apply Z.div_lt_upper_bound; [lia | unfold T; nia]. }
  pose proof (rne_bounds T k) as HR. fold R in HR.
  split; [lia |].
  unfold fsub, f1. cbn [SFsub cond_Zopp].
  replace (Z.min (-52) e) with e by lia.
  destruct (shl_align_spec 4503599627370496 (-52) e) as [_ H1].
  destruct (shl_align_spec m e e) as [_ H2].
  set (a := fst (shl_align 4503599627370496 (-52) e)) in *.
  set (b := fst (shl_align m e e)) in *.
  replace (Zpos a - - Zpos b) with (Zpos (a + b)) by lia.
  cbn [binary_normalize]. unfold binary_round.
  assert (Hab : Zpos (a + b) = T).
  { rewrite Pos2Z.inj_add, H1, H2.
    replace (Z.min (-52) e) with e by lia.
    replace (Z.min e e) with e by lia.
    rewrite Z.sub_diag, Z.mul_1_r. unfold T. rewrite HT. f_equal. }
  assert (HdT : Zdigits2 T = 1 - e).
  { apply Zdigits2_eq; [lia |].
    replace (1 - e - 1) with (- e) by lia.
    replace (1 - e) with (1 + - e) by lia.
    rewrite (pow2_split 1 (- e)) by lia. change (2 ^ 1) with 2.
    unfold T. nia. }
  change (Zpos (digits2_pos (a + b))) with (Zdigits2 (Zpos (a + b))).
  rewrite Hab, HdT. replace (1 - e + e) with 1 by lia.
  replace (fexp prec emax 1) with (-52) by reflexivity.
  destruct (shl_align_spec (a + b) e (-52)) as [H3 H4].
  destruct (shl_align (a + b) e (-52)) as [mz ez]. cbn [fst snd] in H3, H4.
  replace (Z.min e (-52)) with e in * by lia. subst ez.
  rewrite Z.sub_diag, Z.mul_1_r, Hab in H4.
  rewrite binary_round_aux_nearest. cbv zeta. rewrite H4, HdT.
  replace (1 - e + e) with 1 by lia.
  replace (fexp prec emax 1) with (-52) by reflexivity.
  replace (Z.max 0 (-52 - e)) with k by (unfold k; lia). fold R.
  replace (e + k) with (-52) by (unfold k; lia).
  destruct (Z.ltb_spec R (2 ^ 53)) as [Hlt|Hge].
  - rewrite (Zdigits2_eq R 53) by (change (2 ^ (53 - 1)) with (2 ^ 52); lia).
    replace (fexp prec emax (53 + -52)) with (-52) by reflexivity.
    change (Z.max 0 (-52 - -52)) with 0. rewrite Z.div_1_r.
    destruct R as [|r|r]; [lia | | lia]. reflexivity.
  - assert (HR53 : R = 2 ^ 53) by lia.
    rewrite HR53. reflexivity.
Qed.

Lemma rne_threshold_le (m : positive) (e : Z) :
  Zpos m < 2 ^ 53 ->
  e < -59 \/ (e = -59 /\ Zpos m <= 5764607523034176) ->
  rne (2 ^ (- e) + Zpos m) (-52 - e) <= MY.
Proof.
  intros Hm [He|[-> Hle]].
  - set (k := -52 - e). assert (Hk : 8 <= k) by (unfold k; lia).
    assert (Hpk : 2 ^ 8 <= 2 ^ k) by (apply Z.pow_le_mono_r; lia).
    assert (HT : 2 ^ (- e) = 2 ^ 52 * 2 ^ k).
    { rewrite <- pow2_split by lia. f_equal. unfold k. lia. }
    pose proof (rne_bounds (2 ^ (- e) + Zpos m) k) as HR.
    assert ((2 ^ (- e) + Zpos m) / 2 ^ k < 2 ^ 52 + 2 ^ 45).
    { apply Z.div_lt_upper_bound; [lia |]. rewrite HT.
      change (2 ^ 53) with (2 ^ 45 * 2 ^ 8) in Hm.
      assert (0 < 2 ^ 45) by reflexivity. nia. }
    unfold MY. change (2 ^ 52 + 2 ^ 45) with 4538783999459328 in *. lia.
  - change (-52 - -59) with 7. change (- -59) with 59.
    unfold rne. cbv zeta.
    change (2 ^ 59) with 576460752303423488. change (2 ^ 7) with 128.
    change (2 ^ 53) with 9007199254740992 in Hm.
    set (M := 576460752303423488 + Zpos m).
    assert (HM : M = 576460752303423488 + Zpos m) by reflexivity.
    clearbody M.
    destruct (Z.compare_spec (2 * (M mod 128)) 128) as [Hc|Hc|Hc].
    + destruct (Z.even (M / 128)) eqn:Ev.
      * unfold MY. Z.div_mod_to_equations. lia.
      * assert (M / 128 <> MY).
        { intros E. rewrite E in Ev. discriminate Ev. }
        unfold MY in *. Z.div_mod_to_equations. lia.
    + unfold MY. Z.div_mod_to_equations. lia.
    + unfold MY. Z.div_mod_to_equations. lia.
Qed.

Lemma rne_threshold_gt (m : positive) (e : Z) :
  e < -52 ->
  (e = -59 /\ 5764607523034176 < Zpos m) \/ (-59 < e /\ 2 ^ 52 <= Zpos m) ->
  MY + 1 <= rne (2 ^ (- e) + Zpos m) (-52 - e).
Proof.
  intros He [[-> Hgt]|[He' Hm]].
  - change (-52 - -59) with 7. change (- -59) with 59.
    unfold rne. cbv zeta.
    change (2 ^ 59) with 576460752303423488. change (2 ^ 7) with 128.
    set (M := 576460752303423488 + Zpos m).
    assert (HM : M = 576460752303423488 + Zpos m) by reflexivity.
    clearbody M. unfold MY.
    destruct (Z.compare_spec (2 * (M mod 128)) 128) as [Hc|Hc|Hc];
      [destruct (Z.even (M / 128)) | |];
      Z.div_mod_to_equations; lia.
  - set (k := -52 - e). assert (Hk : 1 <= k <= 6) by (unfold k; lia).
    assert (Hpk : 2 ^ k <= 2 ^ 6) by (apply Z.pow_le_mono_r; lia).
    assert (Hpk0 : 0 < 2 ^ k) by (apply pow2_pos; lia).
    assert (HT : 2 ^ (- e) = 2 ^ 52 * 2 ^ k).
    { rewrite <- pow2_split by lia. f_equal. unfold k. lia. }
    pose proof (rne_bounds (2 ^ (- e) + Zpos m) k) as HR.
    assert (2 ^ 52 + 2 ^ 46 <= (2 ^ (- e) + Zpos m) / 2 ^ k).
    { apply Z.div_le_lower_bound; [lia |]. rewrite HT.
      change (2 ^ 52) with (2 ^ 46 * 2 ^ 6) in Hm.
      assert (0 < 2 ^ 46) by reflexivity. nia. }
    unfold MY. change (2 ^ 52 + 2 ^ 46) with 4573968371548160 in *. lia.
Qed.

(** A double of exponent -52 times 100, when the product lies in the
    binade of [2^(6+j)]: the truncation stays between the integers that
    bound the product from a whole unit in the last place away. *)
Lemma fmul_100_binade (m : positive) (j a b : Z) :
  j = 0 \/ j = 1 ->
  2 ^ (58 + j) <= 100 * Zpos m ->
  0 <= a -> a * 2 ^ 52 <= 100 * Zpos m ->
  100 * Zpos m + 2 ^ (6 + j) < (b + 1) * 2 ^ 52 ->
  b + 1 <= 2 ^ (7 + j) ->
  exists n,
    py_int (fmul (S754_finite false m (-52)) f100) = Ok n /\ a <= n <= b.
Proof.
  intros Hj Hlo Ha Hal Hup Hb.
  unfold fmul, f100. cbn [SFmul xorb].
  destruct (binary_round_aux_shape false (m * 7036874417766400) (-52 + -46)
              loc_Exact) as [m2 [k [k2 [Hk [Hm2 [Hk2 ->]]]]]].
  rewrite Pos2Z.inj_mul in Hk, Hm2.
  set (P := Zpos m * Zpos 7036874417766400) in *.
  assert (HP : P = 100 * Zpos m * 2 ^ 46) by (unfold P; lia).
  assert (HdP : Zdigits2 P = 105 + j).
  { apply Zdigits2_eq; [lia |].
    destruct Hj as [-> | ->]; cbn in Hlo, Hup, Hb |- *; lia. }
  rewrite HdP in Hk.
  assert (Hk' : k = 52 + j).
  { subst k. destruct Hj as [-> | ->]; reflexivity. }
  clear Hk. subst k.
  assert (Hm2' : 2 ^ 52 <= m2 < 2 ^ 53
                 /\ a * 2 ^ (46 - j) <= m2 < (b + 1) * 2 ^ (46 - j)).
  { destruct Hj as [-> | ->]; cbn in Hlo, Hup, Hb, Hm2 |- *;
      Z.div_mod_to_equations; lia. }
  destruct Hm2' as [Hm2r Hm2ab].
  rewrite (Zdigits2_eq m2 53) in Hk2
    by (change (2 ^ (53 - 1)) with (2 ^ 52); lia).
  assert (Hk2' : k2 = 0).
  { subst k2. destruct Hj as [-> | ->]; reflexivity. }
  clear Hk2. subst k2. change (2 ^ 0) with 1. rewrite Z.div_1_r.
  destruct m2 as [|p2|p2]; [lia | | lia].
  replace (-52 + -46 + (52 + j) + 0 <=? emax - prec) with true
    by (destruct Hj as [-> | ->]; reflexivity).
  cbn [py_int cond_Zopp].
  exists (Z.shiftl (Zpos p2) (-52 + -46 + (52 + j) + 0)).
  split; [reflexivity |].
  rewrite Z.shiftl_div_pow2 by lia.
  replace (- (-52 + -46 + (52 + j) + 0)) with (46 - j) by lia.
  assert (0 < 2 ^ (46 - j)) by (apply pow2_pos; lia).
  split.
  - apply Z.div_le_lower_bound; lia.
  - assert (Zpos p2 / 2 ^ (46 - j) < b + 1); [| lia].
    apply Z.div_lt_upper_bound; lia.
Qed.

(** Without keywords, a negative score from -1 on gives a Legitimate
    verdict at 100% to 200%, and at 100% exactly from [score_threshold]
    on. *)
Lemma fuse_negative_no_hits (m : positive) (e : Z) :
  valid_binary prec emax (S754_finite true m e) = true ->
  SFleb fm1 (S754_finite true m e) = true ->
  exists n,
    fuse [] (S754_finite true m e) = Ok (label_legitimate, percent n)
    /\ 100 <= n <= 200
    /\ (n <= 100 <-> SFleb score_threshold (S754_finite true m e) = true).
Proof.
  intros Hv Hr.
  destruct (valid_finite _ _ _ Hv) as [Hm [He Hn]].
  apply neg_leb in Hr.
  assert (Hpy : fuse [] (S754_finite true m e)
                = match
                    py_int (fmul (fsub f1 (S754_finite true m e)) f100)
                  with
                  | Ok n => Ok (label_legitimate, percent n)
                  | Raise x => Raise x
                  end) by reflexivity.
  rewrite Hpy. clear Hpy.
  destruct (Z.eq_dec e (-52)) as [->|Hne].
  - assert (Zpos m = 2 ^ 52) by lia.
    replace m with 4503599627370496%positive by lia.
    exists 200. split; [vm_compute; reflexivity |].
    split; [lia |]. split; [lia | intros H'; discriminate H'].
  - assert (He52 : e < -52) by lia.
    destruct (fsub_one_neg m e Hm He52) as [HR ->].
    set (R := rne (2 ^ (- e) + Zpos m) (-52 - e)) in *.
    change (2 ^ 52) with 4503599627370496 in HR, Hn.
    change (2 ^ 53) with 9007199254740992 in HR, Hm |- *.
    destruct (SFleb score_threshold (S754_finite true m e)) eqn:Hth.
    + apply neg_leb in Hth.
      pose proof (rne_threshold_le m e Hm Hth) as HY. fold R in HY.
      unfold MY in HY.
      replace (R <? 9007199254740992) with true
        by (symmetry; apply Z.ltb_lt; lia).
      destruct (fmul_100_binade (Z.to_pos R) 0 100 100) as [n [-> Hn100]];
        try rewrite Z2Pos.id by lia; cbn; try lia.
      exists n. split; [reflexivity |]. split; [lia |]. split; [reflexivity | lia].
    + assert (Hth' : (e = -59 /\ 5764607523034176 < Zpos m)
                     \/ (-59 < e /\ 2 ^ 52 <= Zpos m)).
      { destruct (Z.lt_trichotomy e (-59)) as [H|[H|H]].
        - exfalso. assert (SFleb score_threshold (S754_finite true m e) = true)
            by (apply neg_leb; lia). congruence.
        - left. split; [exact H |].
          destruct (Z_lt_le_dec 5764607523034176 (Zpos m)); [assumption |].
          exfalso. assert (SFleb score_threshold (S754_finite true m e) = true)
            by (apply neg_leb; lia). congruence.
        - right. split; [exact H |]. apply Hn. lia. }
      pose proof (rne_threshold_gt m e He52 Hth') as HY. fold R in HY.
      unfold MY in HY.
      assert (Hiff : forall n, 101 <= n -> n <= 100 <-> false = true)
        by (intros n Hn'; split; [lia | discriminate]).
      destruct (Z.ltb_spec R 9007199254740992) as [Hlt|Hge].
      * destruct (Z_lt_le_dec (100 * R) (2 ^ 59)) as [H59|H59].
        -- destruct (fmul_100_binade (Z.to_pos R) 0 101 127)
             as [n [-> Hn']];
             try rewrite Z2Pos.id by lia; cbn in H59 |- *; try lia.
           exists n. split; [reflexivity |]. split; [lia |].
           apply Hiff. lia.
        -- destruct (fmul_100_binade (Z.to_pos R) 1 128 200)
             as [n [-> Hn']];
             try rewrite Z2Pos.id by lia; cbn in H59 |- *; try lia.
           exists n. split; [reflexivity |]. split; [lia |].
           apply Hiff. lia.
      * exists 200. split; [vm_compute; reflexivity |]. split; [lia |].
        apply Hiff. lia.
Qed.

Lemma score_threshold_tight :
  fuse [] score_threshold = Ok (label_legitimate, u "100%")
  /\ fuse [] (S754_finite true 5764607523034177 (-59))
     = Ok (label_legitimate, u "101%").
Proof. split; vm_compute; reflexivity. Qed.

Lemma fuse_cosine_range (hits : list str) (s : float) :
  in_cosine_range s = true ->
  exists label n,
    fuse hits s = Ok (label, percent n)
    /\ 0 <= n <= 200
    /\ (n <= 100 <-> hits <> [] \/ SFleb score_threshold s = true).
Proof.
  unfold in_cosine_range. intros H.
  apply andb_true_iff in H as [H H1]. apply andb_true_iff in H as [Hv Hm1].
  assert (Hunit : SFleb f0 s = true ->
                  SFleb score_threshold s = true ->
                  exists label n,
                    fuse hits s = Ok (label, percent n)
                    /\ 0 <= n <= 200
                    /\ (n <= 100 <-> hits <> [] \/ SFleb score_threshold s = true)).
  { intros H0 Hth.
    destruct (fuse_bounds hits s) as [label [n [E Hn]]].
    { unfold in_unit. rewrite Hv, H0, H1. reflexivity. }
    exists label, n. split; [exact E |]. split; [lia |].
    split; [intros _; now right | lia]. }
  destruct s as [sg|sg| |[|] m e].
  - apply Hunit; destruct sg; reflexivity.
  - destruct sg; discriminate.
  - discriminate.
  - destruct hits as [|k hits].
    + destruct (fuse_negative_no_hits m e Hv Hm1) as [n [E [Hn Hiff]]].
      exists label_legitimate, n. split; [exact E |]. split; [lia |].
      rewrite Hiff. split; [intros Ht; now right |].
      intros [Hc|Ht]; [contradiction | exact Ht].
    + destruct (fuse_bounds_hits (k :: hits) (S754_finite true m e))
        as [label [n [E Hn]]]; [reflexivity | |].
      { unfold at_most_1. rewrite Hv, H1. reflexivity. }
      exists label, n. split; [exact E |]. split; [lia |].
      split; [intros _; left; discriminate | lia].
  - apply Hunit; reflexivity.
Qed.

(** ** The fusion step inside the analyzer *)

Section AnalyzerNumbers.

Variable tld_extract : str -> option ExtractResult.
Variable SAFE_DOMAINS : gset str.
Variable tensor : Type.
Variable encode : str -> option tensor.
Variable cos_sim : tensor -> tensor -> option float.

#[local] Abbreviation analyze :=
  (analyze_email tld_extract SAFE_DOMAINS encode cos_sim).
#[local] Abbreviation score_of := (cosine_score_of encode cos_sim).
#[local] Abbreviation short := (short_circuits tld_extract SAFE_DOMAINS).
#[local] Abbreviation explain := (explanation_of tld_extract SAFE_DOMAINS).

Lemma score_of_in_unit (c : cache tensor) (t : str) (urls : list str) :
  (forall a b x, cos_sim a b = Some x -> in_unit x = true) ->
  in_unit (snd (score_of c t urls)) = true.
Proof.
  intros H. unfold cosine_score_of.
  destruct (encode_cached encode c t) as [c1 [e|]]; [| reflexivity].
  destruct (encode_cached encode c1 _) as [c2 [o|]]; [| reflexivity].
  destruct (cos_sim e o) as [x|] eqn:E; [| reflexivity].
  exact (H _ _ _ E).
Qed.

(** C4: in the fusion step the confidence is the floor of
    [max(score, 0.8) * 100] under the Phishing condition (a keyword hit and
    a score above 0.4), of [max(score, 0.6) * 100] under the Suspicious
    condition (a hit or a score above 0.6), and of [(1 - score) * 100]
    otherwise, printed as an integer and a percent sign; where that
    product is a NaN or an infinity the conversion raises. *)
Theorem analyze_email_confidence (c : cache tensor) (email : pyobj)
    (s : float) :
  let t := clean_text email in
  truthy t = true -> short t = false ->
  snd (score_of c t (extract_urls t)) = s ->
  valid_binary prec emax s = true ->
  snd (analyze c email)
  = match fuse_spec (keyword_hits t) s with
    | Ok (label, n) => Ok (label, str_of_Z n ++ u "%", explain t s)
    | Raise e => Raise e
    end.
Proof.
  intros t Ht Hsh Hs Hv.
  rewrite analyze_fusion by assumption. cbn [snd]. fold t. rewrite Hs.
  rewrite (fuse_fuse_spec _ _ Hv).
  destruct (fuse_spec (keyword_hits t) s) as [[label n]|e]; reflexivity.
Qed.

(** C8, amended: for a message whose own score lies between -1 and 1 the
    verdict carries a confidence that is an integer from 0 to 200 followed
    by a percent sign, and the analyzer raises nothing; the integer is at
    most 100 exactly when the message is empty, or whitelisted, or holds a
    keyword, or has a score no lower than [score_threshold]. *)
Theorem analyze_email_confidence_range (c : cache tensor) (email : pyobj) :
  let t := clean_text email in
  let s := snd (score_of c t (extract_urls t)) in
  (truthy t = true -> short t = false -> in_cosine_range s = true) ->
  exists label n explanation,
    snd (analyze c email) = Ok (label, str_of_Z n ++ u "%", explanation)
    /\ 0 <= n <= 200
    /\ (n <= 100 <->
        truthy t = false \/ short t = true
        \/ keyword_hits t <> [] \/ SFleb score_threshold s = true).
Proof.
  intros t s H. subst t s. destruct (truthy (clean_text email)) eqn:Ht.
  - destruct (short (clean_text email)) eqn:Hsh.
    + rewrite analyze_short by assumption.
      eexists _, 99, _. split; [reflexivity |]. split; [lia |].
      split; [intros _; right; now left | lia].
    + rewrite analyze_fusion by assumption. cbn [snd].
      destruct (fuse_cosine_range (keyword_hits (clean_text email)) _
                  (H eq_refl eq_refl)) as [label [n [-> [Hn Hiff]]]].
      eexists _, n, _. split; [reflexivity |]. split; [exact Hn |].
      rewrite Hiff. split; [intros Hc; right; right; exact Hc |].
      intros [Hc|[Hc|Hc]]; [discriminate Hc | discriminate Hc | exact Hc].
  - rewrite analyze_empty by assumption.
    eexists _, 0, _. split; [reflexivity |]. split; [lia |].
    split; [intros _; now left | lia].
Qed.

End AnalyzerNumbers.

(** ** The properties on concrete messages *)

Lemma percent_150 (n : Z) : 0 <= n <= 100 -> percent n <> u "150%".
Proof.
  intros Hn.
  assert (Hall : forallb (fun k => negb (str_eqb (percent (Z.of_nat k))
                                           (u "150%")))
                   (seq 0 101) = true) by (vm_compute; reflexivity).
  rewrite forallb_forall in Hall.
  specialize (Hall (Z.to_nat n)).
  rewrite Z2Nat.id in Hall by lia.
  intros E. rewrite E, str_eqb_refl in Hall.
  assert (In (Z.to_nat n) (seq 0 101)) by (apply in_seq; lia).
  specialize (Hall ltac:(assumption)). discriminate.
Qed.

(** C8, as stated: with a score of -0.5, inside the range the claim
    names, and no keyword hit, the Legitimate branch prints "150%": no
    integer from 0 to 100. *)
Lemma analyze_email_confidence_150 :
  ~ exists label n explanation,
      snd (analyze_email tld_demo safe_demo encode_demo cos_demo []
             (PyStr (u "hello http://example.org/abc")))
      = Ok (label, percent n, explanation)
      /\ 0 <= n <= 100.
Proof.
  intros [label [n [explanation [H Hn]]]].
  apply (percent_150 n Hn).
  match type of H with
  | snd ?a = _ =>
      let v := eval vm_compute in (snd a) in
      assert (E : snd a = v) by (vm_compute; reflexivity)
  end.
  rewrite E in H. injection H as _ H _.
  rewrite <- H. vm_compute. reflexivity.
Qed.

(** The short-circuit on a message full of keywords whose only URL resolves
    to gmail.com. *)
Lemma analyze_email_whitelisted_witness :
  analyze_email tld_demo safe_demo encode_demo cos_demo []
    (PyStr (u "URGENT: verify your password at https://mail.gmail.com/inbox"))
  = ([], Ok ([9989%N] ++ u " Safe Email", u "99%",
             u "All domains are whitelisted: "
             ++ join (u ", ")
                  (List.map (get_registered_domain tld_demo)
                     (extract_urls
                        (clean_text
                           (PyStr (u "URGENT: verify your password at https://mail.gmail.com/inbox"))))))).
Proof.
  apply (analyze_email_whitelisted tld_demo safe_demo str encode_demo
           cos_demo []).
  - vm_compute. discriminate.
  - intros url Hin. vm_compute in Hin. destruct Hin as [<-|[]].
    apply (bool_decide_eq_true_1 _). vm_compute. reflexivity.
Defined.

(** A message without URLs that holds "verify" and "account". *)
Lemma analyze_email_no_urls_witness :
  exists label,
    snd (analyze_email tld_demo safe_demo encode_demo cos_demo []
           (PyStr (u "Please verify your account")))
    = Ok (label, u "100%",
          explanation_of tld_demo safe_demo
            (clean_text (PyStr (u "Please verify your account"))) f1)
    /\ label = label_phishing.
Proof.
  destruct (analyze_email_no_urls tld_demo safe_demo str encode_demo cos_demo
              [] (PyStr (u "Please verify your account")))
    as [label [H [_ [Hp _]]]].
  - vm_compute. discriminate.
  - vm_compute. reflexivity.
  - vm_compute. discriminate.
  - intros v. unfold cos_demo. rewrite str_eqb_refl. reflexivity.
  - exists label. split; [exact H |]. apply Hp.
    exists (u "verify"). split.
    + right. left. reflexivity.
    + apply str_in_spec. vm_compute. reflexivity.
Defined.

(** Both boundaries: a score of exactly 0.4 with hits, and of exactly 0.6
    without. *)
Lemma analyze_email_thresholds_witness :
  snd (analyze_email tld_demo safe_demo encode_demo cos_demo []
         (PyStr (u "click http://evil-bank-login.xyz/a now to verify")))
  = Ok (label_suspicious, u "60%",
        explanation_of tld_demo safe_demo
          (clean_text
             (PyStr (u "click http://evil-bank-login.xyz/a now to verify")))
          f0_4)
  /\ snd (analyze_email tld_demo safe_demo encode_demo cos_demo []
            (PyStr (u "hello http://example.org/ab")))
     = Ok (label_legitimate, u "40%",
           explanation_of tld_demo safe_demo
             (clean_text (PyStr (u "hello http://example.org/ab"))) f0_6).
Proof.
  split.
  - apply (proj1 (analyze_email_thresholds tld_demo safe_demo str encode_demo
                    cos_demo)).
    + vm_compute. reflexivity.
    + vm_compute. reflexivity.
    + vm_compute. discriminate.
    + vm_compute. reflexivity.
  - apply (proj2 (analyze_email_thresholds tld_demo safe_demo str encode_demo
                    cos_demo)).
    + vm_compute. reflexivity.
    + vm_compute. reflexivity.
    + vm_compute. reflexivity.
    + vm_compute. reflexivity.
Defined.

(** The encoder raises on this text; the verdict is still there. *)
Lemma analyze_email_scoring_raises_witness :
  exists v,
    snd (analyze_email tld_demo safe_demo encode_demo cos_demo []
           (PyStr (u "crash report")))
    = Ok v
    /\ v = (label_legitimate, u "100%",
            explanation_of tld_demo safe_demo
              (clean_text (PyStr (u "crash report"))) f0).
Proof.
  destruct (analyze_email_scoring_raises tld_demo safe_demo str encode_demo
              cos_demo [] (PyStr (u "crash report")))
    as [_ [v [Hv Hf]]].
  - vm_compute. exact I.
  - exists v. split; [exact Hv |].
    rewrite Hf; [| vm_compute; reflexivity | vm_compute; reflexivity].
    reflexivity.
Defined.

(** The message of the specification, at a score of -0.5. *)
Lemma analyze_email_confidence_witness :
  snd (analyze_email tld_demo safe_demo encode_demo cos_demo []
         (PyStr (u "click http://evil-bank-login.xyz now to verify your account")))
  = match
      fuse_spec
        (keyword_hits
           (clean_text
              (PyStr (u "click http://evil-bank-login.xyz now to verify your account"))))
        (float_lit (-1) 2)
    with
    | Ok (label, n) =>
        Ok (label, str_of_Z n ++ u "%",
            explanation_of tld_demo safe_demo
              (clean_text
                 (PyStr (u "click http://evil-bank-login.xyz now to verify your account")))
              (float_lit (-1) 2))
    | Raise e => Raise e
    end.
Proof.
  apply (analyze_email_confidence tld_demo safe_demo str encode_demo cos_demo
           []).
  - vm_compute. reflexivity.
  - vm_compute. reflexivity.
  - vm_compute. reflexivity.
  - vm_compute. reflexivity.
Defined.

(** A message with keywords at a score of -0.5: 60%. *)
Lemma analyze_email_confidence_range_witness :
  exists label n explanation,
    snd (analyze_email tld_demo safe_demo encode_demo cos_demo []
           (PyStr (u "click http://evil-bank-login.xyz now to verify your account")))
    = Ok (label, str_of_Z n ++ u "%", explanation)
    /\ 0 <= n <= 200
    /\ (n <= 100 <->
        truthy (clean_text
                  (PyStr (u "click http://evil-bank-login.xyz now to verify your account")))
        = false
        \/ short_circuits tld_demo safe_demo
             (clean_text
                (PyStr (u "click http://evil-bank-login.xyz now to verify your account")))
           = true
        \/ keyword_hits
             (clean_text
                (PyStr (u "click http://evil-bank-login.xyz now to verify your account")))
           <> []
        \/ SFleb score_threshold
             (snd (cosine_score_of encode_demo cos_demo []
                     (clean_text
                        (PyStr (u "click http://evil-bank-login.xyz now to verify your account")))
                     (extract_urls
                        (clean_text
                           (PyStr (u "click http://evil-bank-login.xyz now to verify your account"))))))
           = true).
Proof.
  apply (analyze_email_confidence_range tld_demo safe_demo str encode_demo
           cos_demo []).
  intros _ _. vm_compute. reflexivity.
Defined.

(** * Further properties of the code *)

(** ** [clean_text] *)

#[local] Open Scope N_scope.

Lemma Forall_lstrip_by (P : N -> Prop) (p : N -> bool) (s : str) :
  Forall P s -> Forall P (lstrip_by p s).
Proof.
  induction 1 as [|c s Hc Hs IH]; simpl; [constructor |].
  destruct (p c); [exact IH | now constructor].
Qed.

Lemma Forall_rstrip_by (P : N -> Prop) (p : N -> bool) (s : str) :
  Forall P s -> Forall P (rstrip_by p s).
Proof.
  intros H. unfold rstrip_by.
  apply Forall_rev, Forall_lstrip_by, Forall_rev. exact H.
Qed.

Lemma lstrip_by_sublist (p : N -> bool) (s : str) : sublist (lstrip_by p s) s.
Proof.
  induction s as [|c s IH]; simpl; [constructor |].
  destruct (p c); [now constructor | reflexivity].
Qed.

Lemma sublist_rev_both {A : Type} (l k : list A) :
  sublist l k -> sublist (rev l) (rev k).
Proof.
  induction 1 as [|x l k H IH|x l k H IH]; simpl.
  - constructor.
  - apply sublist_app; [exact IH | reflexivity].
  - etransitivity; [exact IH |]. apply sublist_inserts_r. reflexivity.
Qed.

Lemma rstrip_by_sublist (p : N -> bool) (s : str) : sublist (rstrip_by p s) s.
Proof.
  unfold rstrip_by. rewrite <- (rev_involutive s) at 2.
  apply sublist_rev_both, lstrip_by_sublist.
Qed.

Lemma sublist_map {A B : Type} (f : A -> B) (l k : list A) :
  sublist l k -> sublist (List.map f l) (List.map f k).
Proof. induction 1; simpl; now constructor. Qed.

Lemma sub_tags_sublist (n : nat) (s : str) : sublist (sub_tags n s) s.
Proof.
  revert n. induction s as [|c s IH]; intros n; simpl; [constructor |].
  destruct n as [|n]; [| constructor; apply IH].
  destruct (c =? 60).
  - destruct (tag_len s); constructor; apply IH.
  - constructor. apply IH.
Qed.

Lemma rstrip_by_snoc (p : N -> bool) (s : str) (c : N) :
  rstrip_by p (s ++ [c]) = if p c then rstrip_by p s else s ++ [c].
Proof.
  unfold rstrip_by. rewrite rev_unit. simpl.
  destruct (p c); [reflexivity |].
  simpl. now rewrite rev_involutive.
Qed.

Lemma rstrip_by_cons (p : N -> bool) (c : N) (s : str) :
  p c = false -> rstrip_by p (c :: s) = c :: rstrip_by p s.
Proof.
  intros Hc. induction s as [|d s IH] using rev_ind.
  - unfold rstrip_by. simpl. now rewrite Hc.
  - change (c :: s ++ [d]) with ((c :: s) ++ [d]).
    rewrite !rstrip_by_snoc. destruct (p d); [exact IH | reflexivity].
Qed.

Lemma rstrip_by_last (p : N -> bool) (s pre : str) (c : N) :
  rstrip_by p s = pre ++ [c] -> p c = false.
Proof.
  induction s as [|d s IH] using rev_ind.
  - unfold rstrip_by. simpl. intros H. now destruct pre.
  - rewrite rstrip_by_snoc. destruct (p d) eqn:Hd; [exact IH |].
    intros H. apply app_inj_tail in H as [_ <-]. exact Hd.
Qed.

Lemma rstrip_by_idem (p : N -> bool) (s : str) :
  rstrip_by p (rstrip_by p s) = rstrip_by p s.
Proof.
  destruct (rstrip_by p s) as [|d r] eqn:E using rev_ind; [reflexivity |].
  clear IHr. rewrite rstrip_by_snoc.
  now rewrite (rstrip_by_last p s r d E).
Qed.

Lemma lstrip_by_head (p : N -> bool) (s rest : str) (c : N) :
  lstrip_by p s = c :: rest -> p c = false.
Proof.
  induction s as [|d s IH]; simpl; [discriminate |].
  destruct (p d) eqn:Hd; [exact IH |]. intros [= <- _]. exact Hd.
Qed.

Lemma strip_head (s rest : str) (c : N) :
  strip s = c :: rest -> is_space c = false.
Proof.
  unfold strip. destruct (lstrip_by is_space s) as [|d r] eqn:E.
  - unfold rstrip_by. simpl. discriminate.
  - pose proof (lstrip_by_head _ _ _ _ E) as Hd.
    rewrite rstrip_by_cons by exact Hd. intros [= <- _]. exact Hd.
Qed.

Lemma strip_idem (s : str) : strip (strip s) = strip s.
Proof.
  unfold strip at 1.
  destruct (strip s) as [|c r] eqn:E; [reflexivity |].
  pose proof (strip_head _ _ _ E) as Hc.
  cbn [lstrip_by]. rewrite Hc, <- E. unfold strip. apply rstrip_by_idem.
Qed.

Lemma lower_cp_clean (c : N) :
  allowed_char c = true -> clean_char (lower_cp c) = true.
Proof.
  unfold allowed_char, clean_char, lower_cp.
  destruct (is_upper_az c) eqn:Hu.
  - intros _. unfold is_upper_az in Hu. apply andb_true_iff in Hu as [H1 H2].
    apply N.leb_le in H1, H2.
    assert (Hl : is_lower_az (c + 32) = true).
    { unfold is_lower_az. apply andb_true_iff. split; apply N.leb_le; lia. }
    now rewrite Hl.
  - rewrite orb_false_r. auto.
Qed.

Lemma clean_char_fixed (c : N) :
  clean_char c = true ->
  allowed_char c = true /\ lower_cp c = c /\ c <> 60 /\ c <> 62.
Proof.
  unfold clean_char, allowed_char, lower_cp. intros H.
  assert (Hu : is_upper_az c = false).
  { unfold is_upper_az. apply andb_false_iff.
    unfold is_lower_az, is_digit_09, is_space in H.
    repeat (apply orb_true_iff in H as [H|H]);
      repeat match goal with
        | H : (_ && _) = true |- _ => apply andb_true_iff in H as [? ?]
        | H : (_ <=? _) = true |- _ => apply N.leb_le in H
        | H : (_ =? _) = true |- _ => apply N.eqb_eq in H
        end;
      try (right; apply N.leb_gt; lia); left; apply N.leb_gt; lia. }
  rewrite Hu, orb_false_r. split; [exact H |]. split; [reflexivity |].
  unfold is_lower_az, is_digit_09, is_space in H.
  split; intros ->; vm_compute in H; discriminate.
Qed.

Lemma Forall_sublist {A : Type} (P : A -> Prop) (l k : list A) :
  sublist l k -> Forall P k -> Forall P l.
Proof.
  induction 1 as [|x l k H IH|x l k H IH]; intros Hk.
  - constructor.
  - inversion Hk; subst. constructor; auto.
  - inversion Hk; subst. auto.
Qed.

Lemma strip_sublist (s : str) : sublist (strip s) s.
Proof.
  unfold strip. etransitivity; [apply rstrip_by_sublist | apply lstrip_by_sublist].
Qed.

Lemma clean_text_Forall (x : pyobj) :
  Forall (fun c => clean_char c = true) (clean_text x).
Proof.
  destruct x as [|z|b|s]; try constructor.
  unfold clean_text.
  apply (Forall_sublist _ _ _ (strip_sublist _)).
  unfold lower. apply Forall_map.
  induction (sub_tags 0 s) as [|c r IH]; simpl; [constructor |].
  destruct (allowed_char c) eqn:Hc; [| exact IH].
  constructor; [now apply lower_cp_clean | exact IH].
Qed.

(** X1.  Whatever the input, the cleaned text holds only lower-case ASCII
    letters, ASCII digits, white space and the marks [: / . _ -]; so it
    never holds an upper-case letter, an angle bracket, a quote or any
    other symbol. *)
Theorem clean_text_alphabet (x : pyobj) (c : N) :
  In c (clean_text x) ->
  clean_char c = true
  /\ is_upper_az c = false /\ c <> 60 /\ c <> 62 /\ c <> 34 /\ c <> 39.
Proof.
  intros Hin.
  pose proof (proj1 (List.Forall_forall _ _) (clean_text_Forall x) c Hin) as Hc.
  split; [exact Hc |].
  destruct (clean_char_fixed c Hc) as [_ [Hl [H60 H62]]].
  split.
  - unfold lower_cp in Hl. destruct (is_upper_az c); [lia | reflexivity].
  - repeat split; try assumption; intros ->; vm_compute in Hc; discriminate.
Qed.

Lemma clean_text_strip_id (x : pyobj) : strip (clean_text x) = clean_text x.
Proof.
  destruct x as [|z|b|s]; try reflexivity. unfold clean_text. apply strip_idem.
Qed.

(** X2.  The cleaned text has no white space at either end, and stripping
    it again changes nothing. *)
Theorem clean_text_stripped (x : pyobj) :
  strip (clean_text x) = clean_text x
  /\ (forall c rest, clean_text x = c :: rest -> is_space c = false)
  /\ (forall c pre, clean_text x = pre ++ [c] -> is_space c = false).
Proof.
  destruct x as [|z|b|s];
    try (split; [reflexivity |]; split; intros c r H;
         [discriminate | now destruct r]).
  unfold clean_text. split; [apply strip_idem |]. split.
  - intros c rest. apply strip_head.
  - intros c pre. unfold strip. apply rstrip_by_last.
Qed.

Lemma sub_tags_no_lt (s : str) :
  Forall (fun c => c <> 60) s -> sub_tags 0 s = s.
Proof.
  induction 1 as [|c s Hc _ IH]; simpl; [reflexivity |].
  destruct (N.eqb_spec c 60); [contradiction | now rewrite IH].
Qed.

Lemma filter_keep_all {A : Type} (f : A -> bool) (l : list A) :
  Forall (fun x => f x = true) l -> List.filter f l = l.
Proof.
  induction 1 as [|a l Ha _ IH]; simpl; [reflexivity |].
  now rewrite Ha, IH.
Qed.

Lemma lower_fixed (s : str) :
  Forall (fun c => lower_cp c = c) s -> lower s = s.
Proof.
  unfold lower. induction 1 as [|c s Hc _ IH]; simpl; [reflexivity |].
  now rewrite Hc, IH.
Qed.

(** X3.  Cleaning is idempotent: a cleaned text is its own cleaning. *)
Theorem clean_text_idempotent (x : pyobj) :
  clean_text (PyStr (clean_text x)) = clean_text x.
Proof.
  pose proof (clean_text_Forall x) as H.
  pose proof (clean_text_strip_id x) as Hs.
  set (y := clean_text x) in *.
  unfold clean_text at 1.
  rewrite sub_tags_no_lt, filter_keep_all, lower_fixed; [exact Hs | | |].
  - eapply List.Forall_impl; [| exact H]. intros c Hc. now apply clean_char_fixed.
  - eapply List.Forall_impl; [| exact H]. intros c Hc. now apply clean_char_fixed.
  - eapply List.Forall_impl; [| exact H]. intros c Hc. now apply clean_char_fixed.
Qed.

(** X4.  Cleaning only deletes and lower-cases: the cleaned text is a
    subsequence of the lower-cased input, so it is never longer than the
    input. *)
Theorem clean_text_subsequence (s : str) :
  sublist (clean_text (PyStr s)) (lower s)
  /\ (length (clean_text (PyStr s)) <= length s)%nat.
Proof.
  assert (H : sublist (clean_text (PyStr s)) (lower s)).
  { unfold clean_text. etransitivity; [apply strip_sublist |].
    unfold lower. apply sublist_map.
    etransitivity; [apply filter_sublist | apply sub_tags_sublist]. }
  split; [exact H |].
  apply sublist_length in H. unfold lower in H.
  now rewrite length_map in H.
Qed.

Lemma lstrip_by_all (p : N -> bool) (s : str) :
  Forall (fun c => p c = true) s -> lstrip_by p s = [].
Proof.
  induction 1 as [|c s Hc _ IH]; simpl; [reflexivity |]. now rewrite Hc.
Qed.

(** A text with nothing but white space and code points outside the
    allowed class cleans to the empty string. *)
Lemma clean_text_nothing_kept (s : str) :
  Forall (fun c => allowed_char c = false \/ is_space c = true) s ->
  clean_text (PyStr s) = [].
Proof.
  intros H. unfold clean_text, strip.
  rewrite lstrip_by_all; [reflexivity |].
  unfold lower. apply Forall_map.
  assert (H1 : Forall (fun c => allowed_char c = false \/ is_space c = true)
                 (sub_tags 0 s))
    by (exact (Forall_sublist _ _ _ (sub_tags_sublist 0 s) H)).
  induction H1 as [|c r Hc _ IH]; simpl; [constructor |].
  destruct (allowed_char c) eqn:Ha; [| exact IH].
  constructor; [| exact IH].
  destruct Hc as [Hc|Hc]; [discriminate |].
  unfold lower_cp.
  destruct (is_upper_az c) eqn:Hu; [| exact Hc].
  exfalso. unfold is_upper_az in Hu. apply andb_true_iff in Hu as [H1 H2].
  apply N.leb_le in H1, H2. unfold is_space in Hc.
  repeat (apply orb_true_iff in Hc as [Hc|Hc]);
    repeat match goal with
      | H : (_ && _) = true |- _ => apply andb_true_iff in H as [? ?]
      | H : (_ <=? _) = true |- _ => apply N.leb_le in H
      | H : (_ =? _) = true |- _ => apply N.eqb_eq in H
      end; lia.
Qed.

(** ** [extract_urls] *)

Lemma run_len_spec (p : N -> bool) (s : str) :
  (run_len p s <= length s)%nat
  /\ Forall (fun c => p c = true) (firstn (run_len p s) s).
Proof.
  induction s as [|c s [IH1 IH2]]; simpl; [split; [lia | constructor] |].
  destruct (p c) eqn:Hc; simpl; [| split; [lia | constructor]].
  split; [lia | now constructor].
Qed.

Lemma ci_url_char (lo c : N) :
  ci lo c = true -> 65 <= lo - 32 -> lo <= 122 -> url_char c = true.
Proof.
  unfold ci. intros H Hlo Hhi.
  assert (Hc : 65 <= c <= 122 \/ c = 383).
  { repeat (apply orb_true_iff in H as [H|H]).
    - apply N.eqb_eq in H. lia.
    - apply N.eqb_eq in H. lia.
    - apply andb_true_iff in H as [_ H]. apply N.eqb_eq in H. now right. }
  unfold url_char, is_space. apply negb_true_iff.
  repeat (apply orb_false_iff; split);
    try (apply N.eqb_neq; lia);
    apply andb_false_iff;
    try (right; apply N.leb_gt; lia); left; apply N.leb_gt; lia.
Qed.

(** What may follow "http" in a match: the separator, or an s and the
    separator. *)
Lemma scheme_tail_spec (r : str) (h : nat) :
  match r with
  | s' :: 58 :: 47 :: 47 :: _ => if ci 115 s' then Some 8%nat else None
  | 58 :: 47 :: 47 :: _ => Some 7%nat
  | _ => None
  end = Some h ->
  (h = 7%nat /\ exists rest, r = 58 :: 47 :: 47 :: rest)
  \/ (h = 8%nat /\ exists e rest,
         r = e :: 58 :: 47 :: 47 :: rest /\ ci 115 e = true).
Proof.
  intros H.
  repeat match type of H with
    | (if ?b then _ else _) = _ => destruct b eqn:?; try discriminate H
    | match ?x with _ => _ end = _ => destruct x; try discriminate H
    end.
  all: injection H as <-.
  all: first
         [ left; split; [reflexivity | eexists; reflexivity]
         | right; split; [reflexivity |];
           eexists _, _; split; [reflexivity | assumption] ].
Qed.

(** The literal head of a match: its length, and what it is made of. *)
Lemma url_head_spec (s : str) (h : nat) :
  url_head s = Some h ->
  (4 <= h <= 8)%nat /\ (h <= length s)%nat
  /\ Forall (fun c => url_char c = true) (firstn h s)
  /\ ((exists a b c d rest,
          s = a :: b :: c :: d :: rest
          /\ ci 104 a && ci 116 b && ci 116 c && ci 112 d = true
          /\ ((h = 7%nat /\ exists rest', rest = 58 :: 47 :: 47 :: rest')
              \/ (h = 8%nat /\ exists e rest',
                     rest = e :: 58 :: 47 :: 47 :: rest'
                     /\ ci 115 e = true)))
      \/ (h = 4%nat /\ exists a b c rest,
             s = a :: b :: c :: 46 :: rest
             /\ ci 119 a && ci 119 b && ci 119 c = true)).
Proof.
  unfold url_head.
  destruct s as [|a [|b [|c [|d rest]]]]; try discriminate.
  destruct (ci 104 a && ci 116 b && ci 116 c && ci 112 d) eqn:Hh.
  - pose proof Hh as Hh'.
    apply andb_true_iff in Hh' as [Hh' Hd].
    apply andb_true_iff in Hh' as [Hh' Hc].
    apply andb_true_iff in Hh' as [Ha Hb].
    assert (Ua : url_char a = true)
      by (eapply ci_url_char; [eassumption | lia | lia]).
    assert (Ub : url_char b = true)
      by (eapply ci_url_char; [eassumption | lia | lia]).
    assert (Uc : url_char c = true)
      by (eapply ci_url_char; [eassumption | lia | lia]).
    assert (Ud : url_char d = true)
      by (eapply ci_url_char; [eassumption | lia | lia]).
    intros H. apply scheme_tail_spec in H.
    destruct H as [[-> [rest' ->]]|[-> [e [rest' [-> He]]]]].
    + split; [lia |]. split; [simpl; lia |]. split.
      * repeat constructor; assumption.
      * left. exists a, b, c, d, (58 :: 47 :: 47 :: rest').
        split; [reflexivity |]. split; [exact Hh |]. left. eauto.
    + assert (Ue : url_char e = true)
        by (eapply ci_url_char; [eassumption | lia | lia]).
      split; [lia |]. split; [simpl; lia |]. split.
      * repeat constructor; assumption.
      * left. exists a, b, c, d, (e :: 58 :: 47 :: 47 :: rest').
        split; [reflexivity |]. split; [exact Hh |]. right. eauto.
  - destruct (ci 119 a && ci 119 b && ci 119 c && (d =? 46)) eqn:Hw;
      [| discriminate].
    intros [= <-].
    apply andb_true_iff in Hw as [Hw Hd]. apply N.eqb_eq in Hd. subst d.
    pose proof Hw as Hw'.
    apply andb_true_iff in Hw' as [Hw' Hc].
    apply andb_true_iff in Hw' as [Ha Hb].
    split; [lia |]. split; [simpl; lia |]. split.
    + repeat constructor;
        try (eapply ci_url_char; [eassumption | lia | lia]).
    + right. split; [reflexivity |]. exists a, b, c, rest. split; auto.
Qed.

Lemma firstn_plus {A : Type} (h k : nat) (s : list A) :
  firstn (h + k) s = firstn h s ++ firstn k (skipn h s).
Proof.
  revert s. induction h as [|h IH]; intros s; [reflexivity |].
  destruct s as [|a s]; simpl.
  - now rewrite firstn_nil.
  - now rewrite IH.
Qed.

Lemma url_match_spec (s : str) (n : nat) :
  url_match s = Some n ->
  (5 <= n <= length s)%nat
  /\ Forall (fun c => url_char c = true) (firstn n s)
  /\ exists h k,
      url_head s = Some h /\ n = (h + k)%nat /\ (0 < k)%nat
      /\ k = run_len url_char (skipn h s).
Proof.
  unfold url_match. destruct (url_head s) as [h|] eqn:Hh; [| discriminate].
  destruct (url_head_spec s h Hh) as [Hh1 [Hh2 [Hh3 _]]].
  destruct (run_len_spec url_char (skipn h s)) as [Hr1 Hr2].
  destruct (run_len url_char (skipn h s)) as [|k] eqn:Hk; [discriminate |].
  intros [= <-]. rewrite length_skipn in Hr1.
  split; [lia |]. split.
  - rewrite firstn_plus. apply Forall_app. split; assumption.
  - exists h, (S k). repeat split; [lia | symmetry; exact Hk].
Qed.

(** Every element of [findall] is a match of the pattern at some position
    of the text. *)
Lemma findall_url_In (skip : nat) (s m : str) :
  In m (findall_url skip s) ->
  exists pre post, s = pre ++ m ++ post /\ url_match (m ++ post) = Some (length m).
Proof.
  revert skip. induction s as [|c r IH]; intros skip; [intros [] |].
  cbn [findall_url]. destruct skip as [|k].
  - destruct (url_match (c :: r)) as [n|] eqn:Hm.
    + intros [<-|Hin].
      * destruct (url_match_spec _ _ Hm) as [[_ Hn] _].
        exists [], (skipn n (c :: r)). cbn [app].
        rewrite firstn_skipn, length_firstn, Nat.min_l by exact Hn.
        split; [reflexivity | exact Hm].
      * destruct (IH _ Hin) as [pre [post [-> H]]].
        exists (c :: pre), post. split; [reflexivity | exact H].
    + intros Hin. destruct (IH _ Hin) as [pre [post [-> H]]].
      exists (c :: pre), post. split; [reflexivity | exact H].
  - intros Hin. destruct (IH _ Hin) as [pre [post [-> H]]].
    exists (c :: pre), post. split; [reflexivity | exact H].
Qed.

Lemma findall_url_lengths (skip : nat) (s : str) :
  (length (concat (findall_url skip s)) + Nat.min skip (length s)
   <= length s)%nat
  /\ (5 * length (findall_url skip s) + Nat.min skip (length s)
      <= length s)%nat.
Proof.
  revert skip. induction s as [|c r IH]; intros skip; [simpl; lia |].
  cbn [findall_url]. destruct skip as [|k].
  - destruct (url_match (c :: r)) as [n|] eqn:Hm.
    + destruct (url_match_spec _ _ Hm) as [[Hn5 Hn] _].
      destruct (IH (n - 1)%nat) as [IH1 IH2].
      cbn [concat length] in *. rewrite length_app, length_firstn.
      cbn [length] in *. lia.
    + destruct (IH 0%nat) as [IH1 IH2]. cbn [length] in *. lia.
  - destruct (IH k) as [IH1 IH2]. cbn [length] in *. lia.
Qed.

Lemma rstrip_by_prefix (p : N -> bool) (s : str) :
  exists t, s = rstrip_by p s ++ t.
Proof.
  induction s as [|c s [t IH]] using rev_ind; [now exists [] |].
  rewrite rstrip_by_snoc. destruct (p c).
  - exists (t ++ [c]). rewrite app_assoc, <- IH. reflexivity.
  - exists []. now rewrite app_nil_r.
Qed.

Lemma ci_not_punct (lo c : N) :
  ci lo c = true -> 65 <= lo - 32 -> lo <= 122 -> trailing_punct c = false.
Proof.
  unfold ci. intros H Hlo Hhi.
  assert (Hc : 65 <= c).
  { repeat (apply orb_true_iff in H as [H|H]).
    - apply N.eqb_eq in H. lia.
    - apply N.eqb_eq in H. lia.
    - apply andb_true_iff in H as [_ H]. apply N.eqb_eq in H. lia. }
  unfold trailing_punct.
  repeat (apply orb_false_iff; split); apply N.eqb_neq; lia.
Qed.

Lemma extract_urls_In (text url : str) :
  In url (extract_urls text) ->
  substring url text
  /\ Forall (fun c => url_char c = true) url
  /\ url <> []
  /\ (forall pre c, url = pre ++ [c] -> trailing_punct c = false).
Proof.
  unfold extract_urls. intros Hin.
  apply in_map_iff in Hin as [m [<- Hin]].
  destruct (findall_url_In _ _ _ Hin) as [pre [post [-> Hm]]].
  destruct (url_match_spec _ _ Hm) as [[Hn5 _] [Hall [h [k [Hh _]]]]].
  rewrite firstn_app, Nat.sub_diag, firstn_all in Hall.
  cbn [firstn] in Hall. rewrite app_nil_r in Hall.
  destruct (rstrip_by_prefix trailing_punct m) as [t Ht].
  split; [| split; [| split]].
  - exists pre, (t ++ post). rewrite Ht at 1. now rewrite <- app_assoc.
  - now apply Forall_rstrip_by.
  - destruct (url_head_spec _ _ Hh) as [_ [_ [_ Hs]]].
    assert (Ha : exists a r lo,
               m = a :: r /\ ci lo a = true /\ 65 <= lo - 32 /\ lo <= 122).
    { destruct Hs as [[a [b [c [d [rest [E [Hci _]]]]]]]
                     |[_ [a [b [c [rest [E Hci]]]]]]].
      - destruct m as [|a' m']; simpl in E; [simpl in Hn5; lia |].
        injection E as -> _.
          apply andb_true_iff in Hci as [Hci _].
          apply andb_true_iff in Hci as [Hci _].
          apply andb_true_iff in Hci as [Hci _].
          exists a, m', 104. repeat split; [assumption | lia | lia].
      - destruct m as [|a' m']; simpl in E; [simpl in Hn5; lia |].
        injection E as -> _.
          apply andb_true_iff in Hci as [Hci _].
          apply andb_true_iff in Hci as [Hci _].
          exists a, m', 119. repeat split; [assumption | lia | lia]. }
    destruct Ha as [a [r [lo [-> [Hci [H1 H2]]]]]].
    rewrite rstrip_by_cons by (eapply ci_not_punct; eassumption).
    discriminate.
  - intros pre' c. apply rstrip_by_last.
Qed.

(** X5.  Every extracted URL is a non-empty piece of the text, holds no
    white space, angle bracket or quote, and does not end in one of the
    stripped punctuation marks. *)
Theorem extract_urls_wellformed (text url : str) :
  In url (extract_urls text) ->
  substring url text
  /\ Forall (fun c => url_char c = true) url
  /\ url <> []
  /\ (forall pre c, url = pre ++ [c] -> trailing_punct c = false).
Proof. apply extract_urls_In. Qed.

Lemma concat_rstrip_length (p : N -> bool) (ms : list str) :
  (length (concat (List.map (rstrip_by p) ms)) <= length (concat ms))%nat.
Proof.
  induction ms as [|m ms IH]; simpl; [lia |].
  rewrite !length_app.
  pose proof (sublist_length _ _ (rstrip_by_sublist p m)). lia.
Qed.

(** X6.  The matches do not overlap: the extracted URLs together are no
    longer than the text, and a text of [n] code points yields at most
    [n / 5] URLs. *)
Theorem extract_urls_lengths (text : str) :
  (length (concat (extract_urls text)) <= length text)%nat
  /\ (5 * length (extract_urls text) <= length text)%nat.
Proof.
  destruct (findall_url_lengths 0 text) as [H1 H2].
  unfold extract_urls. rewrite length_map. split; [| lia].
  pose proof (concat_rstrip_length trailing_punct (findall_url 0 text)).
  lia.
Qed.

Lemma app_prefix_of {A : Type} (x m post rest : list A) :
  m ++ post = x ++ rest -> (length x <= length m)%nat ->
  exists m', m = x ++ m'.
Proof.
  revert m. induction x as [|a x IH]; intros m E Hl; [now exists m |].
  destruct m as [|b m]; [simpl in Hl; lia |].
  simpl in E. injection E as -> E.
  destruct (IH m E) as [m' ->]; [simpl in Hl; lia |]. now exists m'.
Qed.

(** X7.  Every extracted URL begins, in either case, with [http://],
    [https://] or [www]: the stripping of trailing punctuation never eats
    into the scheme. *)
Theorem extract_urls_scheme (text url : str) :
  In url (extract_urls text) ->
  (exists a b c d rest,
      url = a :: b :: c :: d :: rest
      /\ ci 104 a && ci 116 b && ci 116 c && ci 112 d = true
      /\ (starts_with [58; 47; 47] rest = true
          \/ exists e rest',
              rest = e :: rest' /\ ci 115 e = true
              /\ starts_with [58; 47; 47] rest' = true))
  \/ (exists a b c rest,
         url = a :: b :: c :: rest
         /\ ci 119 a && ci 119 b && ci 119 c = true).
Proof.
  unfold extract_urls. intros Hin.
  apply in_map_iff in Hin as [m [<- Hin]].
  destruct (findall_url_In _ _ _ Hin) as [pre [post [_ Hm]]].
  destruct (url_match_spec _ _ Hm) as [_ [_ [h [k [Hh [Hn [Hk _]]]]]]].
  destruct (url_head_spec _ _ Hh) as [_ [_ [_ Hs]]].
  assert (P58 : trailing_punct 58 = false) by reflexivity.
  assert (P47 : trailing_punct 47 = false) by reflexivity.
  destruct Hs as [[a [b [c [d [rest [E [Hci Ht]]]]]]]
                 |[-> [a [b [c [rest [E Hci]]]]]]].
  - pose proof Hci as Hci'.
    apply andb_true_iff in Hci' as [Hci' Hd].
    apply andb_true_iff in Hci' as [Hci' Hc].
    apply andb_true_iff in Hci' as [Ha Hb].
    assert (Pa : trailing_punct a = false)
      by (eapply ci_not_punct; [eassumption | lia | lia]).
    assert (Pb : trailing_punct b = false)
      by (eapply ci_not_punct; [eassumption | lia | lia]).
    assert (Pc : trailing_punct c = false)
      by (eapply ci_not_punct; [eassumption | lia | lia]).
    assert (Pd : trailing_punct d = false)
      by (eapply ci_not_punct; [eassumption | lia | lia]).
    left. destruct Ht as [[-> [rest' ->]]|[-> [e [rest' [-> He]]]]].
    + destruct (app_prefix_of [a; b; c; d; 58; 47; 47] m post rest' E)
        as [m' ->]; [simpl; lia |].
      cbn [app]. rewrite !rstrip_by_cons by assumption.
      exists a, b, c, d, (58 :: 47 :: 47 :: rstrip_by trailing_punct m').
      split; [reflexivity |]. split; [exact Hci |]. left. reflexivity.
    + assert (Pe : trailing_punct e = false)
        by (eapply ci_not_punct; [eassumption | lia | lia]).
      destruct (app_prefix_of [a; b; c; d; e; 58; 47; 47] m post rest' E)
        as [m' ->]; [simpl; lia |].
      cbn [app]. rewrite !rstrip_by_cons by assumption.
      exists a, b, c, d, (e :: 58 :: 47 :: 47 :: rstrip_by trailing_punct m').
      split; [reflexivity |]. split; [exact Hci |]. right.
      exists e, (58 :: 47 :: 47 :: rstrip_by trailing_punct m').
      repeat split. exact He.
  - pose proof Hci as Hci'.
    apply andb_true_iff in Hci' as [Hci' Hc].
    apply andb_true_iff in Hci' as [Ha Hb].
    assert (Pa : trailing_punct a = false)
      by (eapply ci_not_punct; [eassumption | lia | lia]).
    assert (Pb : trailing_punct b = false)
      by (eapply ci_not_punct; [eassumption | lia | lia]).
    assert (Pc : trailing_punct c = false)
      by (eapply ci_not_punct; [eassumption | lia | lia]).
    right.
    destruct (app_prefix_of [a; b; c] m post (46 :: rest) E)
      as [m' ->]; [simpl; lia |].
    cbn [app]. rewrite !rstrip_by_cons by assumption.
    exists a, b, c, (rstrip_by trailing_punct m'). split; [reflexivity | exact Hci].
Qed.

Lemma substring_Forall (P : N -> Prop) (a b : str) :
  substring a b -> Forall P b -> Forall P a.
Proof.
  intros [pre [post ->]] H.
  apply Forall_app in H as [_ H]. now apply Forall_app in H as [H _].
Qed.

(** X8.  In the pipeline the URLs are read off the cleaned text, so a URL
    handed to the domain resolver holds only lower-case ASCII letters,
    digits and the marks [: / . _ -]: no query mark, no at sign, no
    percent escape, no upper case. *)
Theorem pipeline_url_alphabet (x : pyobj) (url : str) :
  In url (extract_urls (clean_text x)) ->
  Forall (fun c => clean_url_char c = true) url.
Proof.
  intros Hin.
  destruct (extract_urls_In _ _ Hin) as [Hsub [Hurl _]].
  pose proof (substring_Forall _ _ _ Hsub (clean_text_Forall x)) as Hclean.
  apply List.Forall_forall. intros c Hc.
  pose proof (proj1 (List.Forall_forall _ _) Hurl c Hc) as H1.
  pose proof (proj1 (List.Forall_forall _ _) Hclean c Hc) as H2.
  unfold url_char in H1. apply negb_true_iff in H1.
  apply orb_false_iff in H1 as [H1 _]. apply orb_false_iff in H1 as [H1 _].
  apply orb_false_iff in H1 as [H1 _]. apply orb_false_iff in H1 as [H1 _].
  unfold clean_char in H2. unfold clean_url_char.
  rewrite H1, orb_false_r in H2. exact H2.
Qed.

(** ** The cached encoder *)

Section CacheProperties.

Variable tensor : Type.

Lemma str_eqb_eq (a b : str) : str_eqb a b = true <-> a = b.
Proof. unfold str_eqb. apply bool_decide_eq_true. Qed.

Lemma str_eqb_neq (a b : str) : str_eqb a b = false <-> a <> b.
Proof. unfold str_eqb. apply bool_decide_eq_false. Qed.

Lemma cache_get_None (k : str) (c : cache tensor) :
  cache_get k c = None <-> ~ In k (cache_keys c).
Proof.
  induction c as [|[k' v] c IH]; simpl; [tauto |].
  destruct (str_eqb k k') eqn:E.
  - apply str_eqb_eq in E. subst. split; [discriminate | tauto].
  - apply str_eqb_neq in E. rewrite IH. split.
    + intros H [H1|H1]; [congruence | tauto].
    + tauto.
Qed.

Lemma cache_get_split (k : str) (v : tensor) (c : cache tensor) :
  cache_get k c = Some v ->
  exists c1 c2,
    c = c1 ++ (k, v) :: c2 /\ ~ In k (cache_keys c1).
Proof.
  induction c as [|[k' v'] c IH]; simpl; [discriminate |].
  destruct (str_eqb k k') eqn:E.
  - apply str_eqb_eq in E. subst. intros [= ->]. exists [], c. auto.
  - apply str_eqb_neq in E. intros H.
    destruct (IH H) as [c1 [c2 [-> Hn]]].
    exists ((k', v') :: c1), c2. split; [reflexivity |].
    simpl. intros [H1|H1]; [congruence | tauto].
Qed.

Lemma cache_del_absent (k : str) (c : cache tensor) :
  ~ In k (cache_keys c) -> cache_del k c = c.
Proof.
  induction c as [|[k' v] c IH]; simpl; [reflexivity |]. intros H.
  assert (E : str_eqb k k' = false)
    by (apply str_eqb_neq; intros ->; apply H; now left).
  rewrite E. simpl. f_equal. apply IH. tauto.
Qed.

Lemma cache_del_app (k : str) (c1 c2 : cache tensor) :
  cache_del k (c1 ++ c2) = cache_del k c1 ++ cache_del k c2.
Proof. unfold cache_del. apply List.filter_app. Qed.

Lemma cache_get_del_ne (k t : str) (c : cache tensor) :
  k <> t -> cache_get k (cache_del t c) = cache_get k c.
Proof.
  intros Hne. induction c as [|[k' v] c IH]; simpl; [reflexivity |].
  destruct (str_eqb t k') eqn:E; simpl.
  - apply str_eqb_eq in E. subst k'.
    assert (E' : str_eqb k t = false) by now apply str_eqb_neq.
    now rewrite E'.
  - destruct (str_eqb k k'); [reflexivity | exact IH].
Qed.

Lemma cache_get_firstn (n : nat) (k : str) (v : tensor) (c : cache tensor) :
  cache_get k (firstn n c) = Some v -> cache_get k c = Some v.
Proof.
  revert n. induction c as [|[k' v'] c IH]; intros n.
  - now rewrite firstn_nil.
  - destruct n as [|n]; simpl; [discriminate |].
    destruct (str_eqb k k'); [auto | apply IH].
Qed.

Lemma NoDup_firstn {A : Type} (n : nat) (l : list A) :
  NoDup l -> NoDup (firstn n l).
Proof.
  intros H. refine (sublist_NoDup (firstn n l) l H _).
  rewrite <- (firstn_skipn n l) at 2. apply sublist_inserts_r. reflexivity.
Qed.

Variable encode : str -> option tensor.

Lemma encode_cached_hit_split (c : cache tensor) (t : str) (v : tensor) :
  cache_ok c ->
  cache_get t c = Some v ->
  exists c1 c2,
    c = c1 ++ (t, v) :: c2
    /\ encode_cached encode c t = ((t, v) :: c1 ++ c2, Some v).
Proof.
  intros [Hnd _] Hget.
  destruct (cache_get_split _ _ _ Hget) as [c1 [c2 [-> Hn1]]].
  exists c1, c2. split; [reflexivity |].
  unfold encode_cached. rewrite Hget. f_equal. f_equal.
  unfold cache_keys in Hnd. rewrite map_app in Hnd. cbn [List.map fst] in Hnd.
  apply NoDup_ListNoDup, List.NoDup_remove_2 in Hnd.
  rewrite cache_del_app.
  replace (cache_del t ((t, v) :: c2)) with (cache_del t c2)
    by (unfold cache_del; cbn [List.filter fst]; now rewrite str_eqb_refl).
  rewrite (cache_del_absent t c1 Hn1), (cache_del_absent t c2);
    [reflexivity |].
  intros H. apply Hnd. apply in_or_app. now right.
Qed.

(** X9.  A hit moves its entry to the front and keeps every other entry
    in place: nothing is dropped, nothing is recomputed. *)
Theorem encode_cached_hit (c : cache tensor) (t : str) (v : tensor) :
  cache_ok c ->
  cache_get t c = Some v ->
  exists c1 c2,
    c = c1 ++ (t, v) :: c2
    /\ encode_cached encode c t = ((t, v) :: c1 ++ c2, Some v).
Proof. apply encode_cached_hit_split. Qed.

Lemma encode_cached_keeps_ok (c : cache tensor) (t : str) :
  cache_ok c ->
  cache_ok (fst (encode_cached encode c t))
  /\ (snd (encode_cached encode c t) = None ->
      fst (encode_cached encode c t) = c).
Proof.
  intros Hok. destruct (cache_get t c) as [v|] eqn:Hget.
  - destruct (encode_cached_hit_split c t v Hok Hget) as [c1 [c2 [-> ->]]].
    cbn [fst snd]. split; [| discriminate].
    destruct Hok as [Hnd Hlen]. unfold cache_ok, cache_keys in *.
    rewrite map_app in Hnd. cbn [List.map fst] in Hnd.
    apply NoDup_ListNoDup in Hnd.
    split.
    + cbn [List.map fst]. rewrite map_app. apply NoDup_ListNoDup.
      constructor.
      * now apply List.NoDup_remove_2 in Hnd.
      * now apply List.NoDup_remove_1 in Hnd.
    + rewrite length_app in Hlen. cbn [length] in *.
      rewrite length_app. lia.
  - unfold encode_cached. rewrite Hget.
    destruct (encode t) as [v|]; cbn [fst snd]; [| split; auto].
    split; [| discriminate].
    destruct Hok as [Hnd Hlen]. unfold cache_ok, cache_keys in *. split.
    + rewrite <- firstn_map. apply NoDup_firstn. cbn [List.map fst].
      apply NoDup_ListNoDup. constructor.
      * now apply cache_get_None.
      * now apply NoDup_ListNoDup.
    + rewrite length_firstn. lia.
Qed.

(** X10.  The invariant of the cache, one entry per key and at most 200
    entries, survives every call; a call that raises leaves the cache as
    it was. *)
Theorem encode_cached_invariant (c : cache tensor) (t : str) :
  cache_ok c ->
  cache_ok (fst (encode_cached encode c t))
  /\ (snd (encode_cached encode c t) = None ->
      fst (encode_cached encode c t) = c).
Proof. apply encode_cached_keeps_ok. Qed.

(** X11.  What a call has returned is served from the cache afterwards:
    the next call for the same text gives the same vector whatever the
    encoder would now do, be it raise or answer differently. *)
Theorem encode_cached_served (encode' : str -> option tensor)
    (c c1 : cache tensor) (t : str) (v : tensor) :
  encode_cached encode c t = (c1, Some v) ->
  cache_get t c1 = Some v
  /\ encode_cached encode' c1 t = ((t, v) :: cache_del t c1, Some v).
Proof.
  intros H.
  assert (Hg : cache_get t c1 = Some v).
  { unfold encode_cached in H. destruct (cache_get t c) as [w|].
    - injection H as <- <-. cbn [cache_get]. now rewrite str_eqb_refl.
    - destruct (encode t) as [w|]; [| discriminate].
      injection H as <- <-. cbn [firstn cache_get]. now rewrite str_eqb_refl. }
  split; [exact Hg |]. unfold encode_cached. now rewrite Hg.
Qed.

(** X12.  Eviction is least-recently-used and happens only at capacity:
    below 200 entries a miss adds its entry at the front and drops
    nothing; at 200 entries it drops the last entry, the least recently
    used, and only that one. *)
Theorem encode_cached_eviction :
  (forall (c : cache tensor) (t : str) (v : tensor),
      (length c < 200)%nat ->
      cache_get t c = None -> encode t = Some v ->
      encode_cached encode c t = ((t, v) :: c, Some v))
  /\ (forall (c0 : cache tensor) (kl : str) (vl : tensor) (t : str)
             (v : tensor),
        cache_ok (c0 ++ [(kl, vl)]) ->
        length (c0 ++ [(kl, vl)]) = 200%nat ->
        cache_get t (c0 ++ [(kl, vl)]) = None -> encode t = Some v ->
        encode_cached encode (c0 ++ [(kl, vl)]) t = ((t, v) :: c0, Some v)
        /\ cache_get kl ((t, v) :: c0) = None).
Proof.
  split.
  - intros c t v Hlen Hget Henc. unfold encode_cached.
    rewrite Hget, Henc. f_equal. cbn [firstn]. f_equal.
    apply firstn_all2. lia.
  - intros c0 kl vl t v [Hnd _] Hlen Hget Henc.
    rewrite length_app in Hlen. cbn [length] in Hlen.
    split.
    + unfold encode_cached. rewrite Hget, Henc. f_equal. cbn [firstn].
      f_equal. rewrite firstn_app.
      replace (199 - length c0)%nat with 0%nat by lia.
      cbn [firstn]. rewrite app_nil_r. apply firstn_all2. lia.
    + apply cache_get_None in Hget. apply cache_get_None.
      unfold cache_keys in *. rewrite map_app in Hget, Hnd.
      cbn [List.map fst] in *.
      apply NoDup_ListNoDup, List.NoDup_remove_2 in Hnd.
      rewrite app_nil_r in Hnd.
      intros [H|H]; [| contradiction].
      apply Hget. apply in_or_app. right. left. now symmetry.
Qed.

Lemma encode_cached_coherent (c : cache tensor) (t : str) :
  cache_coherent encode c ->
  snd (encode_cached encode c t) = encode t
  /\ cache_coherent encode (fst (encode_cached encode c t)).
Proof.
  intros Hc. unfold encode_cached.
  destruct (cache_get t c) as [v|] eqn:Hget.
  - cbn [fst snd]. split; [symmetry; now apply Hc |].
    intros k w. cbn [cache_get].
    destruct (str_eqb k t) eqn:E.
    + apply str_eqb_eq in E. subst k. intros [= <-]. now apply Hc.
    + apply str_eqb_neq in E. rewrite cache_get_del_ne by exact E. apply Hc.
  - destruct (encode t) as [v|] eqn:Henc; cbn [fst snd];
      [| split; [reflexivity | exact Hc]].
    split; [reflexivity |].
    intros k w H. apply cache_get_firstn in H. cbn [cache_get] in H.
    destruct (str_eqb k t) eqn:E.
    + apply str_eqb_eq in E. subst k. now injection H as <-.
    + now apply Hc.
Qed.

(** X13.  The cache is transparent: when every entry is what the encoder
    gives for its key, a call returns exactly what the encoder would, and
    the cache stays that way. *)
Theorem encode_cached_transparent (c : cache tensor) (t : str) :
  cache_coherent encode c ->
  snd (encode_cached encode c t) = encode t
  /\ cache_coherent encode (fst (encode_cached encode c t)).
Proof. apply encode_cached_coherent. Qed.

End CacheProperties.

(** ** The analyzer, further *)

Lemma labels_distinct :
  label_safe <> label_phishing /\ label_safe <> label_suspicious
  /\ label_safe <> label_legitimate /\ label_safe <> label_empty
  /\ label_phishing <> label_suspicious
  /\ label_phishing <> label_legitimate
  /\ label_suspicious <> label_legitimate.
Proof. repeat split; intros H; vm_compute in H; discriminate. Qed.

(** Which labels the fusion step can give, by the presence of a hit. *)
Lemma fuse_labels (hits : list str) (s : float) (l conf : str) :
  fuse hits s = Ok (l, conf) ->
  (truthy hits = true /\ (l = label_phishing \/ l = label_suspicious))
  \/ (truthy hits = false /\ (l = label_suspicious \/ l = label_legitimate)).
Proof.
  unfold fuse. destruct (truthy hits); cbn [andb orb].
  - destruct (fltb f0_4 s).
    + destruct (py_int _); [| discriminate]. intros [= <- _]. auto.
    + destruct (py_int _); [| discriminate]. intros [= <- _]. auto.
  - destruct (fltb f0_6 s).
    + destruct (py_int _); [| discriminate]. intros [= <- _]. auto.
    + destruct (py_int _); [| discriminate]. intros [= <- _]. auto.
Qed.

Lemma fuse_not_a_number (hits : list str) :
  fuse hits S754_nan = Raise ValueError
  /\ fuse hits (S754_infinity false) = Raise OverflowError.
Proof. destruct hits; split; vm_compute; reflexivity. Qed.

Section AnalyzerFurther.

Variable tld_extract : str -> option ExtractResult.
Variable SAFE_DOMAINS : gset str.
Variable tensor : Type.
Variable encode : str -> option tensor.
Variable cos_sim : tensor -> tensor -> option float.

#[local] Abbreviation analyze :=
  (analyze_email tld_extract SAFE_DOMAINS encode cos_sim).
#[local] Abbreviation score_of := (cosine_score_of encode cos_sim).
#[local] Abbreviation resolve := (get_registered_domain tld_extract).
#[local] Abbreviation short := (short_circuits tld_extract SAFE_DOMAINS).
#[local] Abbreviation explain := (explanation_of tld_extract SAFE_DOMAINS).

Lemma filter_nil_all {A : Type} (f : A -> bool) (l : list A) :
  List.filter f l = [] -> forall x, In x l -> f x = false.
Proof.
  induction l as [|a l IH]; simpl; [intros _ x [] |].
  destruct (f a) eqn:E; [discriminate |].
  intros H x [<-|Hx]; [exact E | now apply IH].
Qed.

Lemma short_circuits_iff (t : str) :
  short t = true
  <-> extract_urls t <> []
      /\ forall url, In url (extract_urls t) -> resolve url ∈ SAFE_DOMAINS.
Proof.
  unfold short_circuits. set (urls := extract_urls t). split.
  - intros H. apply andb_true_iff in H as [Hu H].
    apply andb_true_iff in H as [_ Hn].
    apply negb_true_iff, truthy_false in Hn.
    split; [now apply truthy_true |].
    intros url Hin.
    pose proof (filter_nil_all _ _ Hn (resolve url)
                  (in_map resolve urls url Hin)) as Hd.
    apply negb_false_iff in Hd. now apply bool_decide_eq_true_1 in Hd.
  - intros [Hne Hall].
    assert (Hsafe : safe_hits_of SAFE_DOMAINS (List.map resolve urls)
                    = List.map resolve urls).
    { apply filter_all. intros d Hd. apply in_map_iff in Hd as [w [<- Hw]].
      apply bool_decide_eq_true_2. auto. }
    assert (Hnon : non_safe_hits_of SAFE_DOMAINS (List.map resolve urls) = []).
    { apply filter_none. intros d Hd. apply in_map_iff in Hd as [w [<- Hw]].
      rewrite (bool_decide_eq_true_2 _ (Hall w Hw)). reflexivity. }
    rewrite Hsafe, Hnon. destruct urls; [contradiction | reflexivity].
Qed.

(** X14.  The verdict is "Safe Email" exactly when the cleaned text holds
    a URL and every URL resolves to a whitelisted domain: one domain off
    the whitelist, or no URL at all, rules it out. *)
Theorem analyze_email_safe_iff (c : cache tensor) (email : pyobj) :
  (exists conf expl, snd (analyze c email) = Ok (label_safe, conf, expl))
  <-> extract_urls (clean_text email) <> []
      /\ forall url, In url (extract_urls (clean_text email)) ->
                     resolve url ∈ SAFE_DOMAINS.
Proof.
  rewrite <- short_circuits_iff.
  destruct labels_distinct as [D1 [D2 [D3 [D4 _]]]].
  destruct (truthy (clean_text email)) eqn:Ht.
  - destruct (short (clean_text email)) eqn:Hsh.
    + rewrite analyze_short by assumption. split; [reflexivity |].
      intros _. eauto.
    + rewrite analyze_fusion by assumption. cbn [snd]. split; [| discriminate].
      intros [conf [expl H]]. exfalso.
      destruct (fuse _ _) as [[l cf]|e] eqn:Hf; [| discriminate].
      injection H as -> _ _.
      destruct (fuse_labels _ _ _ _ Hf) as [[_ [H|H]]|[_ [H|H]]];
        congruence.
  - rewrite analyze_empty by assumption. cbn [snd]. split.
    + intros [conf [expl H]]. exfalso. injection H as H _ _. congruence.
    + intros H. exfalso. apply short_circuits_iff in H as [H _].
      apply truthy_false in Ht. rewrite Ht in H. now apply H.
Qed.

Lemma keyword_hits_nil : keyword_hits [] = [].
Proof. reflexivity. Qed.

(** X15.  The labels follow the keywords: a verdict of "Phishing Email"
    needs a keyword hit, and with a keyword hit the verdict is never
    "Legitimate Email", whatever the score. *)
Theorem analyze_email_label_policy (c : cache tensor) (email : pyobj)
    (l conf expl : str) :
  snd (analyze c email) = Ok (l, conf, expl) ->
  (l = label_phishing -> keyword_hits (clean_text email) <> [])
  /\ (l = label_legitimate -> keyword_hits (clean_text email) = []).
Proof.
  destruct labels_distinct as [D1 [D2 [D3 [D4 [D5 [D6 D7]]]]]].
  destruct (truthy (clean_text email)) eqn:Ht.
  - destruct (short (clean_text email)) eqn:Hsh.
    + rewrite analyze_short by assumption. cbn [snd].
      intros [= <- _ _]. split; intros H; congruence.
    + rewrite analyze_fusion by assumption. cbn [snd].
      destruct (fuse _ _) as [[l' cf]|e] eqn:Hf; [| discriminate].
      intros [= <- _ _].
      destruct (fuse_labels _ _ _ _ Hf) as [[Hh [H|H]]|[Hh [H|H]]];
        subst l'; split; intros E; try congruence;
        try (now apply truthy_true); try (now apply truthy_false).
  - rewrite analyze_empty by assumption. cbn [snd].
    intros [= <- _ _]. split; intros H; vm_compute in H; discriminate.
Qed.

(** X16.  The conversion to an integer lies outside the [try] block: when
    the cosine gives a NaN the analyzer raises [ValueError], and when it
    gives plus infinity it raises [OverflowError]. *)
Theorem analyze_email_raises :
  (forall (c : cache tensor) (email : pyobj),
      truthy (clean_text email) = true ->
      short (clean_text email) = false ->
      snd (score_of c (clean_text email) (extract_urls (clean_text email)))
      = S754_nan ->
      snd (analyze c email) = Raise ValueError)
  /\ (forall (c : cache tensor) (email : pyobj),
        truthy (clean_text email) = true ->
        short (clean_text email) = false ->
        snd (score_of c (clean_text email)
               (extract_urls (clean_text email)))
        = S754_infinity false ->
        snd (analyze c email) = Raise OverflowError).
Proof.
  split; intros c email Ht Hsh Hs;
    rewrite analyze_fusion by assumption; cbn [snd]; rewrite Hs.
  - now rewrite (proj1 (fuse_not_a_number _)).
  - now rewrite (proj2 (fuse_not_a_number _)).
Qed.

(** X17.  A message with nothing the filter keeps, be it punctuation,
    symbols or text in a script other than ASCII letters, is reported as
    empty: "No text provided." at "0%", with the cache untouched. *)
Theorem analyze_email_nothing_kept (c : cache tensor) (s : str) :
  Forall (fun ch => allowed_char ch = false \/ is_space ch = true) s ->
  analyze c (PyStr s) = (c, Ok verdict_empty).
Proof.
  intros H. apply analyze_empty.
  now rewrite (clean_text_nothing_kept s H).
Qed.

End AnalyzerFurther.

Section AnalyzerCache.

Variable tld_extract : str -> option ExtractResult.
Variable SAFE_DOMAINS : gset str.
Variable tensor : Type.
Variable encode : str -> option tensor.
Variable cos_sim : tensor -> tensor -> option float.

#[local] Abbreviation analyze :=
  (analyze_email tld_extract SAFE_DOMAINS encode cos_sim).
#[local] Abbreviation score_of := (cosine_score_of encode cos_sim).
#[local] Abbreviation short := (short_circuits tld_extract SAFE_DOMAINS).

Lemma score_of_cache_ok (c : cache tensor) (t : str) (urls : list str) :
  cache_ok c -> cache_ok (fst (score_of c t urls)).
Proof.
  intros Hok. unfold cosine_score_of.
  pose proof (proj1 (encode_cached_keeps_ok tensor encode c t Hok)) as H1.
  destruct (encode_cached encode c t) as [c1 [e|]]; cbn [fst] in *;
    [| exact H1].
  set (other := if truthy urls then join (u " ") urls else t).
  pose proof (proj1 (encode_cached_keeps_ok tensor encode c1 other H1)) as H2.
  destruct (encode_cached encode c1 other) as [c2 [o|]]; cbn [fst] in *;
    [| exact H2].
  destruct (cos_sim e o); exact H2.
Qed.

(** X18.  The analyzer keeps the cache within its bounds: from a cache
    with one entry per key and at most 200 entries, every call, whatever
    its verdict, leaves such a cache. *)
Theorem analyze_email_cache_ok (c : cache tensor) (email : pyobj) :
  cache_ok c -> cache_ok (fst (analyze c email)).
Proof.
  intros Hok. destruct (truthy (clean_text email)) eqn:Ht.
  - destruct (short (clean_text email)) eqn:Hsh.
    + now rewrite analyze_short by assumption.
    + rewrite analyze_fusion by assumption. cbn [fst].
      now apply score_of_cache_ok.
  - now rewrite analyze_empty by assumption.
Qed.

Lemma score_of_coherent (c : cache tensor) (t : str) (urls : list str) :
  cache_coherent encode c ->
  snd (score_of c t urls)
  = match encode t with
    | Some e =>
        match encode (if truthy urls then join (u " ") urls else t) with
        | Some o => match cos_sim e o with Some x => x | None => f0 end
        | None => f0
        end
    | None => f0
    end
  /\ cache_coherent encode (fst (score_of c t urls)).
Proof.
  intros Hc. unfold cosine_score_of.
  destruct (encode_cached_coherent tensor encode c t Hc) as [H1 C1].
  destruct (encode_cached encode c t) as [c1 r1]. cbn [fst snd] in *.
  rewrite <- H1. destruct r1 as [e|]; [| split; [reflexivity | exact C1]].
  set (other := if truthy urls then join (u " ") urls else t).
  destruct (encode_cached_coherent tensor encode c1 other C1) as [H2 C2].
  destruct (encode_cached encode c1 other) as [c2 r2]. cbn [fst snd] in *.
  rewrite <- H2. destruct r2 as [o|]; [| split; [reflexivity | exact C2]].
  destruct (cos_sim e o); split; (reflexivity || exact C2).
Qed.

(** X19.  The verdict does not depend on what the cache holds: with a
    cache whose entries are the encoder's own, the analyzer returns the
    verdict it returns from an empty cache, and leaves such a cache. *)
Theorem analyze_email_cache_transparent (c : cache tensor) (email : pyobj) :
  cache_coherent encode c ->
  snd (analyze c email) = snd (analyze [] email)
  /\ cache_coherent encode (fst (analyze c email)).
Proof.
  intros Hc.
  assert (H0 : cache_coherent encode ([] : cache tensor))
    by (intros k v; discriminate).
  destruct (truthy (clean_text email)) eqn:Ht.
  - destruct (short (clean_text email)) eqn:Hsh.
    + rewrite !analyze_short by assumption. split; [reflexivity | exact Hc].
    + rewrite !analyze_fusion by assumption. cbn [fst snd].
      destruct (score_of_coherent c (clean_text email)
                  (extract_urls (clean_text email)) Hc) as [E1 C1].
      destruct (score_of_coherent [] (clean_text email)
                  (extract_urls (clean_text email)) H0) as [E2 _].
      rewrite E1, E2. split; [reflexivity | exact C1].
  - rewrite !analyze_empty by assumption. split; [reflexivity | exact Hc].
Qed.

End AnalyzerCache.

(** ** The confidence, further *)

#[local] Open Scope Z_scope.

(** A float between [a/100] and one, times 100, truncates to an integer
    between [a] and 100. *)
Lemma fmul_100_floor (m : positive) (e a : Z) :
  Zpos m <= 2 ^ (- e) -> e <= 0 -> 0 <= a ->
  a * 2 ^ (- e) <= 100 * Zpos m ->
  exists n,
    py_int (fmul (S754_finite false m e) f100) = Ok n /\ a <= n <= 100.
Proof.
  intros Hm He Ha0 Hlow.
  unfold fmul, f100. cbn [SFmul xorb].
  destruct (binary_round_aux_shape false (m * 7036874417766400) (e + -46)
              loc_Exact) as [m2 [k [k2 [Hk [Hm2 [Hk2 ->]]]]]].
  set (w := 46 - e).
  assert (Hw : 46 <= w) by (unfold w; lia).
  assert (Hpe : 0 < 2 ^ (- e)) by (apply pow2_pos; lia).
  assert (Hc : 7036874417766400 = 100 * 2 ^ 46) by reflexivity.
  assert (H46 : 0 < 2 ^ 46) by (apply pow2_pos; lia).
  assert (Hpw : 2 ^ w = 2 ^ 46 * 2 ^ (- e)).
  { rewrite <- pow2_split by lia. f_equal. }
  assert (HM : Zpos (m * 7036874417766400) <= 100 * 2 ^ w).
  { rewrite Pos2Z.inj_mul, Hc, Hpw. nia. }
  assert (HM' : a * 2 ^ w <= Zpos (m * 7036874417766400)).
  { rewrite Pos2Z.inj_mul, Hc, Hpw. nia. }
  assert (Hd : Zdigits2 (Zpos (m * 7036874417766400)) <= 7 + w).
  { apply Zdigits2_le; [| lia]. rewrite pow2_split by lia.
    change (2 ^ 7) with 128.
    assert (0 < 2 ^ w) by (apply pow2_pos; lia). lia. }
  assert (Hf : fexp prec emax
                 (Zdigits2 (Zpos (m * 7036874417766400)) + (e + -46))
               <= -46)
    by (apply fexp_le; unfold w in Hd; lia).
  assert (Hk0 : 0 <= k) by lia.
  set (b := - (e + -46 + k)).
  assert (Hb : 46 <= b) by (unfold b; lia).
  assert (Hpk : 0 < 2 ^ k) by now apply pow2_pos.
  assert (Hpb : 0 < 2 ^ b) by (apply pow2_pos; lia).
  assert (Hsplit : 2 ^ w = 2 ^ k * 2 ^ b).
  { rewrite <- pow2_split by lia. f_equal. unfold b, w. lia. }
  assert (H1 : Zpos (m * 7036874417766400) / 2 ^ k <= 100 * 2 ^ b).
  { apply Z.div_le_upper_bound; [assumption | nia]. }
  assert (H1' : a * 2 ^ b <= Zpos (m * 7036874417766400) / 2 ^ k).
  { apply Z.div_le_lower_bound; [assumption | nia]. }
  assert (Hp1 : 2 <= 2 ^ b).
  { change 2 with (2 ^ 1) at 1. apply Z.pow_le_mono_r; lia. }
  assert (Hd2 : Zdigits2 m2 <= 7 + b).
  { apply Zdigits2_le; [| lia]. rewrite pow2_split by lia.
    change (2 ^ 7) with 128. nia. }
  assert (Hf2 : fexp prec emax (Zdigits2 m2 + (e + -46 + k)) <= -46)
    by (apply fexp_le; unfold b in Hd2; lia).
  assert (Hk20 : 0 <= k2) by lia.
  assert (He3 : e + -46 + k + k2 <= -46) by lia.
  assert (Hpk2 : 0 < 2 ^ k2) by now apply pow2_pos.
  assert (Hp3 : 0 < 2 ^ (- (e + -46 + k + k2))) by (apply pow2_pos; lia).
  assert (Hsplit2 : 2 ^ b = 2 ^ k2 * 2 ^ (- (e + -46 + k + k2))).
  { rewrite <- pow2_split by lia. f_equal. unfold b. lia. }
  assert (Hq : a * 2 ^ (- (e + -46 + k + k2)) <= m2 / 2 ^ k2).
  { apply Z.div_le_lower_bound; [assumption | nia]. }
  destruct (m2 / 2 ^ k2) as [|m3|m3] eqn:E3.
  - exists 0. split; [reflexivity | nia].
  - replace (e + -46 + k + k2 <=? emax - prec) with true
      by (symmetry; apply Z.leb_le; unfold emax, prec; lia).
    cbn [py_int cond_Zopp].
    rewrite Z.shiftl_div_pow2 by lia.
    rewrite <- E3, Z.div_div, <- Hsplit2 by lia.
    eexists. split; [reflexivity |]. split.
    + apply Z.div_le_lower_bound; [assumption | nia].
    + assert (m2 / 2 ^ b < 101)
        by (apply Z.div_lt_upper_bound; [assumption | nia]).
      lia.
  - nia.
Qed.

(** A well-formed float of the unit interval that is not below the
    constant [mc * 2^-53] is one, or has the constant's exponent and a
    mantissa at least as large. *)
Lemma not_below (mc m : positive) (e : Z) :
  valid_binary prec emax (S754_finite false m e) = true ->
  Zpos m <= 2 ^ (- e) -> e <= 0 ->
  fltb (S754_finite false m e) (S754_finite false mc (-53)) = false ->
  (e = -52 /\ Zpos m = 2 ^ 52) \/ (e = -53 /\ Zpos mc <= Zpos m).
Proof.
  intros Hv Hm He Hc.
  unfold fltb, SFltb in Hc. cbn [SFcompare] in Hc.
  destruct (Z.compare_spec e (-53)) as [->|Hlt|Hgt]; [| discriminate |].
  - right. split; [reflexivity |].
    change (Pos.compare_cont Eq m mc) with (Pos.compare m mc) in Hc.
    destruct (Pos.compare_spec m mc) as [->|H|H]; [lia | discriminate | lia].
  - left.
    cbn [valid_binary] in Hv. unfold bounded, canonical_mantissa in Hv.
    apply andb_true_iff in Hv as [Hv _]. apply Z.eqb_eq in Hv.
    unfold fexp, emin, prec, emax in Hv.
    assert (Hd : Zpos (digits2_pos m) = 53) by lia.
    destruct (digits2_pos_bounds m) as [Hlo _]. rewrite Hd in Hlo.
    change (2 ^ (53 - 1)) with (2 ^ 52) in Hlo.
    assert (Hle : 2 ^ (- e) <= 2 ^ 52) by (apply Z.pow_le_mono_r; lia).
    assert (e = -52).
    { destruct (Z.eq_dec e (-52)) as [|Hne]; [assumption | exfalso].
      assert (2 ^ (- e) <= 2 ^ 51) by (apply Z.pow_le_mono_r; lia).
      assert (2 ^ 51 < 2 ^ 52) by (apply Z.pow_lt_mono_r; lia). lia. }
    subst e. change (2 ^ (- -52)) with (2 ^ 52) in Hm. split; lia.
Qed.

Lemma fuse_floors (hits : list str) (s : float) :
  in_unit s = true ->
  exists label n,
    fuse hits s = Ok (label, percent n)
    /\ 0 <= n <= 100
    /\ (label = label_phishing -> 80 <= n)
    /\ (label = label_suspicious -> 60 <= n).
Proof.
  intros Hu. pose proof (in_unit_le_one s Hu) as Hl.
  assert (Hv : valid_binary prec emax s = true).
  { unfold in_unit in Hu. apply andb_true_iff in Hu as [Hu _].
    now apply andb_true_iff in Hu as [Hu _]. }
  destruct labels_distinct as [_ [_ [_ [_ [D5 [D6 D7]]]]]].
  assert (Hbr : forall (mc : positive) (a : Z) (l : str),
             0 <= a ->
             py_int (fmul (S754_finite false mc (-53)) f100) = Ok a ->
             a <= 100 ->
             a * 2 ^ 53 <= 100 * (Zpos mc + 1) ->
             exists n,
               (match py_int (fmul (py_max s (S754_finite false mc (-53)))
                                f100) with
                | Ok n => Ok (l, percent n)
                | Raise e => Raise e
                end) = Ok (l, percent n) /\ a <= n <= 100).
  { intros mc a l Ha0 Hconst Ha100 Hnext. unfold py_max.
    destruct (fltb s (S754_finite false mc (-53))) eqn:Hc.
    - rewrite Hconst. exists a. split; [reflexivity | lia].
    - destruct s as [sg|sg| |[|] m e]; cbn [le_one] in Hl;
        try contradiction; try discriminate Hc.
      destruct Hl as [Hm He].
      destruct (not_below mc m e Hv Hm He Hc) as [[-> Hone]|[-> Hge]].
      + destruct (fmul_100_floor m (-52) a) as [n [-> Hn]];
          [assumption | lia | assumption | | eauto].
        change (2 ^ (- -52)) with (2 ^ 52). rewrite Hone. lia.
      + destruct (Z.eq_dec (Zpos m) (Zpos mc)) as [E|Hne].
        * injection E as ->. rewrite Hconst.
          exists a. split; [reflexivity | lia].
        * destruct (fmul_100_floor m (-53) a) as [n [-> Hn]];
            [assumption | lia | assumption | | eauto].
          change (2 ^ (- -53)) with (2 ^ 53). lia. }
  unfold fuse.
  destruct (truthy hits && fltb f0_4 s).
  - change f0_8 with (S754_finite false 7205759403792794 (-53)).
    destruct (Hbr 7205759403792794%positive 80 label_phishing)
      as [n [-> Hn]]; [lia | vm_compute; reflexivity | lia
                       | vm_compute; discriminate |].
    exists label_phishing, n.
    repeat split; first [lia | intros; congruence].
  - destruct (truthy hits || fltb f0_6 s) eqn:E.
    + change f0_6 with (S754_finite false 5404319552844595 (-53)).
      destruct (Hbr 5404319552844595%positive 60 label_suspicious)
        as [n [-> Hn]]; [lia | vm_compute; reflexivity | lia
                         | vm_compute; discriminate |].
      exists label_suspicious, n.
      repeat split; first [lia | intros; congruence].
    + destruct (fuse_bounds hits s Hu) as [l [n [Hf Hn]]].
      unfold fuse in Hf. rewrite E in Hf.
      replace (truthy hits && fltb f0_4 s) with false in Hf.
      * destruct (py_int _) as [n'|]; [| discriminate].
        injection Hf as <- Hp. exists label_legitimate, n.
        rewrite Hp. repeat split; first [lia | intros; congruence].
      * apply orb_false_iff in E as [-> _]. reflexivity.
Qed.

Section AnalyzerFloors.

Variable tld_extract : str -> option ExtractResult.
Variable SAFE_DOMAINS : gset str.
Variable tensor : Type.
Variable encode : str -> option tensor.
Variable cos_sim : tensor -> tensor -> option float.

#[local] Abbreviation analyze :=
  (analyze_email tld_extract SAFE_DOMAINS encode cos_sim).
#[local] Abbreviation short := (short_circuits tld_extract SAFE_DOMAINS).

(** X20.  The two [max] of lines 107 and 110 are floors: with scores in
    the unit interval a "Phishing Email" verdict never shows less than
    80% and a "Suspicious Email" verdict never less than 60%. *)
Theorem analyze_email_confidence_floors (c : cache tensor) (email : pyobj) :
  (forall a b x, cos_sim a b = Some x -> in_unit x = true) ->
  exists label n explanation,
    snd (analyze c email) = Ok (label, str_of_Z n ++ u "%", explanation)
    /\ (label = label_phishing -> 80 <= n <= 100)
    /\ (label = label_suspicious -> 60 <= n <= 100).
Proof.
  intros H.
  destruct labels_distinct as [D1 [D2 [D3 [D4 _]]]].
  destruct (truthy (clean_text email)) eqn:Ht.
  - destruct (short (clean_text email)) eqn:Hsh.
    + rewrite analyze_short by assumption. cbn [snd].
      eexists _, 99, _. split; [reflexivity |].
      split; intros E; congruence.
    + rewrite analyze_fusion by assumption. cbn [snd].
      assert (Hu : in_unit
                     (snd (cosine_score_of encode cos_sim c (clean_text email)
                             (extract_urls (clean_text email)))) = true)
        by (apply score_of_in_unit; exact H).
      destruct (fuse_floors (keyword_hits (clean_text email)) _ Hu)
        as [l [n [-> [Hn [Hp Hs]]]]].
      eexists _, n, _. split; [reflexivity |].
      split; intros E; [specialize (Hp E) | specialize (Hs E)]; lia.
  - rewrite analyze_empty by assumption. cbn [snd].
    eexists _, 0, _. split; [reflexivity |].
    split; intros E; vm_compute in E; discriminate.
Qed.

End AnalyzerFloors.

Lemma above_0_6 (s : float) :
  fltb f0_6 s = true ->
  s = S754_infinity false
  \/ exists m e, s = S754_finite false m e
       /\ fltb f0_4 s = true /\ fltb s f0_6 = false.
Proof.
  unfold fltb, SFltb, f0_6, f0_4.
  generalize 5404319552844595%positive as m6.
  generalize 7205759403792794%positive as m4.
  intros m4 m6.
  destruct s as [sg|sg| |[|] m e]; cbn [SFcompare]; try discriminate.
  - destruct sg; [discriminate |]. intros _. now left.
  - intros H6. right. exists m, e. split; [reflexivity |].
    destruct (Z.compare_spec (-53) e) as [<-|Hlt|Hgt]; [| | discriminate].
    + split; [reflexivity |]. rewrite Z.compare_refl.
      change (Pos.compare_cont Eq m6 m) with (Pos.compare m6 m) in H6.
      change (Pos.compare_cont Eq m m6) with (Pos.compare m m6).
      rewrite (Pos.compare_antisym m6 m).
      destruct (Pos.compare m6 m); try discriminate. reflexivity.
    + destruct (Z.compare_spec (-54) e); try lia.
      split; [reflexivity |].
      destruct (Z.compare_spec e (-53)); first [lia | reflexivity].
Qed.

(** X21.  A keyword hit escalates: at a score where a text without hits is
    Suspicious, a text with a hit is Phishing, and the conversion that
    succeeded without the hit succeeds with it. *)
Theorem fuse_keyword_escalates (s : float) (conf k : str) (hits : list str) :
  fuse [] s = Ok (label_suspicious, conf) ->
  exists conf', fuse (k :: hits) s = Ok (label_phishing, conf').
Proof.
  destruct labels_distinct as [_ [_ [_ [_ [_ [_ D7]]]]]].
  unfold fuse. cbn [truthy andb orb].
  destruct (fltb f0_6 s) eqn:H6.
  - destruct (above_0_6 s H6) as [->|[m [e [-> [H4 Hb]]]]].
    + vm_compute. discriminate.
    + unfold py_max. rewrite H4, Hb.
      destruct (py_int (fmul (S754_finite false m e) f100)) as [n|] eqn:Hn;
        [| discriminate].
      intros _.
      destruct (fltb (S754_finite false m e) f0_8).
      * exists (u "80%"). vm_compute. reflexivity.
      * rewrite Hn. eauto.
  - destruct (py_int _); [| discriminate].
    intros H; first [discriminate H | injection H as E _; congruence].
Qed.

(** ** The further properties on concrete inputs *)

#[local] Open Scope N_scope.

(** The letter h of a cleaned greeting. *)
Lemma clean_text_alphabet_witness :
  clean_char 104 = true
  /\ is_upper_az 104 = false /\ 104 <> 60 /\ 104 <> 62 /\ 104 <> 34
  /\ 104 <> 39.
Proof.
  apply (clean_text_alphabet (PyStr (u "<b>Hello</b>, World!")) 104).
  vm_compute. left. reflexivity.
Defined.

(** The second URL of a sentence, its closing parenthesis and full stop
    stripped. *)
Lemma extract_urls_wellformed_witness :
  substring (u "www.x.org")
    (u "see https://mail.gmail.com/inbox, and www.x.org).")
  /\ Forall (fun c => url_char c = true) (u "www.x.org")
  /\ u "www.x.org" <> []
  /\ (forall pre c, u "www.x.org" = pre ++ [c] -> trailing_punct c = false).
Proof.
  apply (extract_urls_wellformed
           (u "see https://mail.gmail.com/inbox, and www.x.org).")
           (u "www.x.org")).
  vm_compute. right. left. reflexivity.
Defined.

(** The first URL of the same sentence has a scheme. *)
Lemma extract_urls_scheme_witness :
  (exists a b c d rest,
      u "https://mail.gmail.com/inbox" = a :: b :: c :: d :: rest
      /\ ci 104 a && ci 116 b && ci 116 c && ci 112 d = true
      /\ (starts_with [58; 47; 47] rest = true
          \/ exists e rest',
              rest = e :: rest' /\ ci 115 e = true
              /\ starts_with [58; 47; 47] rest' = true))
  \/ (exists a b c rest,
         u "https://mail.gmail.com/inbox" = a :: b :: c :: rest
         /\ ci 119 a && ci 119 b && ci 119 c = true).
Proof.
  apply (extract_urls_scheme
           (u "see https://mail.gmail.com/inbox, and www.x.org).")).
  vm_compute. left. reflexivity.
Defined.

(** A URL with a query string, as the resolver sees it. *)
Lemma pipeline_url_alphabet_witness :
  Forall (fun c => clean_url_char c = true)
    (u "https://mail.gmail.com/inboxx1").
Proof.
  apply (pipeline_url_alphabet
           (PyStr (u "Visit HTTPS://Mail.Gmail.com/Inbox?x=1 now"))).
  vm_compute. left. reflexivity.
Defined.

(** A hit on the middle entry of a cache of three. *)
Lemma encode_cached_hit_witness :
  exists c1 c2,
    [(u "a", u "1"); (u "b", u "2"); (u "c", u "3")]
    = c1 ++ (u "b", u "2") :: c2
    /\ encode_cached encode_fail
         [(u "a", u "1"); (u "b", u "2"); (u "c", u "3")] (u "b")
       = ((u "b", u "2") :: c1 ++ c2, Some (u "2")).
Proof.
  apply (encode_cached_hit str encode_fail).
  - split.
    + apply (bool_decide_eq_true_1 _). vm_compute. reflexivity.
    + vm_compute. lia.
  - vm_compute. reflexivity.
Defined.

(** A miss on a full cache. *)
Lemma encode_cached_invariant_witness :
  cache_ok (fst (encode_cached encode_demo full_cache (u "new")))
  /\ (snd (encode_cached encode_demo full_cache (u "new")) = None ->
      fst (encode_cached encode_demo full_cache (u "new")) = full_cache).
Proof.
  apply (encode_cached_invariant str encode_demo).
  split.
  - apply (bool_decide_eq_true_1 _). vm_compute. reflexivity.
  - vm_compute. lia.
Defined.

(** Encoded once, then asked of an encoder that only raises. *)
Lemma encode_cached_served_witness :
  cache_get (u "hello") [(u "hello", u "hello")] = Some (u "hello")
  /\ encode_cached encode_fail [(u "hello", u "hello")] (u "hello")
     = ((u "hello", u "hello")
          :: cache_del (u "hello") [(u "hello", u "hello")],
        Some (u "hello")).
Proof.
  apply (encode_cached_served str encode_demo encode_fail []).
  vm_compute. reflexivity.
Defined.

(** A miss on the empty cache, and a miss on the full cache, whose oldest
    key is the code point 1199. *)
Lemma encode_cached_eviction_witness :
  encode_cached encode_demo [] (u "new") = ([(u "new", u "new")], Some (u "new"))
  /\ encode_cached encode_demo
       (firstn 199 full_cache ++ [([1199], [199])]) (u "new")
     = ((u "new", u "new") :: firstn 199 full_cache, Some (u "new"))
  /\ cache_get [1199] ((u "new", u "new") :: firstn 199 full_cache) = None.
Proof.
  split.
  - apply (proj1 (encode_cached_eviction str encode_demo)).
    + vm_compute. lia.
    + reflexivity.
    + vm_compute. reflexivity.
  - apply (proj2 (encode_cached_eviction str encode_demo)).
    + split.
      * apply (bool_decide_eq_true_1 _). vm_compute. reflexivity.
      * vm_compute. lia.
    + vm_compute. reflexivity.
    + vm_compute. reflexivity.
    + vm_compute. reflexivity.
Defined.

Lemma demo_cache_coherent :
  cache_coherent encode_demo [(u "a", u "a")].
Proof.
  intros k v. cbn [cache_get].
  destruct (str_eqb k (u "a")) eqn:E; [| discriminate].
  apply str_eqb_eq in E. subst k. intros [= <-]. vm_compute. reflexivity.
Qed.

(** A cache that holds the encoder's own answer. *)
Lemma encode_cached_transparent_witness :
  snd (encode_cached encode_demo [(u "a", u "a")] (u "a")) = encode_demo (u "a")
  /\ cache_coherent encode_demo
       (fst (encode_cached encode_demo [(u "a", u "a")] (u "a"))).
Proof.
  apply (encode_cached_transparent str encode_demo).
  exact demo_cache_coherent.
Defined.

(** A message whose verdict is Phishing. *)
Lemma analyze_email_label_policy_witness :
  (label_phishing = label_phishing ->
   keyword_hits (clean_text (PyStr (u "Please verify your account"))) <> [])
  /\ (label_phishing = label_legitimate ->
      keyword_hits (clean_text (PyStr (u "Please verify your account"))) = []).
Proof.
  apply (analyze_email_label_policy tld_demo safe_demo str encode_demo
           cos_demo [] (PyStr (u "Please verify your account"))
           label_phishing (u "100%")
           (explanation_of tld_demo safe_demo
              (clean_text (PyStr (u "Please verify your account"))) f1)).
  vm_compute. reflexivity.
Defined.

(** The same message under a cosine that gives a NaN, and under one that
    gives an infinity. *)
Lemma analyze_email_raises_witness :
  snd (analyze_email tld_demo safe_demo encode_demo cos_nan []
         (PyStr (u "hello http://example.org/abc")))
  = Raise ValueError
  /\ snd (analyze_email tld_demo safe_demo encode_demo cos_inf []
            (PyStr (u "hello http://example.org/abc")))
     = Raise OverflowError.
Proof.
  split.
  - apply (proj1 (analyze_email_raises tld_demo safe_demo str encode_demo
                    cos_nan)); vm_compute; reflexivity.
  - apply (proj2 (analyze_email_raises tld_demo safe_demo str encode_demo
                    cos_inf)); vm_compute; reflexivity.
Defined.

(** A greeting in Cyrillic letters, with an exclamation mark, a space and
    a question mark. *)
Lemma analyze_email_nothing_kept_witness :
  analyze_email tld_demo safe_demo encode_demo cos_demo []
    (PyStr [1087; 1088; 1080; 1074; 1077; 1090; 33; 32; 63])
  = ([], Ok verdict_empty).
Proof.
  apply analyze_email_nothing_kept.
  repeat (constructor; [first [left; reflexivity | right; reflexivity] |]).
  constructor.
Defined.

(** A call on the full cache. *)
Lemma analyze_email_cache_ok_witness :
  cache_ok
    (fst (analyze_email tld_demo safe_demo encode_demo cos_demo full_cache
            (PyStr (u "Please verify your account")))).
Proof.
  apply analyze_email_cache_ok. split.
  - apply (bool_decide_eq_true_1 _). vm_compute. reflexivity.
  - vm_compute. lia.
Defined.

(** A call on a cache that already holds an entry. *)
Lemma analyze_email_cache_transparent_witness :
  snd (analyze_email tld_demo safe_demo encode_demo cos_demo
         [(u "a", u "a")] (PyStr (u "Please verify your account")))
  = snd (analyze_email tld_demo safe_demo encode_demo cos_demo []
           (PyStr (u "Please verify your account")))
  /\ cache_coherent encode_demo
       (fst (analyze_email tld_demo safe_demo encode_demo cos_demo
               [(u "a", u "a")] (PyStr (u "Please verify your account")))).
Proof.
  apply analyze_email_cache_transparent. exact demo_cache_coherent.
Defined.

(** A message with keywords and a URL off the whitelist, scores in the
    unit interval. *)
Lemma analyze_email_confidence_floors_witness :
  exists label n explanation,
    snd (analyze_email tld_demo safe_demo encode_demo cos_unit []
           (PyStr (u "click http://evil-bank-login.xyz/ab now to verify")))
    = Ok (label, str_of_Z n ++ u "%", explanation)
    /\ (label = label_phishing -> (80 <= n <= 100)%Z)
    /\ (label = label_suspicious -> (60 <= n <= 100)%Z).
Proof.
  apply (analyze_email_confidence_floors tld_demo safe_demo str encode_demo
           cos_unit []).
  intros a b x. unfold cos_unit.
  destruct (str_eqb a b); [intros [= <-]; reflexivity |].
  destruct (Nat.modulo (length b) 4) as [|[|[|k]]]; intros [= <-];
    vm_compute; reflexivity.
Defined.

(** At a score of one. *)
Lemma fuse_keyword_escalates_witness :
  exists conf', fuse [u "urgent"] f1 = Ok (label_phishing, conf').
Proof.
  apply (fuse_keyword_escalates f1 (u "100%")).
  vm_compute. reflexivity.
Defined.
